(** * CoG: embedding retrieval and triplet training, verified against the source

    A shallow embedding of the core of the repository:

    - [Numeric]     vectors of numbers, dot product, L2 norm, [F.normalize];
    - [Projection]  [prepare_triplet_data.Projector];
    - [Projection32] the same [Projector], on IEEE binary32 numbers;
    - [Sampler]     [train_triplet.fetch_embeddings] and [TripletDataset];
    - [Trainer]     [train_triplet.train];
    - [Head]        the reranking head [TinyHead] both scripts define;
    - [Retriever]   [triplet_similarity.main];
    - [Script]      [train_triplet._parse_dims] and the body of the script;
    - [Detector]    [advanced_embedding_pipeline.YoloCropper.detect_best_crop];
    - [Checkpoints] [triplet_similarity.resolve_ckpt_path];
    - [Prepare]     [prepare_triplet_data.fetch_image], [upsert_rows] and
                    [process_dimension].

    Part I holds the definitions, one module per script; Part II holds what
    is proved of them, in the modules [NumericFacts] ... [SearchFacts].

    Numbers.  The Python code computes on IEEE floats (float32 arrays, float64
    Python floats).  But for [Projection32], every number here is a real
    number of [R]: arithmetic is exact, there is no rounding, no overflow and
    no NaN, and [.astype(np.float32)] is the identity; what is stated on
    real numbers is about this idealised arithmetic.  No statement there is
    about the norm of a normalised vector, which rounding, overflow and
    underflow change.  The guard on the norm in [Projector.project] hangs on
    them; it is studied on binary32 numbers in [Projection32]. *)

From Stdlib Require Import Reals Lra Lia ZArith List Ascii String.
From Corelib Require SpecFloat.
From stdpp Require Import gmap strings list pretty sorting.

(** * Part I: the model *)

(** ** Vectors *)

Module Numeric.

Local Open Scope R_scope.

(** [np.dot] / the row-by-vector product inside [mat @ vec]. *)
Fixpoint dot (u v : list R) : R :=
  match u, v with
  | x :: u', y :: v' => x * y + dot u' v'
  | _, _ => 0
  end.

(** [np.linalg.norm(v)] of a one-dimensional array. *)
Definition norm (v : list R) : R := sqrt (dot v v).

(** [mat @ vec] for a two-dimensional [mat], stored as its list of rows. *)
Definition mat_vec (m : list (list R)) (v : list R) : list R :=
  map (fun row => dot row v) m.

(** Element-wise division of an array by a scalar.  numpy does not raise on
    a zero divisor, it signals "divide by zero encountered" and fills the
    array with inf/nan; the model makes that event visible as [None]. *)
Definition np_divide (v : list R) (d : R) : option (list R) :=
  if Req_dec_T d 0 then None else Some (map (fun x => x / d) v).

(** [torch.nn.functional.normalize(v, dim=0)]: [v / max(||v||, eps)] with
    torch's default [eps = 1e-12]. *)
Definition normalize_eps : R := / 1000000000000.

Definition F_normalize (v : list R) : list R :=
  map (fun x => x / Rmax (norm v) normalize_eps) v.

End Numeric.

(** ** Python values and effects shared by the scripts *)

Module Py.

(** The exceptions the modelled code raises, itself or through a library. *)
Inductive exn : Type :=
| RuntimeError (msg : string)
| ValueError (msg : string)
| FileNotFoundError (msg : string)
| KeyError (key : string)
| IndexError
| ZeroDivisionError.

(** How a call ends: it returns, it raises, or it is still running when the
    fuel given to its loops is used up. *)
Inductive outcome (A : Type) : Type :=
| Ret (a : A)
| Raise (e : exn)
| Diverge.

Arguments Ret {A} a.

Arguments Raise {A} e.

Arguments Diverge {A}.

(** Computations that thread a state [S] and may raise or diverge.  A raised
    exception keeps the state reached so far: nothing is rolled back. *)
Definition M (S A : Type) : Type := S -> outcome A * S.

Definition ret {S A} (a : A) : M S A := fun s => (Ret a, s).

Definition raise {S A} (e : exn) : M S A := fun s => (Raise e, s).

Definition diverge {S A} : M S A := fun s => (Diverge, s).

Definition bind {S A B} (c : M S A) (k : A -> M S B) : M S B :=
  fun s =>
    match c s with
    | (Ret a, s') => k a s'
    | (Raise e, s') => (Raise e, s')
    | (Diverge, s') => (Diverge, s')
    end.

Definition get {S} : M S S := fun s => (Ret s, s).

Definition put {S} (s : S) : M S unit := fun _ => (Ret tt, s).

Definition modify {S} (f : S -> S) : M S unit := fun s => (Ret tt, f s).

(** [d[k]] and friends on a value that may be missing. *)
Definition from_option {S A} (e : exn) (o : option A) : M S A :=
  match o with Some a => ret a | None => raise e end.

Declare Scope py_scope.

Delimit Scope py_scope with py.

Notation "'let*' x ':=' c 'in' k" := (bind c (fun x => k))
  (at level 10, x name, c at level 100, k at level 200) : py_scope.

Notation "'let*' ' pat ':=' c 'in' k" :=
  (bind c (fun x => match x with pat => k end))
  (at level 10, pat pattern, c at level 100, k at level 200) : py_scope.

(** *** Insertion-ordered dictionaries

    A Python [dict] keeps its keys in insertion order, and the scripts rely
    on that order ([list(d.keys())], [d.values()]), so a dictionary is the
    list of its items, each key once. *)
Section Dict.

Context {K V : Type} `{EqDecision K}.

Fixpoint dict_get (d : list (K * V)) (k : K) : option V :=
  match d with
  | [] => None
  | (k', v) :: d' => if decide (k = k') then Some v else dict_get d' k
  end.

(** [d[k] = v]: an existing key keeps its place, a new one goes last. *)
Fixpoint dict_set (d : list (K * V)) (k : K) (v : V) : list (K * V) :=
  match d with
  | [] => [(k, v)]
  | (k', v') :: d' =>
      if decide (k = k') then (k, v) :: d' else (k', v') :: dict_set d' k v
  end.

Definition dict_keys (d : list (K * V)) : list K := map fst d.

Definition dict_values (d : list (K * V)) : list V := map snd d.

(** Well-formedness: every key occurs once. *)
Definition dict_wf (d : list (K * V)) : Prop := NoDup (dict_keys d).

End Dict.
End Py.

(** ** prepare_triplet_data.py: [Projector] *)

Module Projection.

Import Numeric.

(** The object state of [Projector]: [self.cache] and [self.rng].

    [self.rng = np.random.default_rng(42)] is a deterministic generator: the
    [k]-th standard-normal variate it hands out since seeding is a fixed
    number.  The model takes that sequence as the parameter [normals] and
    keeps, as the generator state, the count [rng] of variates consumed so
    far. *)
Record Projector := mkProjector {
  cache : gmap (nat * nat) (list (list R));
  rng : nat
}.

(** [Projector.__init__] *)
Definition Projector_init : Projector := {| cache := ∅; rng := 0 |}.

(** The [1e-8] added to the row norms. *)
Definition row_eps : R := (/ 100000000)%R.

Section Generator.

Variable normals : nat -> R.

(** [self.rng.standard_normal((rows, cols))]: the array is filled in row-major
    order with the next [rows * cols] variates, and the generator moves on. *)
Definition standard_normal (pos rows cols : nat) : list (list R) * nat :=
  (map (fun i => map normals (seq (pos + i * cols) cols)) (seq 0 rows),
   pos + rows * cols).

(** [mat /= np.linalg.norm(mat, axis=1, keepdims=True) + 1e-8] *)
Definition normalize_rows (mat : list (list R)) : option (list (list R)) :=
  mapM (fun row => np_divide row (norm row + row_eps)%R) mat.

(** Lines 253-257 of [project]: fetch the matrix of [key], building and
    caching it on a miss. *)
Definition project_matrix (P : Projector) (key : nat * nat)
  : option (list (list R)) * Projector :=
  match cache P !! key with
  | Some mat => (Some mat, P)
  | None =>
      let '(raw, pos') := standard_normal (rng P) key.2 key.1 in
      match normalize_rows raw with
      | Some mat => (Some mat, {| cache := <[key := mat]> (cache P); rng := pos' |})
      | None => (None, {| cache := cache P; rng := pos' |})
      end
  end.

(** [Projector.project].  The result is [None] when a division by zero was
    met on the way.  [target_dim] is used as an array shape, which numpy
    wants non-negative, hence a natural number. *)
Definition project (P : Projector) (vec : list R) (target_dim : nat)
  : option (list R) * Projector :=
  let base_dim := length vec in
  if decide (base_dim = target_dim) then (Some vec, P)
  else
    let key := (base_dim, target_dim) in
    match project_matrix P key with
    | (Some mat, P') =>
        let out := mat_vec mat vec in
        let nrm := norm out in
        if Rlt_dec 0 nrm then (np_divide out nrm, P') else (Some out, P')
    | (None, P') => (None, P')
    end.

End Generator.

(** A sample stream of variates, used to run the model on concrete inputs. *)
Definition sample_normals (k : nat) : R := INR k.

End Projection.

(** ** prepare_triplet_data.py: [Projector] on float32

    [Projection] computes on real numbers, where a product has norm 0 only
    when it is the zero vector.  The arrays of [project] are float32: the
    matrix by [.astype(np.float32)], the vector as [embed_batch] returns it,
    and so are their product and its norm.  This module is [project] once
    more, on IEEE binary32 numbers (24 bits of precision, round to nearest
    even, subnormals, infinities and NaN), to see what the guard
    [if norm > 0] lets through there.

    numpy leaves the order in which a sum is accumulated to its loops and to
    BLAS.  Sums are taken from left to right here.  The statement on the
    guard does not hang on that order, and the sums of the examples have one
    term that is not zero. *)

Module Projection32.

Import SpecFloat.

Local Open Scope Z_scope.

(** binary32: [prec] bits of mantissa, exponents below [emax]. *)
Definition prec : Z := 24.

Definition emax : Z := 128.

Definition f32 : Type := spec_float.

Definition f32_add : f32 -> f32 -> f32 := SFadd prec emax.

Definition f32_mul : f32 -> f32 -> f32 := SFmul prec emax.

Definition f32_div : f32 -> f32 -> f32 := SFdiv prec emax.

Definition f32_sqrt : f32 -> f32 := SFsqrt prec emax.

(** [x < y]; false when either is NaN. *)
Definition f32_lt : f32 -> f32 -> bool := SFltb.

Definition f32_zero : f32 := S754_zero false.

(** [np.float32(1e-8)], the float32 nearest to 1e-8: 11258999 * 2^-50. *)
Definition row_eps : f32 := S754_finite false 11258999 (-50).

(** The sum of the products of two float32 arrays, as in [x.dot(y)] and in
    a row of [mat @ vec]. *)
Definition dot (u v : list f32) : f32 :=
  foldl (fun acc xy => f32_add acc (f32_mul xy.1 xy.2)) f32_zero (zip u v).

(** [np.linalg.norm(v)] of a one-dimensional float32 array:
    [sqrt(v.dot(v))], a float32. *)
Definition norm (v : list f32) : f32 := f32_sqrt (dot v v).

(** [mat @ vec] *)
Definition mat_vec (m : list (list f32)) (v : list f32) : list f32 :=
  map (fun row => dot row v) m.

(** [self.cache] and [self.rng], as in [Projection.Projector]. *)
Record Projector := mkProjector {
  cache : gmap (nat * nat) (list (list f32));
  rng : nat
}.

(** [Projector.__init__] *)
Definition Projector_init : Projector := {| cache := ∅; rng := 0 |}.

Section Generator.

(** The variates of the generator, each after [.astype(np.float32)]. *)
Variable normals : nat -> f32.

(** [self.rng.standard_normal((rows, cols)).astype(np.float32)] *)
Definition standard_normal (pos rows cols : nat) : list (list f32) * nat :=
  (map (fun i => map normals (seq (pos + i * cols) cols)) (seq 0 rows),
   (pos + rows * cols)%nat).

(** [mat /= np.linalg.norm(mat, axis=1, keepdims=True) + 1e-8]: float32
    throughout, the Python float [1e-8] taking the type of the array. *)
Definition normalize_rows (mat : list (list f32)) : list (list f32) :=
  map (fun row => map (fun x => f32_div x (f32_add (norm row) row_eps)) row) mat.

(** Lines 253-257 of [project]. *)
Definition project_matrix (P : Projector) (key : nat * nat)
  : list (list f32) * Projector :=
  match cache P !! key with
  | Some mat => (mat, P)
  | None =>
      let '(raw, pos') := standard_normal (rng P) key.2 key.1 in
      let mat := normalize_rows raw in
      (mat, {| cache := <[key := mat]> (cache P); rng := pos' |})
  end.

(** [Projector.project].  Dividing a float32 array does not raise: a zero
    divisor gives infinities and NaN.  The final [.astype(np.float32)] finds
    a float32 array. *)
Definition project (P : Projector) (vec : list f32) (target_dim : nat)
  : list f32 * Projector :=
  let base_dim := length vec in
  if decide (base_dim = target_dim) then (vec, P)
  else
    let key := (base_dim, target_dim) in
    let '(mat, P') := project_matrix P key in
    let out := mat_vec mat vec in
    let nrm := norm out in
    if f32_lt f32_zero nrm then (map (fun x => f32_div x nrm) out, P')
    else (out, P').

End Generator.

(** *** Reading float32 numbers *)



(** The real number a float32 stands for; the infinities and NaN stand for
    none. *)
Definition f32_real (x : f32) : option R :=
  match x with
  | S754_zero _ => Some 0%R
  | S754_finite s m e => Some (IZR (cond_Zopp s (Zpos m)) * powerRZ 2 e)%R
  | S754_infinity _ | S754_nan => None
  end.

(** *** A small projection *)

(** 1.0 = 2^23 * 2^-23 *)
Definition f32_one : f32 := S754_finite false 8388608 (-23).


(** The variates 1, 0, 0, 0, 1, 0, 0, 0, ... *)
Definition ex_normals (k : nat) : f32 :=
  if Nat.eqb (k mod 4) 0 then f32_one else f32_zero.


(** 3 * 2^-75 = (3 * 2^22) * 2^-97 *)
Definition f32_small : f32 := S754_finite false 12582912 (-97).

(** 0.75 = (3 * 2^22) * 2^-24 *)
Definition f32_three_quarters : f32 := S754_finite false 12582912 (-24).

(** [[3 * 2^-75, 0, 0, 0]] *)
Definition ex_small_vec : list f32 := [f32_small; f32_zero; f32_zero; f32_zero].

End Projection32.

(** ** train_triplet.py: [fetch_embeddings] and [TripletDataset] *)

Module Sampler.

Import Numeric Py.

Local Open Scope py_scope.

(** One row returned by the SELECT of [fetch_embeddings]. *)
Record Row := mkRow {
  desertion_no : string;
  embedding_side : string;
  vector1 : option (list R);
  vector2 : option (list R);
  vector3 : option (list R);
  vector4 : option (list R);
  kind_cd : option string;
  color_cd : option string
}.

(** The value stored per [desertion_no]: [{"vecs": .., "kind": .., "color": ..}]. *)
Record Info := mkInfo {
  vecs : list (list R);
  kind : option string;
  color : option string
}.

(** The vectors one row contributes: [vector1], [vector2], and with
    [TRIPLET_USE_VEC34=1] also [vector3], [vector4]; NULLs are dropped. *)
Definition row_vecs (use_vec34 : bool) (r : Row) : list (list R) :=
  omap (M := list) (fun v => v)
       ([vector1 r; vector2 r] ++
        (if use_vec34 then [vector3 r; vector4 r] else [])).

(** One turn of the loop over [rows]:
    [grouped.setdefault(id, {...})["vecs"].extend(vecs)], skipped when the
    row has no vector. *)
Definition add_row (use_vec34 : bool) (grouped : list (string * Info)) (r : Row)
  : list (string * Info) :=
  match row_vecs use_vec34 r with
  | [] => grouped
  | vs =>
      let info := default {| vecs := []; kind := kind_cd r; color := color_cd r |}
                          (dict_get grouped (desertion_no r)) in
      dict_set grouped (desertion_no r)
               {| vecs := vecs info ++ vs; kind := kind info; color := color info |}
  end.

(** [fetch_embeddings], from the rows the query returned for the split. *)
Definition fetch_embeddings (use_vec34 : bool) (rows : list Row)
  : list (string * Info) :=
  foldl (add_row use_vec34) [] rows.

Record TripletDataset := mkTripletDataset {
  grouped : list (string * Info);
  ids : list string;
  neg_ids : list string;
  length_mult : Z;
  by_meta : gmap (option string * option string) (list string)
}.

Definition meta_key (info : Info) : option string * option string :=
  (kind info, color info).

(** [self.by_meta.setdefault(key, []).append(did)] *)
Definition by_meta_add (m : gmap (option string * option string) (list string))
  (item : string * Info) : gmap (option string * option string) (list string) :=
  <[meta_key item.2 := default [] (m !! meta_key item.2) ++ [item.1]]> m.

Definition eligible (item : string * Info) : bool :=
  Nat.leb 2 (length (vecs item.2)).

(** [TripletDataset.__init__] *)
Definition TripletDataset_init (grouped0 : list (string * Info)) (length_mult0 : Z)
  : TripletDataset :=
  let g := List.filter eligible grouped0 in
  {| grouped := g;
     ids := dict_keys g;
     neg_ids := dict_keys g;
     length_mult := Z.max 1 length_mult0;
     by_meta := foldl by_meta_add ∅ g |}.

(** [TripletDataset.__len__] *)
Definition TripletDataset_len (ds : TripletDataset) : Z :=
  (Z.of_nat (length (ids ds)) * length_mult ds)%Z.

(** What [__getitem__] has picked when it reaches its [return]. *)
Record Triplet := mkTriplet {
  t_did : string;
  t_anchor : list R;
  t_positive_strong : list R;
  t_weak_vec : list R;
  t_neg_id : string;
  t_negative : list R
}.

(** *** The [random] module

    Python's module-level generator is deterministic once seeded: the [k]-th
    number it hands out is fixed.  [rand k] is that number before it is
    reduced to the requested range, and the state is the count of numbers
    handed out so far. *)
Section Random.

Variable rand : nat -> nat.

(** [random._randbelow(n)], for [n > 0]. *)
Definition randbelow (n : nat) : M nat nat :=
  fun pos => (Ret (rand pos mod n), S pos).

(** [random.choice(seq)] *)
Definition choice {A} (seq : list A) : M nat A :=
  match seq with
  | [] => raise IndexError
  | _ => let* j := randbelow (length seq) in from_option IndexError (seq !! j)
  end.

(** [random.sample(population, 2)], as CPython draws it from a population of
    at most 21 items: a copy of the population is the pool, each pick is
    replaced in the pool by the pool's last live item.  (An entity has at
    most four vectors per side.  For larger populations CPython picks
    positions and redraws a position already picked; like [_randbelow], the
    call is taken to return.) *)
Definition sample2 {A} (population : list A) : M nat (A * A) :=
  let n := length population in
  if Nat.ltb n 2 then raise (ValueError "Sample larger than population or is negative")
  else
    let* j0 := randbelow n in
    let* r0 := from_option IndexError (population !! j0) in
    let* last := from_option IndexError (population !! (n - 1)) in
    let pool := <[j0 := last]> population in
    let* j1 := randbelow (n - 1) in
    let* r1 := from_option IndexError (pool !! j1) in
    ret (r0, r1).

(** [while neg_id == did: neg_id = random.choice(self.neg_ids)] *)
Fixpoint resample (fuel : nat) (pool : list string) (did neg_id : string)
  : M nat string :=
  if decide (neg_id = did) then
    match fuel with
    | O => diverge
    | S fuel' => let* x := choice pool in resample fuel' pool did x
    end
  else ret neg_id.

(** The body of [TripletDataset.__getitem__] up to its [return]. *)
Definition draw_triplet (ds : TripletDataset) (idx : Z) (fuel : nat) : M nat Triplet :=
  let n := length (ids ds) in
  if decide (n = 0) then raise ZeroDivisionError
  else
    let* did := from_option IndexError (ids ds !! Z.to_nat (idx mod Z.of_nat n)) in
    let* info := from_option (KeyError did) (dict_get (grouped ds) did) in
    let* ' (anchor, positive_strong) := sample2 (vecs info) in
    let key := meta_key info in
    let weak_ids :=
      List.filter (fun x => negb (bool_decide (x = did)))
                  (default [] (by_meta ds !! key)) in
    let* weak_vec :=
      match weak_ids with
      | [] => ret positive_strong
      | _ =>
          let* w_id := choice weak_ids in
          let* winfo := from_option (KeyError w_id) (dict_get (grouped ds) w_id) in
          choice (vecs winfo)
      end in
    let* neg_id0 := choice (neg_ids ds) in
    let* neg_id := resample fuel (neg_ids ds) did neg_id0 in
    let* ninfo := from_option (KeyError neg_id) (dict_get (grouped ds) neg_id) in
    let* negative := choice (vecs ninfo) in
    ret {| t_did := did; t_anchor := anchor; t_positive_strong := positive_strong;
           t_weak_vec := weak_vec; t_neg_id := neg_id; t_negative := negative |}.

(** [TripletDataset.__getitem__] *)
Definition getitem (ds : TripletDataset) (idx : Z) (fuel : nat)
  : M nat (list R * list R * list R * list R) :=
  let* t := draw_triplet ds idx fuel in
  ret (F_normalize (t_anchor t), F_normalize (t_positive_strong t),
       F_normalize (t_weak_vec t), F_normalize (t_negative t)).

End Random.

(** A generator is never stuck when, asked again and again for a number
    below [n >= 2], it does not answer the same number forever. *)
Definition never_stuck (rand : nat -> nat) : Prop :=
  forall n p r, 2 <= n -> exists q, p <= q /\ rand q mod n <> r.

(** *** A small dataset, run *)

Definition ex_u : list R := [1%R; 0%R].

Definition ex_v : list R := [0%R; 1%R].

(** Two entities with two vectors each and one with a single vector. *)
Definition ex_grouped : list (string * Info) :=
  [("A", {| vecs := [ex_u; ex_v]; kind := Some "dog"; color := Some "white" |});
   ("B", {| vecs := [ex_v; ex_u]; kind := Some "dog"; color := Some "white" |});
   ("C", {| vecs := [ex_u]; kind := Some "dog"; color := Some "white" |})].

(** One entity with two vectors, one with a single vector. *)
Definition ex_single : list (string * Info) :=
  [("A", {| vecs := [ex_u; ex_v]; kind := Some "dog"; color := Some "white" |});
   ("C", {| vecs := [ex_u]; kind := Some "dog"; color := Some "white" |})].

(** A has a zero vector and shares its (kind, color) with C alone, which has
    a single vector; B has another key. *)
Definition ex_faded : list (string * Info) :=
  [("A", {| vecs := [[0%R; 0%R]; ex_u]; kind := Some "dog"; color := Some "white" |});
   ("B", {| vecs := [ex_v; ex_u]; kind := Some "cat"; color := Some "black" |});
   ("C", {| vecs := [ex_v]; kind := Some "dog"; color := Some "white" |})].

(** The generator that hands out 0, 1, 2, ... *)
Definition counter (k : nat) : nat := k.

End Sampler.

(** ** The reranking head, [TinyHead], as both scripts define it *)

Module Head.

Import Numeric.

(** The parameters ([state_dict]) of
    [Sequential(Linear(d, d // 2), ReLU(), Linear(d // 2, d // 2))]. *)
Record TinyHead := mkTinyHead {
  w1 : list (list R);
  b1 : list R;
  w2 : list (list R);
  b2 : list R
}.

(** [nn.Linear]: [W x + b]. *)
Definition linear (w : list (list R)) (b x : list R) : list R :=
  zip_with Rplus (mat_vec w x) b.

(** [nn.ReLU] *)
Definition relu (x : list R) : list R := map (Rmax 0) x.

(** [TinyHead.forward] on one vector whose length fits the weights (torch
    raises on another), on real numbers. *)
Definition forward (h : TinyHead) (x : list R) : list R :=
  F_normalize (linear (w2 h) (b2 h) (relu (linear (w1 h) (b1 h) x))).

End Head.

(** ** train_triplet.py: [train] *)

Module Trainer.

Import Numeric Py Sampler Head.

Local Open Scope py_scope.

Local Open Scope Z_scope.

(** The bundle handed to [torch.save]. *)
Record Checkpoint := mkCheckpoint {
  state_dict : TinyHead;
  ck_embed_dim : Z;
  ck_table : string;
  ck_epochs : Z;
  ck_margin : R
}.

(** What [train] prints.  [PrintEpoch] carries, next to the numbers that are
    printed, a ghost copy of the parameters the model has when the line is
    printed, so that statements can refer to "the weights after epoch k". *)
Inductive Event : Type :=
| PrintConfig (table : string) (embed_dim batch_size epochs length_mult : Z)
              (margin weak_margin weak_weight lr : R) (num_workers : Z)
| PrintSizes (train_ids train_len valid_ids valid_len train_steps valid_steps : Z)
| PrintHintSteps
| PrintHintWorkers
| PrintStep (epoch epochs step total : Z) (loss strong weak : R)
| PrintEpoch (epoch : Z) (train_loss val_loss : R) (ghost_weights : TinyHead)
| PrintSaved (path : string).

(** [os.path.join(a, b)] on POSIX. *)
Definition ends_with_slash (a : string) : bool :=
  match rev (String.list_ascii_of_string a) with
  | c :: _ => bool_decide (c = "/"%char)
  | [] => false
  end.

Definition starts_with_slash (b : string) : bool :=
  match b with
  | String c _ => bool_decide (c = "/"%char)
  | EmptyString => false
  end.

Definition path_join (a b : string) : string :=
  if starts_with_slash b then b
  else if bool_decide (a = "") || ends_with_slash a then a +:+ b
  else a +:+ "/" +:+ b.

(** [f"triplet_head_{embed_dim}.pt"] *)
Definition ckpt_name (embed_dim : Z) : string :=
  "triplet_head_" +:+ pretty embed_dim +:+ ".pt".

Definition ckpt_path (out_dir : string) (embed_dim : Z) : string :=
  path_join out_dir (ckpt_name embed_dim).
(** A batch as the default collate function stacks it: the four tensors of
    the samples, kept here as the list of samples. *)
Definition Batch : Type := list (list R * list R * list R * list R).

Definition anchors (b : Batch) : list (list R) := map (fun s => s.1.1.1) b.

Definition strong_positives (b : Batch) : list (list R) := map (fun s => s.1.1.2) b.

Definition weak_positives (b : Batch) : list (list R) := map (fun s => s.1.2) b.

Definition negatives (b : Batch) : list (list R) := map (fun s => s.2) b.

(** Index batches of a loader: [batch_size] indices each, the last one
    possibly shorter ([drop_last=False]). *)
Fixpoint batched (bs : nat) (l : list nat) (n : nat) : list (list nat) :=
  match n with
  | O => []
  | S n' =>
      match l with
      | [] => []
      | _ => take bs l :: batched bs (drop bs l) n'
      end
  end.

Definition batches (bs : nat) (l : list nat) : list (list nat) :=
  batched bs l (length l).

(** The parts played by libraries and by the environment.

    - [rand]: the stream of Python's [random] module (see [Sampler]);
    - [TorchRng], [randperm], [init_head]: the state of torch's generator
      and its two consumers, the permutation a shuffling loader draws for
      one pass and the initial parameters of [TinyHead(embed_dim)];
    - [Opt], [AdamW], [backward_step]: the optimizer state, its creation
      with learning rate [lr], and one update
      ([zero_grad(); loss.backward(); step()]) on a batch;
    - [triplet_loss margin a p n]: [nn.TripletMarginWithDistanceLoss] with
      the distance [1 - cosine_similarity] and the given margin;
    - [db table split]: the rows the query of [fetch_embeddings] returns;
    - [use_vec34], [OUT_DIR], [WEAK_MARGIN], [WEAK_WEIGHT]: the settings
      read from the environment.

    Samples are fetched in the training process itself ([num_workers = 0],
    the default). *)
Class Setting := mkSetting {
  rand : nat -> nat;
  TorchRng : Type;
  randperm : TorchRng -> nat -> list nat * TorchRng;
  init_head : TorchRng -> Z -> TinyHead * TorchRng;
  Opt : Type;
  AdamW : TinyHead -> R -> Opt;
  backward_step : Opt -> TinyHead -> Batch -> R -> TinyHead * Opt;
  triplet_loss : R -> list (list R) -> list (list R) -> list (list R) -> R;
  db : string -> string -> list Row;
  use_vec34 : bool;
  OUT_DIR : string;
  WEAK_MARGIN : R;
  WEAK_WEIGHT : R
}.

Section Train.
Context {env : Setting}.

(** What [train] reads and changes: the checkpoint files, the two
    generators, and the standard output. *)
Record World := mkWorld {
  fs : gmap string Checkpoint;
  py_pos : nat;
  torch_rng : TorchRng;
  stdout : list Event
}.

Definition print (e : Event) : M World unit :=
  modify (fun w => {| fs := fs w; py_pos := py_pos w; torch_rng := torch_rng w;
                      stdout := stdout w ++ [e] |}).

(** [torch.save(obj, path)] *)
Definition torch_save (c : Checkpoint) (path : string) : M World unit :=
  modify (fun w => {| fs := <[path := c]> (fs w); py_pos := py_pos w;
                      torch_rng := torch_rng w; stdout := stdout w |}).

(** Run a computation of the [random] module in the world. *)
Definition with_random {A} (c : M nat A) : M World A :=
  fun w =>
    let '(o, p) := c (py_pos w) in
    (o, {| fs := fs w; py_pos := p; torch_rng := torch_rng w; stdout := stdout w |}).

(** Run a consumer of torch's generator in the world. *)
Definition with_torch {A} (c : TorchRng -> A * TorchRng) : M World A :=
  fun w =>
    let '(a, t) := c (torch_rng w) in
    (Ret a, {| fs := fs w; py_pos := py_pos w; torch_rng := t; stdout := stdout w |}).

(** [DataLoader(ds, batch_size=.., shuffle=.., drop_last=False,
    num_workers=..)].  The constructor validates its arguments:
    a negative [num_workers] is refused; with [shuffle=True] it builds a
    [RandomSampler], which refuses an empty dataset ("num_samples should be
    a positive integer value, but got num_samples=0"); the [BatchSampler]
    refuses a [batch_size] that is not positive. *)
Record DataLoader := mkDataLoader {
  dl_dataset : TripletDataset;
  dl_batch_size : Z;
  dl_shuffle : bool
}.

Definition DataLoader_init (ds : TripletDataset) (batch_size : Z) (shuffle : bool)
    (num_workers : Z) : M World DataLoader :=
  if num_workers <? 0 then
    raise (ValueError "num_workers option should be non-negative")
  else if shuffle && (TripletDataset_len ds <=? 0) then
    raise (ValueError "num_samples should be a positive integer value")
  else if batch_size <=? 0 then
    raise (ValueError "batch_size should be a positive integer value")
  else ret {| dl_dataset := ds; dl_batch_size := batch_size; dl_shuffle := shuffle |}.

(** [len(dl)]: the number of batches, [ceil(len(dataset) / batch_size)]. *)
Definition DataLoader_len (dl : DataLoader) : Z :=
  (TripletDataset_len (dl_dataset dl) + dl_batch_size dl - 1) / dl_batch_size dl.

(** The index batches of one pass over the loader. *)
Definition DataLoader_indices (dl : DataLoader) : M World (list (list nat)) :=
  let n := Z.to_nat (TripletDataset_len (dl_dataset dl)) in
  let* order := (if dl_shuffle dl then with_torch (fun t => randperm t n)
                 else ret (seq 0 n)) in
  ret (batches (Z.to_nat (dl_batch_size dl)) order).

(** Fetching one batch: [dataset[i]] for each index, in order. *)
Fixpoint fetch (ds : TripletDataset) (fuel : nat) (idxs : list nat) : M World Batch :=
  match idxs with
  | [] => ret []
  | i :: rest =>
      let* x := with_random (getitem rand ds (Z.of_nat i) fuel) in
      let* xs := fetch ds fuel rest in
      ret (x :: xs)
  end.

(** The combined loss of one batch under the model:
    [(loss_strong + WEAK_WEIGHT * loss_weak, loss_strong, loss_weak)]. *)
Definition batch_losses (model : TinyHead) (margin : R) (b : Batch) : R * R * R :=
  let a := map (forward model) (anchors b) in
  let ps := map (forward model) (strong_positives b) in
  let pw := map (forward model) (weak_positives b) in
  let n := map (forward model) (negatives b) in
  let loss_strong := triplet_loss margin a ps n in
  let loss_weak := triplet_loss WEAK_MARGIN a pw n in
  ((loss_strong + WEAK_WEIGHT * loss_weak)%R, loss_strong, loss_weak).

(** The training batches of one epoch: lines 188-207. *)
Fixpoint train_batches (ds : TripletDataset) (fuel : nat) (margin : R)
    (epoch epochs total_batches step : Z) (todo : list (list nat))
    (model : TinyHead) (opt : Opt) (running : R)
  : M World (TinyHead * Opt * R) :=
  match todo with
  | [] => ret (model, opt, running)
  | idxs :: rest =>
      let* b := fetch ds fuel idxs in
      let '(loss, loss_strong, loss_weak) := batch_losses model margin b in
      let '(model', opt') := backward_step opt model b margin in
      let running' := (running + loss * IZR (Z.of_nat (length b)))%R in
      let* _ := (if (step mod 20 =? 0) || (step =? total_batches)
                 then print (PrintStep (epoch + 1) epochs step total_batches
                                       loss loss_strong loss_weak)
                 else ret tt) in
      train_batches ds fuel margin epoch epochs total_batches (step + 1) rest
                    model' opt' running'
  end.

(** The validation batches of one epoch: lines 213-221. *)
Fixpoint valid_batches (ds : TripletDataset) (fuel : nat) (margin : R)
    (todo : list (list nat)) (model : TinyHead) (val_loss : R) : M World R :=
  match todo with
  | [] => ret val_loss
  | idxs :: rest =>
      let* b := fetch ds fuel idxs in
      let '(loss, _, _) := batch_losses model margin b in
      valid_batches ds fuel margin rest model
                    (val_loss + loss * IZR (Z.of_nat (length b)))%R
  end.

(** [bool(ds)] of a dataset: an object with [__len__] is true when its
    length is not zero.  [valid_dl] is the loader when [valid_ds] is true and
    the empty list otherwise, modelled as [None]. *)
Definition truthy (ds : TripletDataset) : bool :=
  negb (TripletDataset_len ds =? 0).

(** One turn of [for epoch in range(epochs)]. *)
Definition run_epoch (train_dl : DataLoader) (valid_dl : option DataLoader)
    (fuel : nat) (margin : R) (epoch epochs : Z) (model : TinyHead) (opt : Opt)
  : M World (TinyHead * Opt) :=
  let total_batches := DataLoader_len train_dl in
  let* todo := DataLoader_indices train_dl in
  let* ' (model', opt', running) :=
    train_batches (dl_dataset train_dl) fuel margin epoch epochs total_batches 1
                  todo model opt 0%R in
  let train_len := TripletDataset_len (dl_dataset train_dl) in
  let train_loss := if train_len =? 0 then 0%R else (running / IZR train_len)%R in
  let* val_loss :=
    match valid_dl with
    | Some vdl =>
        let* vtodo := DataLoader_indices vdl in
        let* total := valid_batches (dl_dataset vdl) fuel margin vtodo model' 0%R in
        ret (if DataLoader_len vdl =? 0 then 0%R
             else (total / IZR (TripletDataset_len (dl_dataset vdl)))%R)
    | None => ret 0%R
    end in
  let* _ := print (PrintEpoch (epoch + 1) train_loss val_loss model') in
  ret (model', opt').

(** [for epoch in range(epochs)], [count] turns still to run from [epoch]. *)
Fixpoint run_epochs (train_dl : DataLoader) (valid_dl : option DataLoader)
    (fuel : nat) (margin : R) (epochs : Z) (count : nat) (epoch : Z)
    (model : TinyHead) (opt : Opt) : M World (TinyHead * Opt) :=
  match count with
  | O => ret (model, opt)
  | S count' =>
      let* ' (model', opt') :=
        run_epoch train_dl valid_dl fuel margin epoch epochs model opt in
      run_epochs train_dl valid_dl fuel margin epochs count' (epoch + 1) model' opt'
  end.

(** [train], lines 122-182: the data, the loaders, the model, the optimizer
    and the opening prints. *)
Definition train_setup (table : string) (embed_dim batch_size : Z) (margin : R)
    (epochs : Z) (lr : R) (length_mult num_workers : Z)
  : M World (DataLoader * option DataLoader * TinyHead * Opt) :=
  let train_group := fetch_embeddings use_vec34 (db table "train") in
  let valid_group := fetch_embeddings use_vec34 (db table "valid") in
  match train_group with
  | [] => raise (RuntimeError
                   "No train embeddings found. Run prepare_triplet_data.py first.")
  | _ =>
      let train_ds := TripletDataset_init train_group length_mult in
      let valid_ds :=
        match valid_group with
        | [] => None
        | _ => Some (TripletDataset_init valid_group 1)
        end in
      let* train_dl := DataLoader_init train_ds batch_size true num_workers in
      let* valid_dl :=
        match valid_ds with
        | Some vds =>
            if truthy vds
            then let* dl := DataLoader_init vds batch_size false num_workers in
                 ret (Some dl)
            else ret None
        | None => ret None
        end in
      let train_steps := DataLoader_len train_dl in
      let total_updates := train_steps * epochs in
      let* model :=
        (if embed_dim <? 0
         then raise (RuntimeError "Trying to create tensor with negative dimension")
         else with_torch (fun t => init_head t embed_dim)) in
      let opt := AdamW model lr in
      let* _ := print (PrintConfig table embed_dim batch_size epochs length_mult
                                   margin WEAK_MARGIN WEAK_WEIGHT lr num_workers) in
      let* _ := print (PrintSizes
                         (Z.of_nat (length (ids train_ds)))
                         (TripletDataset_len train_ds)
                         (match valid_dl with
                          | Some vdl => Z.of_nat (length (ids (dl_dataset vdl)))
                          | None => 0
                          end)
                         (match valid_dl with
                          | Some vdl => TripletDataset_len (dl_dataset vdl)
                          | None => 0
                          end)
                         (DataLoader_len train_dl)
                         (match valid_dl with
                          | Some vdl => DataLoader_len vdl
                          | None => 0
                          end)) in
      let* _ := (if (2000 <? train_steps) || (150000 <? total_updates)
                 then print PrintHintSteps else ret tt) in
      let* _ := (if (num_workers =? 0) && (500 <? train_steps)
                 then print PrintHintWorkers else ret tt) in
      ret (train_dl, valid_dl, model, opt)
  end.

(** [train(table, embed_dim, batch_size, margin, epochs, lr, length_mult,
    num_workers)]: the setup, the epoch loop (lines 184-224) and the save
    (lines 226-239).  The file system of the model holds the checkpoints
    only, so [os.makedirs(OUT_DIR, exist_ok=True)] leaves it as it is.
    [os.makedirs], [torch.save], [print], the optimizer and the forward pass
    of the head are taken to succeed: what is stated of [train] is stated of
    the runs that return. *)
Definition train (table : string) (embed_dim batch_size : Z) (margin : R)
    (epochs : Z) (lr : R) (length_mult num_workers : Z) (fuel : nat)
  : M World unit :=
  let* ' (train_dl, valid_dl, model, opt) :=
    train_setup table embed_dim batch_size margin epochs lr length_mult num_workers in
  let* ' (model', _) :=
    run_epochs train_dl valid_dl fuel margin epochs (Z.to_nat epochs) 0 model opt in
  let path := ckpt_path OUT_DIR embed_dim in
  let* _ := torch_save {| state_dict := model'; ck_embed_dim := embed_dim;
                          ck_table := table; ck_epochs := epochs;
                          ck_margin := margin |} path in
  print (PrintSaved path).
(** *** What a computation leaves behind

    [logs P c]: whatever way [c] ends, it has written no file and has
    printed only events that satisfy [P]. *)
Definition logs {A} (P : Event -> Prop) (c : M World A) : Prop :=
  forall w o w', c w = (o, w') ->
    fs w' = fs w /\ exists out, stdout w' = stdout w ++ out /\ Forall P out.

(** A computation that prints nothing and writes nothing. *)
Definition silent {A} (c : M World A) : Prop := logs (fun _ => False) c.

Definition is_step (e : Event) : Prop :=
  match e with PrintStep _ _ _ _ _ _ _ => True | _ => False end.

(** The epochs reported in a log, each with the weights at its end. *)
Definition epoch_weights (out : list Event) : list (Z * TinyHead) :=
  omap (M := list)
       (fun e => match e with PrintEpoch k _ _ m => Some (k, m) | _ => None end) out.

(** The checkpoints reported as saved in a log. *)
Definition saved_paths (out : list Event) : list string :=
  omap (M := list)
       (fun e => match e with PrintSaved p => Some p | _ => None end) out.

(** Events that report neither an epoch nor a save. *)
Definition plain (e : Event) : Prop :=
  match e with PrintEpoch _ _ _ _ | PrintSaved _ => False | _ => True end.
End Train.

(** *** A small database, trained on *)

Definition ex_head : TinyHead :=
  {| w1 := [[1%R; 0%R]]; b1 := [0%R]; w2 := [[1%R]]; b2 := [0%R] |}.

Definition ex_rows : list Row :=
  [ {| desertion_no := "A"; embedding_side := "popfile1";
       vector1 := Some ex_u; vector2 := Some ex_v; vector3 := None; vector4 := None;
       kind_cd := Some "dog"; color_cd := Some "white" |};
    {| desertion_no := "B"; embedding_side := "popfile1";
       vector1 := Some ex_v; vector2 := Some ex_u; vector3 := None; vector4 := None;
       kind_cd := Some "dog"; color_cd := Some "white" |};
    {| desertion_no := "C"; embedding_side := "popfile2";
       vector1 := Some ex_u; vector2 := None; vector3 := None; vector4 := None;
       kind_cd := Some "cat"; color_cd := None |} ].

(** A database whose train split is [ex_rows], and one whose train split
    holds only single-vector entities. *)
Definition ex_db (table split : string) : list Row :=
  if bool_decide (split = "train") then ex_rows else [].

Definition ex_db_lonely (table split : string) : list Row :=
  if bool_decide (split = "train") then drop 2 ex_rows else [].

(** Stand-ins for the library parts: torch's generator has a single state,
    [randperm] keeps the order, the head starts from [ex_head] and the
    optimizer leaves it as it is, every loss is 0. *)
Definition ex_setting (database : string -> string -> list Row) : Setting :=
  {| rand := counter;
     TorchRng := unit;
     randperm := fun _ n => (seq 0 n, tt);
     init_head := fun _ _ => (ex_head, tt);
     Opt := unit;
     AdamW := fun _ _ => tt;
     backward_step := fun _ m _ _ => (m, tt);
     triplet_loss := fun _ _ _ _ => 0%R;
     db := database;
     use_vec34 := false;
     OUT_DIR := "checkpoints";
     WEAK_MARGIN := (/ 10)%R;
     WEAK_WEIGHT := (/ 2)%R |}.

Definition ex_world (database : string -> string -> list Row)
  : World (env := ex_setting database) :=
  @mkWorld (ex_setting database) ∅ 0%nat tt [].

(** Two epochs in batches of two on the table of dimension 2. *)
Definition ex_train (database : string -> string -> list Row)
  : M (World (env := ex_setting database)) unit :=
  train (env := ex_setting database)
        "animal_embeddings_2" 2 2 (/ 5)%R 2 (/ 1000)%R 1 0 5.

End Trainer.

(** ** triplet_similarity.py: the retriever *)

Module Retriever.

Import Numeric Py Head.

Local Open Scope Z_scope.

(** Exceptions without state: [let! x := c in k]. *)
Definition obind {A B} (c : outcome A) (k : A -> outcome B) : outcome B :=
  match c with
  | Ret a => k a
  | Raise e => Raise e
  | Diverge => Diverge
  end.

Notation "'let!' x ':=' c 'in' k" := (obind c (fun x => k))
  (at level 10, x name, c at level 100, k at level 200).

Record DbEmbedding := mkDbEmbedding {
  desertion_no : string;
  side : string;
  vec : list R;
  image_url : string;
  up_kind_cd : string;
  kind_nm : string;
  sex_cd : string;
  age : string;
  neuter_yn : string;
  care_nm : string;
  care_tel : string;
  care_addr : string;
  notice_sdt : string;
  special_mark : string
}.

(** [DetectionResult], without the crop: the crop only travels from the
    cropper to the embedder. *)
Record DetectionResult := mkDetectionResult {
  bbox : Z * Z * Z * Z;
  conf : R;
  cls_id : Z
}.

(** One row of the SELECT of [load_embeddings]; [v1]..[v4] are the four
    vector columns as [_parse_vec] reads them (a NULL column reads as the
    empty array). *)
Record DbRow := mkDbRow {
  row_desertion_no : string;
  row_embedding_side : string;
  v1 : list R;
  v2 : list R;
  v3 : list R;
  v4 : list R;
  row_image_url : option string;
  row_up_kind_cd : string;
  row_kind_nm : string;
  row_sex_cd : string;
  row_age : string;
  row_neuter_yn : string;
  row_care_nm : string;
  row_care_tel : string;
  row_care_addr : string;
  row_notice_sdt : string;
  row_special_mark : string
}.

(** The JSON printed by [main]. *)
Record QueryBbox := mkQueryBbox {
  x1 : Z; y1 : Z; x2 : Z; y2 : Z; qb_conf : R
}.

Record ResultEntry := mkResultEntry {
  r_desertion_no : string;
  r_side : string;
  r_similarity : R;
  r_image_url : string;
  r_up_kind_cd : string;
  r_kind_nm : string;
  r_sex_cd : string;
  r_age : string;
  r_neuter_yn : string;
  r_care_nm : string;
  r_care_tel : string;
  r_care_addr : string;
  r_notice_sdt : string;
  r_special_mark : string
}.

Record Payload := mkPayload {
  query_bbox : QueryBbox;
  results : list ResultEntry
}.

(** Everything [main] reads from outside: the file system, the detector, the
    embedder, the environment variables and the database. *)
Record Env := mkEnv {
  image_is_file : bool;
  checkpoint : option TinyHead;
  detection : DetectionResult;
  query_embedding : list R;
  SEARCH_GENDER : string;
  SEARCH_LOST_DATE : string;
  SEARCH_ANIMAL_TYPE : string;
  db_rows : list DbRow
}.

(** [l[:k]] *)
Definition py_slice_to {A} (l : list A) (k : Z) : list A :=
  if 0 <=? k then take (Z.to_nat k) l
  else take (Z.to_nat (Z.of_nat (length l) + k)) l.

(** [sorted(l, key=key, reverse=True)]: descending by key, items with equal
    keys in their original order. *)
Section Sort.

Context {A : Type} (key : A -> R).

Fixpoint insert_desc (x : A) (l : list A) : list A :=
  match l with
  | [] => [x]
  | y :: l' =>
      if Rlt_dec (key x) (key y) then y :: insert_desc x l' else x :: y :: l'
  end.

Definition sort_desc (l : list A) : list A := foldr insert_desc [] l.

End Sort.

(** [torch.topk(scores, k=k)] on a one-dimensional tensor, the indices only:
    [k] must lie between 0 and the number of scores.  Of equal scores the
    model takes the one of lower index first; torch does not say which it
    takes, and nothing below hangs on it. *)
Definition torch_topk (scores : list R) (k : Z) : outcome (list nat) :=
  if (k <? 0) || (Z.of_nat (length scores) <? k) then
    Raise (RuntimeError "selected index k out of range")
  else
    Ret (take (Z.to_nat k)
              (map snd (sort_desc fst (zip scores (seq 0 (length scores)))))).

(** [np.mean(valid, axis=0)] *)
Fixpoint vec_sum (vs : list (list R)) : list R :=
  match vs with
  | [] => []
  | [v] => v
  | v :: rest => zip_with Rplus v (vec_sum rest)
  end.

Definition np_mean (vs : list (list R)) : list R :=
  map (fun x => (x / INR (length vs))%R) (vec_sum vs).

(** [_mean_valid_vectors] *)
Definition mean_valid_vectors (vectors : list (list R)) (dim : Z) : list R :=
  match List.filter (fun v => Z.of_nat (length v) =? dim) vectors with
  | [] => []
  | valid => np_mean valid
  end.

(** One turn of the stage-2 loop, without its batching: the similarity of a
    shortlisted item to the transformed query. *)
Definition rerank_one (head : TinyHead) (query_t : list R) (e : DbEmbedding)
  : R * DbEmbedding :=
  (dot (forward head (F_normalize (vec e))) query_t, e).

(** One turn of the deduplication loop. *)
Definition dedup_step (best : list (string * (R * DbEmbedding)))
    (x : R * DbEmbedding) : list (string * (R * DbEmbedding)) :=
  match dict_get best (desertion_no x.2) with
  | None => dict_set best (desertion_no x.2) x
  | Some prev =>
      if Rlt_dec prev.1 x.1 then dict_set best (desertion_no x.2) x else best
  end.

Definition best_per_id (scores : list (R * DbEmbedding))
  : list (string * (R * DbEmbedding)) :=
  foldl dedup_step [] scores.

(** Lines 326-334: sort, deduplicate, sort again, keep the first [topk]. *)
Definition dedup_topk (scores : list (R * DbEmbedding)) (topk : Z)
  : list (R * DbEmbedding) :=
  py_slice_to (sort_desc fst (dict_values (best_per_id (sort_desc fst scores)))) topk.

Definition to_result (x : R * DbEmbedding) : ResultEntry :=
  let '(sim, emb) := x in
  {| r_desertion_no := desertion_no emb; r_side := side emb; r_similarity := sim;
     r_image_url := image_url emb; r_up_kind_cd := up_kind_cd emb;
     r_kind_nm := kind_nm emb; r_sex_cd := sex_cd emb; r_age := age emb;
     r_neuter_yn := neuter_yn emb; r_care_nm := care_nm emb;
     r_care_tel := care_tel emb; r_care_addr := care_addr emb;
     r_notice_sdt := notice_sdt emb; r_special_mark := special_mark emb |}.

Definition bbox_of (d : DetectionResult) : QueryBbox :=
  let '(a, b, c, e) := bbox d in
  {| x1 := a; y1 := b; x2 := c; y2 := e; qb_conf := conf d |}.

(** The list [l] cut into consecutive slices of [size] items:
    [l[start : start + size] for start in range(0, len(l), size)]. *)
Fixpoint slices {A} (size : nat) (l : list A) (n : nat) : list (list A) :=
  match n with
  | O => []
  | S n' =>
      match l with
      | [] => []
      | _ => take size l :: slices size (drop size l) n'
      end
  end.

(** Module-level configuration, read from the environment at import
    ([EMBED_DIM], [COARSE_TOPK]), and the library functions the filters call:
    [str.lower], [str.upper], [str.strip] and
    [datetime.fromisoformat(s).date()] (as a day number; [None] when it
    raises). *)
Class Config := mkConfig {
  EMBED_DIM : Z;
  COARSE_TOPK : Z;
  str_lower : string -> string;
  str_upper : string -> string;
  str_strip : string -> string;
  fromisoformat : string -> option Z
}.

Section Main.
Context {cfg : Config}.

(** [load_embeddings]: one [DbEmbedding] per row whose mean vector has the
    configured dimension. *)
Definition load_row (row : DbRow) : option DbEmbedding :=
  let v := mean_valid_vectors [v1 row; v2 row; v3 row; v4 row] EMBED_DIM in
  if Z.of_nat (length v) =? EMBED_DIM then
    Some {| desertion_no := row_desertion_no row; side := row_embedding_side row;
            vec := v; image_url := default "" (row_image_url row);
            up_kind_cd := row_up_kind_cd row; kind_nm := row_kind_nm row;
            sex_cd := row_sex_cd row; age := row_age row;
            neuter_yn := row_neuter_yn row; care_nm := row_care_nm row;
            care_tel := row_care_tel row; care_addr := row_care_addr row;
            notice_sdt := row_notice_sdt row; special_mark := row_special_mark row |}
  else None.

Definition load_embeddings (rows : list DbRow) : list DbEmbedding :=
  omap (M := list) load_row rows.

(** [load_head]: the checkpoint must be found, and [TinyHead(EMBED_DIM)] must
    be constructible (torch refuses a negative layer size). *)
Definition load_head (env : Env) : outcome TinyHead :=
  match checkpoint env with
  | None => Raise (FileNotFoundError "Triplet head checkpoint not found")
  | Some h =>
      if EMBED_DIM <? 0
      then Raise (RuntimeError "Trying to create tensor with negative dimension")
      else Ret h
  end.

(** Lines 225-232: fit the query vector to the configured dimension. *)
Definition fit_query (query_vec : list R) : outcome (list R) :=
  if Z.of_nat (length query_vec) =? EMBED_DIM then Ret query_vec
  else if EMBED_DIM <? Z.of_nat (length query_vec)
       then Ret (py_slice_to query_vec EMBED_DIM)
       else Raise (RuntimeError
                     "Query embedding dim does not match expected EMBED_DIM").

(** Lines 235-256: the three optional filters. *)
Definition gender_filter (env : Env) : string :=
  let raw := str_lower (SEARCH_GENDER env) in
  if bool_decide (raw = "male") then "M"
  else if bool_decide (raw = "female") then "F"
  else "".

Definition lost_date (env : Env) : option Z :=
  let s := str_strip (SEARCH_LOST_DATE env) in
  if bool_decide (s = "") || bool_decide (s = "undefined") || bool_decide (s = "null")
  then None
  else fromisoformat s.

Definition animal_code (env : Env) : string :=
  let f := str_lower (str_strip (SEARCH_ANIMAL_TYPE env)) in
  if bool_decide (f = "dog") then "417000"
  else if bool_decide (f = "cat") then "422400"
  else "".

Definition nonempty (s : string) : bool := negb (bool_decide (s = "")).

(** The body of the filter loop: does [emb] reach [filtered.append]? *)
Definition keep (env : Env) (emb : DbEmbedding) : bool :=
  if nonempty (animal_code env) && negb (bool_decide (up_kind_cd emb = animal_code env))
  then false
  else if nonempty (gender_filter env)
          && negb (bool_decide (str_upper (sex_cd emb) = gender_filter env))
  then false
  else
    match lost_date env with
    | Some lost =>
        if negb (nonempty (notice_sdt emb)) then false
        else
          match fromisoformat (notice_sdt emb) with
          | None => false
          | Some notice_dt => negb (notice_dt <? lost)
          end
    | None => true
    end.

(** Lines 262-279. *)
Definition apply_filters (env : Env) (dataset : list DbEmbedding)
  : list DbEmbedding :=
  if nonempty (animal_code env) || nonempty (gender_filter env)
     || bool_decide (is_Some (lost_date env))
  then List.filter (keep env) dataset
  else dataset.

(** What the search computes on its way, kept for the statements: the
    shortlist handed from stage 1 to stage 2 and the scores of stage 2. *)
Record SearchTrace := mkSearchTrace {
  tr_shortlist : list DbEmbedding;
  tr_scores : list (R * DbEmbedding);
  tr_payload : Payload
}.

(** Stage 1, lines 305-311. *)
Definition coarse_stage (dataset : list DbEmbedding) (q : list R) (topk : Z)
  : outcome (list DbEmbedding) :=
  let base_vecs := map (fun e => F_normalize (vec e)) dataset in
  let coarse_scores := mat_vec base_vecs q in
  let topn := Z.min (Z.of_nat (length dataset)) (Z.max topk COARSE_TOPK) in
  let! topn_idx := torch_topk coarse_scores topn in
  Ret (omap (M := list) (fun i => dataset !! i) topn_idx).

(** Stage 2, lines 314-324: the shortlist is scored in batches of 512. *)
Definition rerank (head : TinyHead) (query_t : list R) (shortlist : list DbEmbedding)
  : list (R * DbEmbedding) :=
  concat (map (map (rerank_one head query_t))
              (slices 512 shortlist (length shortlist))).

(** Lines 298-364, for a dataset that is not empty. *)
Definition search (env : Env) (head : TinyHead) (query_vec : list R)
    (dataset : list DbEmbedding) (topk : Z) : outcome SearchTrace :=
  let q := F_normalize query_vec in
  let query_t := forward head q in
  let! shortlist := coarse_stage dataset q topk in
  let scores := rerank head query_t shortlist in
  Ret {| tr_shortlist := shortlist;
         tr_scores := scores;
         tr_payload := {| query_bbox := bbox_of (detection env);
                          results := map to_result (dedup_topk scores topk) |} |}.

(** [main], from the check of the image path on; with its trace. *)
Definition main_trace (env : Env) (topk : Z) : outcome SearchTrace :=
  if negb (image_is_file env) then Raise (FileNotFoundError "Image not found")
  else
    let! head := load_head env in
    let! query_vec := fit_query (query_embedding env) in
    let dataset := apply_filters env (load_embeddings (db_rows env)) in
    match dataset with
    | [] => Ret {| tr_shortlist := []; tr_scores := [];
                   tr_payload := {| query_bbox := bbox_of (detection env);
                                    results := [] |} |}
    | _ => search env head query_vec dataset topk
    end.

(** [main]: what is printed, or the exception that ends the run. *)
Definition main (env : Env) (topk : Z) : outcome Payload :=
  let! tr := main_trace env topk in Ret (tr_payload tr).
(** *** C4: deduplication *)

(** What the loop over [scores] maintains: [best] is a dictionary keyed by
    the id of the entry it stores; every stored entry has been seen; every
    entry seen is matched or beaten by the entry stored for its id. *)
Definition dedup_inv (best : list (string * (R * DbEmbedding)))
    (seen : list (R * DbEmbedding)) : Prop :=
  dict_wf best /\
  (forall k x, (k, x) ∈ best -> desertion_no x.2 = k /\ x ∈ seen) /\
  (forall x, x ∈ seen ->
     exists y, dict_get best (desertion_no x.2) = Some y /\ (x.1 <= y.1)%R).
End Main.

(** *** A small store, searched *)

Definition ex_head : TinyHead :=
  {| w1 := [[1%R; 0%R]]; b1 := [0%R]; w2 := [[1%R]]; b2 := [0%R] |}.

(** The two sides of one animal, stored with the same vector. *)
Definition ex_row (side : string) : DbRow :=
  {| row_desertion_no := "A"; row_embedding_side := side;
     v1 := [1%R; 0%R]; v2 := []; v3 := []; v4 := [];
     row_image_url := Some "a.jpg"; row_up_kind_cd := "417000";
     row_kind_nm := "dog"; row_sex_cd := "M"; row_age := "2";
     row_neuter_yn := "N"; row_care_nm := "shelter"; row_care_tel := "tel";
     row_care_addr := "addr"; row_notice_sdt := "2024-01-01";
     row_special_mark := "" |}.

Definition ex_emb (side : string) : DbEmbedding :=
  {| desertion_no := "A"; side := side; vec := np_mean [[1%R; 0%R]];
     image_url := "a.jpg"; up_kind_cd := "417000"; kind_nm := "dog";
     sex_cd := "M"; age := "2"; neuter_yn := "N"; care_nm := "shelter";
     care_tel := "tel"; care_addr := "addr"; notice_sdt := "2024-01-01";
     special_mark := "" |}.

Definition ex_env (query : list R) (rows : list DbRow) : Env :=
  {| image_is_file := true; checkpoint := Some ex_head;
     detection := {| bbox := (1, 2, 3, 4); conf := 1%R; cls_id := 16 |};
     query_embedding := query;
     SEARCH_GENDER := ""; SEARCH_LOST_DATE := ""; SEARCH_ANIMAL_TYPE := "";
     db_rows := rows |}.

(** [EMBED_DIM = 2] and a coarse pool of [pool] entries, with string
    functions that leave these strings as they are and a date parser that is
    not reached. *)
Definition ex_config (pool : Z) : Config :=
  {| EMBED_DIM := 2; COARSE_TOPK := pool;
     str_lower := fun s => s; str_upper := fun s => s; str_strip := fun s => s;
     fromisoformat := fun _ => None |}.

Definition ex_main : Env -> Z -> outcome Payload := main (cfg := ex_config 500).

Definition ex_sim : R :=
  dot (forward ex_head (F_normalize (np_mean [[1%R; 0%R]])))
      (forward ex_head (F_normalize [1%R; 0%R])).

Definition ex_payload : Payload :=
  {| query_bbox := {| x1 := 1; y1 := 2; x2 := 3; y2 := 4; qb_conf := 1%R |};
     results := [to_result (ex_sim, ex_emb "popfile1")] |}.

End Retriever.

(** ** prepare_triplet_data.py: notions about the [Projector] *)

Module ProjectorNotions.
Import Numeric Projection.

(** The cache of a [Projector] is well-shaped when the matrix stored for
    [(base_dim, target_dim)] has [target_dim] rows of [base_dim] entries. *)
Definition Projector_wf (P : Projector) : Prop :=
  forall key mat, cache P !! key = Some mat ->
    length mat = key.2 /\ Forall (fun row => length row = key.1) mat.

End ProjectorNotions.

(** ** train_triplet.py: notions for the statements on grouping and passes *)

Module TrainingNotions.
Import Numeric Py Sampler Head Trainer.

(** Does the row contribute a vector, that is, does it get past
    [if not vecs: continue]? *)
Definition has_vecs (use_vec34 : bool) (r : Row) : bool :=
  match row_vecs use_vec34 r with [] => false | _ => true end.

(** The rows of entity [k] that contribute a vector, in the order fetched. *)
Definition rows_of (use_vec34 : bool) (k : string) (rows : list Row) : list Row :=
  List.filter (fun r => bool_decide (Sampler.desertion_no r = k) && has_vecs use_vec34 r)
              rows.

(** The position in [self.ids] of the anchor of the sample of index [idx]:
    [idx % len(self.ids)]. *)
Definition anchor_position (ds : TripletDataset) (idx : Z) : nat :=
  Z.to_nat (idx mod Z.of_nat (length (ids ds))).

(** The indices of [range(len(ds))], one pass over the dataset, whose sample
    has [did] as anchor. *)
Definition anchor_indices (ds : TripletDataset) (did : string) : list nat :=
  List.filter
    (fun i => bool_decide (ids ds !! anchor_position ds (Z.of_nat i) = Some did))
    (seq 0 (Z.to_nat (TripletDataset_len ds))).

End TrainingNotions.

(** ** train_triplet.py: [_parse_dims] and the script body *)

Module Script.

Import Numeric Py Sampler Head Trainer.

Local Open Scope py_scope.

Local Open Scope Z_scope.

(** [s.split(",")]: the pieces between the commas, empty ones included;
    a string without a comma is its own single piece. *)
Fixpoint split_comma (s : string) : list string :=
  match s with
  | EmptyString => [EmptyString]
  | String c rest =>
      if Ascii.eqb c ","%char then EmptyString :: split_comma rest
      else match split_comma rest with
           | part :: parts => String c part :: parts
           | [] => [String c EmptyString]
           end
  end.

(** The library functions [_parse_dims] calls: [str.strip] and [int], the
    latter [None] when it raises [ValueError]. *)
Class Text := mkText {
  str_strip : string -> string;
  py_int : string -> option Z
}.

(** The variables of the loop of [_parse_dims], and the parts reported by
    [print(f"skip invalid dim '{part}'")], in the order printed. *)
Record Parsed := mkParsed {
  dims : list Z;
  seen : gset Z;
  skipped : list string
}.

Section Parse.

Context {txt : Text}.

(** One turn of [for part in raw.split(",")]. *)
Definition parse_part (st : Parsed) (part0 : string) : Parsed :=
  let part := str_strip part0 in
  if bool_decide (part = "") then st
  else
    match py_int part with
    | None => {| dims := dims st; seen := seen st; skipped := skipped st ++ [part] |}
    | Some dim_val =>
        if bool_decide (dim_val ∈ seen st) then st
        else {| dims := dims st ++ [dim_val]; seen := {[dim_val]} ∪ seen st;
                skipped := skipped st |}
    end.

(** [_parse_dims(raw)] *)
Definition parse_dims (raw : string) : Parsed :=
  foldl parse_part {| dims := []; seen := ∅; skipped := [] |} (split_comma raw).

(** What the loop maintains, after the parts [done]: [dims] has no
    duplicate and lists what [seen] holds, namely the values of the parts
    that parse; [skipped] lists the parts that do not. *)
Definition parse_inv (done : list string) (st : Parsed) : Prop :=
  NoDup (dims st) /\
  (forall d, d ∈ seen st <-> d ∈ dims st) /\
  (forall d, d ∈ dims st <->
     exists part, part ∈ done /\ str_strip part <> "" /\
                  py_int (str_strip part) = Some d) /\
  (forall p, p ∈ skipped st <->
     exists part, part ∈ done /\ p = str_strip part /\ p <> "" /\ py_int p = None).

End Parse.

(** The module-level settings the script body passes to [train]. *)
Class Defaults := mkDefaults {
  DIM_LIST : string;
  DEFAULT_TABLE : string;
  DEFAULT_EMBED_DIM : Z;
  DEFAULT_BATCH_SIZE : Z;
  DEFAULT_MARGIN : R;
  DEFAULT_EPOCHS : Z;
  DEFAULT_LR : R;
  DEFAULT_LENGTH_MULT : Z;
  DEFAULT_NUM_WORKERS : Z
}.

(** The lines the script body prints itself. *)
Inductive Line : Type :=
| LineSkip (part : string)
| LineBanner (d : Z).

Section Body.

Context {env : Setting} {txt : Text} {dflt : Defaults}.

(** The state of a run of the script: the world [train] works in, and the
    script's own lines, each with the number of lines [train] had printed
    before it, which fixes its place in the output. *)
Record Process := mkProcess {
  world : World;
  own : list (nat * Line)
}.

Definition say (l : Line) : M Process unit :=
  modify (fun s => {| world := world s;
                      own := own s ++ [(length (stdout (world s)), l)] |}).

Fixpoint say_all (ls : list Line) : M Process unit :=
  match ls with
  | [] => ret tt
  | l :: rest => let* _ := say l in say_all rest
  end.

(** Run a computation of [train] in the world of the process. *)
Definition in_world {A} (c : M World A) : M Process A :=
  fun s => let '(o, w') := c (world s) in (o, {| world := w'; own := own s |}).

(** [train(table=table, embed_dim=d, batch_size=DEFAULT_BATCH_SIZE, ...)] *)
Definition run_train (table : string) (d : Z) (fuel : nat) : M Process unit :=
  in_world (train table d DEFAULT_BATCH_SIZE DEFAULT_MARGIN DEFAULT_EPOCHS DEFAULT_LR
                  DEFAULT_LENGTH_MULT DEFAULT_NUM_WORKERS fuel).

(** [f"animal_embeddings_{d}"] *)
Definition table_of (d : Z) : string := "animal_embeddings_" +:+ pretty d.

(** [for d in dims: ...], lines 264-276. *)
Fixpoint train_dims (ds : list Z) (fuel : nat) : M Process unit :=
  match ds with
  | [] => ret tt
  | d :: rest =>
      let* _ := say (LineBanner d) in
      let* _ := run_train (table_of d) d fuel in
      train_dims rest fuel
  end.

(** The body under [if __name__ == "__main__":]. *)
Definition script_main (fuel : nat) : M Process unit :=
  let parsed := parse_dims DIM_LIST in
  let* _ := say_all (map LineSkip (skipped parsed)) in
  match dims parsed with
  | [] => run_train DEFAULT_TABLE DEFAULT_EMBED_DIM fuel
  | ds => train_dims ds fuel
  end.

(** The calls of [train] the script body makes when none of them fails:
    one per parsed dimension, or the single default one. *)
Definition planned : list (string * Z) :=
  match dims (parse_dims DIM_LIST) with
  | [] => [(DEFAULT_TABLE, DEFAULT_EMBED_DIM)]
  | ds => map (fun d => (table_of d, d)) ds
  end.

End Body.

(** *** A small run *)

(** [int] on the two strings of the example, [strip] on strings without
    blanks. *)
Definition ex_text : Text :=
  {| str_strip := fun s => s;
     py_int := fun s => if bool_decide (s = "2") then Some 2 else None |}.

Definition ex_defaults : Defaults :=
  {| DIM_LIST := "2,x,2"; DEFAULT_TABLE := "animal_embeddings_1024";
     DEFAULT_EMBED_DIM := 1024; DEFAULT_BATCH_SIZE := 2; DEFAULT_MARGIN := (/ 5)%R;
     DEFAULT_EPOCHS := 2; DEFAULT_LR := (/ 1000)%R; DEFAULT_LENGTH_MULT := 1;
     DEFAULT_NUM_WORKERS := 0 |}.

Definition ex_process : Process (env := ex_setting ex_db) :=
  {| world := ex_world ex_db; own := [] |}.

Definition ex_script : M (Process (env := ex_setting ex_db)) unit :=
  script_main (env := ex_setting ex_db) (txt := ex_text) (dflt := ex_defaults) 5.

End Script.

(** ** advanced_embedding_pipeline.py: [YoloCropper.detect_best_crop] *)

Module Detector.

Import Py Retriever.

Local Open Scope Z_scope.

(** [ALLOWED_CLASSES = {15, 16}]: cat and dog in COCO. *)
Definition ALLOWED_CLASSES : list Z := [15; 16].

(** [int(x)] of a float: the integer part, rounding toward zero. *)
Definition int_of_float (x : R) : Z :=
  if Rlt_dec x 0 then - Int_part (- x) else Int_part x.

(** One box of a YOLO result: [box.cls.item()], [box.conf.item()],
    [box.xyxy[0]]. *)
Record Box := mkBox {
  box_cls : R;
  box_conf : R;
  box_xyxy : R * R * R * R
}.

(** Images and the model are the libraries' (PIL, ultralytics):
    [size image] is [image.size], [crop image box] is [image.crop(box)],
    [predict image] is the list of results of [self.model.predict(...)],
    each with its [boxes], which may be [None]; [None] for the whole when
    the call raises.  [BBOX_EXPANSION] is read from the environment. *)
Class Vision := mkVision {
  Image : Type;
  size : Image -> nat * nat;
  crop : Image -> Z * Z * Z * Z -> Image;
  predict : Image -> option (list (option (list Box)));
  BBOX_EXPANSION : R
}.

Section Detect.

Context {vision : Vision}.

(** Lines 122-141 of the loop body: the detection a box gives rise to, if it
    is of an allowed class and its expanded, clipped box is not empty. *)
Definition candidate (image : Image) (box : Box) : option (Image * DetectionResult) :=
  let '(width, height) := size image in
  let cls_id := int_of_float (box_cls box) in
  if negb (bool_decide (cls_id ∈ ALLOWED_CLASSES)) then None
  else
    let conf := box_conf box in
    let '(x1, y1, x2, y2) := box_xyxy box in
    let w := (x2 - x1)%R in
    let h := (y2 - y1)%R in
    let x1 := (x1 - w * BBOX_EXPANSION)%R in
    let y1 := (y1 - h * BBOX_EXPANSION)%R in
    let x2 := (x2 + w * BBOX_EXPANSION)%R in
    let y2 := (y2 + h * BBOX_EXPANSION)%R in
    let x1 := Z.max 0 (int_of_float x1) in
    let y1 := Z.max 0 (int_of_float y1) in
    let x2 := Z.min (Z.of_nat width) (int_of_float x2) in
    let y2 := Z.min (Z.of_nat height) (int_of_float y2) in
    if (x2 <=? x1) || (y2 <=? y1) then None
    else Some (crop image (x1, y1, x2, y2),
               {| bbox := (x1, y1, x2, y2); conf := conf; cls_id := cls_id |}).

(** Lines 142-143: [if best is None or conf > best.conf: best = ...] *)
Definition better (best : option (Image * DetectionResult))
    (c : Image * DetectionResult) : option (Image * DetectionResult) :=
  match best with
  | None => Some c
  | Some b => if Rlt_dec (conf b.2) (conf c.2) then Some c else best
  end.

(** One turn of [for box in boxes]. *)
Definition consider (image : Image) (best : option (Image * DetectionResult))
    (box : Box) : option (Image * DetectionResult) :=
  match candidate image box with
  | None => best
  | Some c => better best c
  end.

(** One turn of [for r in results]. *)
Definition consider_result (image : Image) (best : option (Image * DetectionResult))
    (r : option (list Box)) : option (Image * DetectionResult) :=
  match r with
  | None => best
  | Some boxes => foldl (consider image) best boxes
  end.

(** The detection returned when no box qualifies: the whole image. *)
Definition whole_image (image : Image) : Image * DetectionResult :=
  let '(width, height) := size image in
  (image, {| bbox := (0, 0, Z.of_nat width, Z.of_nat height); conf := 0%R;
             cls_id := -1 |}).

(** [detect_best_crop], from the results of the model on: the crop and the
    rest of the [DetectionResult]. *)
Definition best_crop (image : Image) (results : list (option (list Box)))
  : Image * DetectionResult :=
  match foldl (consider_result image) None results with
  | None => whole_image image
  | Some best => best
  end.

(** [YoloCropper.detect_best_crop] *)
Definition detect_best_crop (image : Image) : outcome (Image * DetectionResult) :=
  match predict image with
  | None => Raise (RuntimeError "predict")
  | Some results => Ret (best_crop image results)
  end.

(** The detections the boxes of the results give rise to, in the order the
    loops meet them. *)
Definition candidates (image : Image) (results : list (option (list Box)))
  : list (Image * DetectionResult) :=
  omap (M := list) (candidate image) (concat (map (default []) results)).

End Detect.

(** *** A small detection *)

(** Images are numbers here, all of 4 by 4 pixels; the model reports what
    [results] says, and boxes are not expanded. *)
Definition ex_vision (results : option (list (option (list Box)))) : Vision :=
  {| Image := nat; size := fun _ => (4%nat, 4%nat); crop := fun img _ => img;
     predict := fun _ => results; BBOX_EXPANSION := 0%R |}.

(** A dog found at (1, 1)-(3, 3) with confidence 1/2. *)
Definition ex_box : Box :=
  {| box_cls := 16%R; box_conf := (/ 2)%R; box_xyxy := (1%R, 1%R, 3%R, 3%R) |}.

End Detector.

(** ** triplet_similarity.py: [resolve_ckpt_path] *)

Module Checkpoints.

Import Py Retriever.

Local Open Scope Z_scope.

(** [sorted(matches)] on strings: ascending, code point by code point. *)
Fixpoint insert_asc (x : string) (l : list string) : list string :=
  match l with
  | [] => [x]
  | y :: l' => if String.ltb y x then y :: insert_asc x l' else x :: y :: l'
  end.

Definition sorted (l : list string) : list string := foldr insert_asc [] l.

(** What [resolve_ckpt_path] asks the file system: [os.path.exists] and
    [glob.glob]. *)
Record Files := mkFiles {
  path_exists : string -> bool;
  glob : string -> list string
}.

(** The files of a store of checkpoints such as [train] writes, with any
    [glob]. *)
Definition files_of {A} (store : gmap string A) (g : string -> list string) : Files :=
  {| path_exists := fun p => bool_decide (is_Some (store !! p)); glob := g |}.

Section Resolve.

Context {cfg : Config}.

(** The default of [CKPT_PATH]: [f"checkpoints/triplet_head_{EMBED_DIM}.pt"]. *)
Definition default_ckpt_path : string :=
  "checkpoints/triplet_head_" +:+ pretty EMBED_DIM +:+ ".pt".

(** [f"checkpoints/triplet_head_{EMBED_DIM}*.pt"] *)
Definition search_pattern : string :=
  "checkpoints/triplet_head_" +:+ pretty EMBED_DIM +:+ "*.pt".

(** [resolve_ckpt_path], with [CKPT_PATH] as read from the environment: the
    path returned or the exception raised, and the fallback the warning on
    stderr names, if one is printed. *)
Definition resolve_ckpt_path (CKPT_PATH : string) (files : Files)
  : outcome string * option string :=
  if nonempty CKPT_PATH && path_exists files CKPT_PATH then (Ret CKPT_PATH, None)
  else
    match sorted (glob files search_pattern) with
    | fallback :: _ => (Ret fallback, Some fallback)
    | [] => (Raise (FileNotFoundError "Triplet head checkpoint not found"), None)
    end.

End Resolve.

End Checkpoints.

(** ** prepare_triplet_data.py: the dimensions, the downloads, the rows *)

Module Prepare.

Import Numeric Py Projection Detector Script.

Local Open Scope py_scope.

Local Open Scope Z_scope.



(** How [requests.get(url)] followed by [Image.open(...).convert("RGB")]
    ends: the request raises, or it answers with a status code and a body
    that decodes to an image or fails to. *)
Inductive Response (I : Type) : Type :=
| RequestFailed
| Status (code : Z) (decoded : option I).

Arguments RequestFailed {I}.

Arguments Status {I} code decoded.

(** One row handed to [upsert_rows]. *)
Record SaveRow := mkSaveRow {
  sr_desertion_no : string;
  sr_side : string;
  sr_split : option string;
  sr_vector1 : option string;
  sr_vector2 : option string;
  sr_vector3 : option string;
  sr_vector4 : option string
}.

(** What [process_dimension] prints and sends to the database. *)
Inductive Out : Type :=
| PrintNoImages (dim : Z)
| PrintStart (dim total : Z)
| PrintProgress (dim processed total : Z)
| PrintCompleted (dim processed total : Z)
| Upsert (table : string) (rows : list SaveRow).

(** One row of [load_animals]. *)
Record Animal := mkAnimal {
  a_desertion_no : string;
  a_popfile1 : option string;
  a_popfile2 : option string;
  a_split : option string
}.

(** The libraries and the environment: the detector and the images, the
    variates of the projector's generator, the network ([http_get url k] is
    the outcome of the [k]-th request of the run, when it asks for [url]),
    [ImageOps.mirror], [DinoEmbedder.embed_batch], the formatting
    [f"{float(x):.6f}"] of [vec_to_pg], and the two settings [BATCH_SIZE]
    and [EMBED_TABLE_PREFIX]. *)
Class Pipeline := mkPipeline {
  pipeline_vision :: Vision;
  normals : nat -> R;
  http_get : string -> nat -> Response Image;
  mirror : Image -> Image;
  embed_batch : list Image -> list (list R);
  format_float : R -> string;
  BATCH_SIZE : Z;
  EMBED_TABLE_PREFIX : string
}.

(** What a run works on: the module-level [projector], the requests made
    and the naps taken so far, and the output. *)
Record Run := mkRun {
  projector : Projector;
  requests : nat;
  slept : list R;
  output : list Out
}.

(** The local variables of the loop of [process_dimension]. *)
Record Locals := mkLocals {
  to_save : list SaveRow;
  processed : Z;
  last_log : Z
}.

Section Process.

Context {pipe : Pipeline}.

Definition request (url : string) : M Run (Response Image) :=
  fun s => (Ret (http_get url (requests s)),
            {| projector := projector s; requests := S (requests s);
               slept := slept s; output := output s |}).

(** [time.sleep(t)] *)
Definition sleep (t : R) : M Run unit :=
  modify (fun s => {| projector := projector s; requests := requests s;
                      slept := slept s ++ [t]; output := output s |}).

Definition emit (e : Out) : M Run unit :=
  modify (fun s => {| projector := projector s; requests := requests s;
                      slept := slept s; output := output s ++ [e] |}).

(** [MAX_RETRIES = 2] *)
Definition MAX_RETRIES : nat := 2.

(** The turns of [for attempt in range(MAX_RETRIES + 1)] from [attempt] on,
    [remaining] of them.  A status other than 200 goes on to the next turn
    at once; an exception, of the request or of the decoding, naps for
    [0.5 * (attempt + 1)] seconds first. *)
Fixpoint fetch_attempts (url : string) (attempt remaining : nat)
  : M Run (option Image) :=
  match remaining with
  | O => ret None
  | S remaining' =>
      let* resp := request url in
      match resp with
      | Status code decoded =>
          if negb (code =? 200) then fetch_attempts url (S attempt) remaining'
          else
            match decoded with
            | Some img => ret (Some img)
            | None =>
                let* _ := sleep (/ 2 * INR (attempt + 1))%R in
                fetch_attempts url (S attempt) remaining'
            end
      | RequestFailed =>
          let* _ := sleep (/ 2 * INR (attempt + 1))%R in
          fetch_attempts url (S attempt) remaining'
      end
  end.

(** [fetch_image] *)
Definition fetch_image (url : string) : M Run (option Image) :=
  fetch_attempts url 0 (MAX_RETRIES + 1).

(** [augment_image] *)
Definition augment_image (img : Image) : list Image := [img; mirror img].

(** [vec_to_pg] *)
Definition vec_to_pg (vec : list R) : string :=
  "[" +:+ String.concat "," (map format_float vec) +:+ "]".

(** [projector.project(v, dim)] on the module-level projector.  A negative
    [dim] is refused by numpy when the matrix is to be drawn.  Where the
    model of [project] reports a division by zero the run is stopped
    (numpy would go on with entries that are not numbers). *)
Definition project_one (dim : Z) (v : list R) : M Run (list R) :=
  if dim <? 0 then raise (ValueError "negative dimensions are not allowed")
  else
    fun s =>
      let '(o, P') := project normals (projector s) v (Z.to_nat dim) in
      let s' := {| projector := P'; requests := requests s; slept := slept s;
                   output := output s |} in
      match o with
      | Some out => (Ret out, s')
      | None => (Raise ZeroDivisionError, s')
      end.

(** [[projector.project(v, dim) for v in vecs]] *)
Fixpoint project_all (dim : Z) (vecs : list (list R)) : M Run (list (list R)) :=
  match vecs with
  | [] => ret []
  | v :: rest =>
      let* out := project_one dim v in
      let* outs := project_all dim rest in
      ret (out :: outs)
  end.

(** [while len(vec_strings) < 4: vec_strings.append(None)] *)
Definition pad4 (vec_strings : list (option string)) : list (option string) :=
  vec_strings ++ replicate (4 - length vec_strings) None.

(** Lines 340-367 without the counters: from the downloaded image to the row
    to save. *)
Definition build_row (dim : Z) (desertion_no side : string) (split : option string)
    (img : Image) : M Run SaveRow :=
  let img := match detect_best_crop img with
             | Ret (c, _) => c
             | _ => img
             end in
  let augmented := if bool_decide (side = "popfile2") then [img]
                   else augment_image img in
  let vecs_1024 := embed_batch augmented in
  let* projected := project_all dim vecs_1024 in
  let vec_strings := pad4 (map (fun v => Some (vec_to_pg v)) projected) in
  ret {| sr_desertion_no := desertion_no; sr_side := side; sr_split := split;
         sr_vector1 := nth 0 vec_strings None;
         sr_vector2 := nth 1 vec_strings None;
         sr_vector3 := nth 2 vec_strings None;
         sr_vector4 := nth 3 vec_strings None |}.

(** [upsert_rows(conn, table, rows)]: nothing is sent for no rows. *)
Definition upsert_rows (table : string) (rows : list SaveRow) : M Run unit :=
  match rows with
  | [] => ret tt
  | _ => emit (Upsert table rows)
  end.

(** Lines 347 and 357-373: count the side, queue its row, flush a full
    queue, report every 50 sides. *)
Definition record (dim : Z) (table : string) (total : Z) (loc : Locals)
    (row : SaveRow) : M Run Locals :=
  let processed' := processed loc + 1 in
  let queue := to_save loc ++ [row] in
  let* queue' :=
    (if BATCH_SIZE <=? Z.of_nat (length queue)
     then let* _ := upsert_rows table queue in ret []
     else ret queue) in
  let* last_log' :=
    (if 50 <=? processed' - last_log loc
     then let* _ := emit (PrintProgress dim processed' total) in ret processed'
     else ret (last_log loc)) in
  ret {| to_save := queue'; processed := processed'; last_log := last_log' |}.

(** [if not url]: a missing or empty URL. *)
Definition has_url (url : option string) : bool :=
  match url with
  | Some u => negb (bool_decide (u = ""))
  | None => false
  end.

(** One turn of [for side, url in (("popfile1", url1), ("popfile2", url2))]. *)
Definition process_side (dim : Z) (table : string) (total : Z)
    (desertion_no : string) (split : option string) (loc : Locals)
    (side : string) (url : option string) : M Run Locals :=
  if negb (has_url url) then ret loc
  else
    let* fetched := fetch_image (default "" url) in
    match fetched with
    | None => ret loc
    | Some img =>
        let* row := build_row dim desertion_no side split img in
        record dim table total loc row
    end.

(** One turn of [for desertion_no, url1, url2, split in animals]. *)
Definition process_animal (dim : Z) (table : string) (total : Z) (loc : Locals)
    (a : Animal) : M Run Locals :=
  let* loc1 := process_side dim table total (a_desertion_no a) (a_split a) loc
                            "popfile1" (a_popfile1 a) in
  process_side dim table total (a_desertion_no a) (a_split a) loc1
               "popfile2" (a_popfile2 a).

Fixpoint process_animals (dim : Z) (table : string) (total : Z) (loc : Locals)
    (animals : list Animal) : M Run Locals :=
  match animals with
  | [] => ret loc
  | a :: rest =>
      let* loc' := process_animal dim table total loc a in
      process_animals dim table total loc' rest
  end.

(** [sum((1 if url1 else 0) + (1 if url2 else 0) for _, url1, url2, _ in animals)] *)
Definition total_sides (animals : list Animal) : Z :=
  foldr (fun a acc =>
           (if has_url (a_popfile1 a) then 1 else 0)
           + (if has_url (a_popfile2 a) then 1 else 0) + acc)
        0 animals.

(** [f"{EMBED_TABLE_PREFIX}_{dim}"] *)
Definition table_name (dim : Z) : string := EMBED_TABLE_PREFIX +:+ "_" +:+ pretty dim.

(** [process_dimension(conn, dim, animals, embedder)] *)
Definition process_dimension (dim : Z) (animals : list Animal) : M Run unit :=
  let table := table_name dim in
  let total := total_sides animals in
  if total =? 0 then emit (PrintNoImages dim)
  else
    let* _ := emit (PrintStart dim total) in
    let* loc := process_animals dim table total
                  {| to_save := []; processed := 0; last_log := 0 |} animals in
    let* _ := upsert_rows table (to_save loc) in
    emit (PrintCompleted dim (processed loc) total).

(** *** For the statements *)

(** The sides with a URL, in the order the loops visit them. *)
Definition sides (animals : list Animal) : list (string * string) :=
  concat (map (fun a =>
                 (if has_url (a_popfile1 a) then [(a_desertion_no a, "popfile1")] else [])
                 ++ (if has_url (a_popfile2 a) then [(a_desertion_no a, "popfile2")]
                     else []))
              animals).

(** The upper bound of the naps of the turns from [attempt] on. *)
Fixpoint nap_bound (attempt remaining : nat) : R :=
  match remaining with
  | O => 0%R
  | S remaining' => (/ 2 * INR (attempt + 1) + nap_bound (S attempt) remaining')%R
  end.

(** What the table name of an output event is, if it has one. *)
Definition to_table (table : string) (e : Out) : Prop :=
  match e with Upsert t _ => t = table | _ => True end.

Definition row_key (r : SaveRow) : string * string := (sr_desertion_no r, sr_side r).

(** The batches of rows sent to the database in an output, in order. *)
Definition batches_of (out : list Out) : list (list SaveRow) :=
  omap (M := list)
       (fun e => match e with Upsert _ rows => Some rows | _ => None end) out.

(** The size of a full batch: [BATCH_SIZE], and 1 when that is not
    positive, as then every row is sent on its own. *)
Definition full_batch : Z := Z.max 1 BATCH_SIZE.

(** What the loop maintains, with [out] the output since the start of
    [process_dimension], [visited] the sides with a URL met so far and [Q]
    a property of the rows built: every batch sent went to the table and is
    a full one; the queue is shorter than a full batch; the counter counts
    the rows sent or queued; these rows are for sides visited, in their
    order, and have the property. *)
Definition loop_inv (Q : SaveRow -> Prop) (dim : Z) (visited : list (string * string))
    (out : list Out) (loc : Locals) : Prop :=
  Forall (to_table (table_name dim)) out /\
  Forall (fun b => Z.of_nat (length b) = full_batch) (batches_of out) /\
  Z.of_nat (length (to_save loc)) < full_batch /\
  processed loc = Z.of_nat (length (concat (batches_of out) ++ to_save loc)) /\
  map row_key (concat (batches_of out) ++ to_save loc) `sublist_of` visited /\
  Forall Q (concat (batches_of out) ++ to_save loc).

(** The vectors a row of a side holds when the embedder returns one vector
    per image: two for popfile1, the image and its mirror image, one for
    popfile2. *)
Definition row_shape (r : SaveRow) : Prop :=
  is_Some (sr_vector1 r) /\ sr_vector3 r = None /\ sr_vector4 r = None /\
  (sr_side r = "popfile2" -> sr_vector2 r = None) /\
  (sr_side r <> "popfile2" -> is_Some (sr_vector2 r)).

End Process.

(** *** A small run *)

(** The detector finds nothing, so the whole image is kept; every URL but
    ["gone"] answers 200 at once; the embedder returns one vector of two
    entries per image. *)
Definition ex_pipeline : Pipeline :=
  {| pipeline_vision := ex_vision (Some []);
     normals := sample_normals;
     http_get := fun url _ => if bool_decide (url = "gone") then RequestFailed
                              else Status 200 (Some 7%nat);
     mirror := fun img => img;
     embed_batch := fun imgs => map (fun _ => [1%R; 0%R]) imgs;
     format_float := fun _ => "0.000000";
     BATCH_SIZE := 2;
     EMBED_TABLE_PREFIX := "animal_embeddings_new" |}.

Definition ex_animals : list Animal :=
  [ {| a_desertion_no := "A"; a_popfile1 := Some "a1"; a_popfile2 := Some "a2";
       a_split := Some "train" |};
    {| a_desertion_no := "B"; a_popfile1 := Some "gone"; a_popfile2 := None;
       a_split := Some "train" |};
    {| a_desertion_no := "C"; a_popfile1 := Some "c1"; a_popfile2 := Some "";
       a_split := None |} ].

Definition ex_run : Run :=
  {| projector := Projector_init; requests := 0; slept := []; output := [] |}.

End Prepare.

(** * Part II: what the model does *)

(** ** Vectors *)

Module NumericFacts.
Import Numeric.
Local Open Scope R_scope.

Lemma dot_self_nonneg (v : list R) : 0 <= dot v v.
Proof.
  induction v as [|x v IH]; simpl; [lra|].
  pose proof (Rle_0_sqr x) as Hx. unfold Rsqr in Hx. lra.
Qed.

Lemma norm_nonneg (v : list R) : 0 <= norm v.
Proof. apply sqrt_pos. Qed.

Lemma dot_div (u v : list R) (d : R) :
  d <> 0 ->
  dot (map (fun x => x / d) u) (map (fun x => x / d) v) = dot u v / (d * d).
Proof.
  intros Hd. revert v.
  induction u as [|x u IH]; intros [|y v]; simpl;
    try (field; exact Hd).
  rewrite IH. field. exact Hd.
Qed.

Lemma norm_div (v : list R) (d : R) :
  0 < d -> norm (map (fun x => x / d) v) = norm v / d.
Proof.
  intros Hd. unfold norm.
  rewrite dot_div by lra.
  rewrite sqrt_div_alt by nra.
  rewrite sqrt_square by lra. reflexivity.
Qed.

Lemma np_divide_nonzero (v : list R) (d : R) :
  d <> 0 -> np_divide v d = Some (map (fun x => x / d) v).
Proof.
  intros Hd. unfold np_divide. destruct (Req_dec_T d 0); [contradiction|reflexivity].
Qed.

Lemma map_div_inj (u v : list R) (d : R) :
  d <> 0 -> map (fun x => x / d) u = map (fun x => x / d) v -> u = v.
Proof.
  intros Hd. revert v.
  induction u as [|x u IH]; intros [|y v] H; simpl in H; try discriminate; [reflexivity|].
  injection H as Hxy Huv. f_equal; [|apply IH; exact Huv].
  apply (Rmult_eq_reg_r (/ d)); [exact Hxy|].
  apply Rinv_neq_0_compat. exact Hd.
Qed.

(** Dividing a row by its norm plus a positive constant loses nothing: the
    row can be read back from the result. *)
Lemma shifted_normalize_inj (u v : list R) (e : R) :
  0 < e ->
  map (fun x => x / (norm u + e)) u = map (fun x => x / (norm v + e)) v ->
  u = v.
Proof.
  intros He H.
  pose proof (norm_nonneg u) as Hu. pose proof (norm_nonneg v) as Hv.
  assert (norm u / (norm u + e) = norm v / (norm v + e)) as Hn.
  { rewrite <- (norm_div u) by lra. rewrite <- (norm_div v) by lra.
    rewrite H. reflexivity. }
  assert (norm u = norm v) as Heq.
  { apply (Rmult_eq_compat_r ((norm u + e) * (norm v + e))) in Hn.
    field_simplify in Hn; nra. }
  rewrite Heq in H. apply map_div_inj in H; [exact H|lra].
Qed.

Lemma normalize_eps_pos : 0 < normalize_eps.
Proof. unfold normalize_eps. apply Rinv_0_lt_compat. lra. Qed.

Lemma F_normalize_length (v : list R) : length (F_normalize v) = length v.
Proof. unfold F_normalize. apply length_map. Qed.

End NumericFacts.

(** ** Effects and dictionaries *)

Module PyFacts.
Import Py.

Lemma bind_ret_inv {S A B} (c : M S A) (k : A -> M S B) (s s2 : S) (b : B) :
  bind c k s = (Ret b, s2) ->
  exists a s1, c s = (Ret a, s1) /\ k a s1 = (Ret b, s2).
Proof.
  unfold bind. destruct (c s) as [[a|e|] s1]; intros H; try discriminate.
  eauto.
Qed.

Lemma bind_ret {S A B} (c : M S A) (k : A -> M S B) (s s1 : S) (a : A) :
  c s = (Ret a, s1) -> bind c k s = k a s1.
Proof. intros H. unfold bind. rewrite H. reflexivity. Qed.

Lemma bind_raise {S A B} (c : M S A) (k : A -> M S B) (s s1 : S) (e : exn) :
  c s = (Raise e, s1) -> bind c k s = (Raise e, s1).
Proof. intros H. unfold bind. rewrite H. reflexivity. Qed.

Lemma bind_diverge {S A B} (c : M S A) (k : A -> M S B) (s s1 : S) :
  c s = (Diverge, s1) -> bind c k s = (Diverge, s1).
Proof. intros H. unfold bind. rewrite H. reflexivity. Qed.

Section Dict.
Context {K V : Type} `{EqDecision K}.

Lemma dict_get_Some_elem (d : list (K * V)) (k : K) (v : V) :
  dict_get d k = Some v -> (k, v) ∈ d.
Proof.
  induction d as [|[k' v'] d IH]; simpl; [discriminate|].
  destruct (decide (k = k')) as [->|Hne]; intros H.
  - injection H as ->. left.
  - right. apply IH. exact H.
Qed.

Lemma dict_get_None (d : list (K * V)) (k : K) :
  dict_get d k = None <-> k ∉ dict_keys d.
Proof.
  unfold dict_keys.
  induction d as [|[k' v'] d IH]; simpl.
  - split; [intros _; apply not_elem_of_nil|reflexivity].
  - destruct (decide (k = k')) as [->|Hne].
    + split; [discriminate|]. intros H. exfalso. apply H. left.
    + rewrite IH. rewrite not_elem_of_cons. tauto.
Qed.

Lemma dict_get_elem (d : list (K * V)) (k : K) (v : V) :
  dict_wf d -> (k, v) ∈ d -> dict_get d k = Some v.
Proof.
  unfold dict_wf, dict_keys.
  induction d as [|[k' v'] d IH]; simpl; intros Hwf Hin.
  - apply elem_of_nil in Hin. contradiction.
  - apply NoDup_cons in Hwf as [Hk' Hwf].
    apply elem_of_cons in Hin as [Heq|Hin].
    + injection Heq as -> ->. rewrite decide_True by reflexivity. reflexivity.
    + destruct (decide (k = k')) as [->|Hne].
      * exfalso. apply Hk'. apply list_elem_of_fmap. exists (k', v). split; [reflexivity|exact Hin].
      * apply IH; assumption.
Qed.

Lemma dict_keys_set (d : list (K * V)) (k : K) (v : V) :
  dict_keys (dict_set d k v) =
  if decide (k ∈ dict_keys d) then dict_keys d else dict_keys d ++ [k].
Proof.
  unfold dict_keys.
  induction d as [|[k' v'] d IH]; cbn [dict_set map fst].
  - destruct (decide (k ∈ [])) as [Hin|_]; [|reflexivity].
    apply elem_of_nil in Hin. contradiction.
  - destruct (decide (k = k')) as [->|Hne]; cbn [map fst].
    + destruct (decide (k' ∈ k' :: map fst d)) as [_|Hnin]; [reflexivity|].
      exfalso. apply Hnin. left.
    + rewrite IH. destruct (decide (k ∈ map fst d)) as [Hin|Hnin];
        destruct (decide (k ∈ k' :: map fst d)) as [Hin'|Hnin']; try reflexivity.
      * exfalso. apply Hnin'. right. exact Hin.
      * exfalso. apply elem_of_cons in Hin' as [?|?]; contradiction.
Qed.

Lemma dict_set_wf (d : list (K * V)) (k : K) (v : V) :
  dict_wf d -> dict_wf (dict_set d k v).
Proof.
  unfold dict_wf. intros Hwf. rewrite dict_keys_set.
  destruct (decide (k ∈ dict_keys d)) as [Hin|Hnin]; [exact Hwf|].
  apply NoDup_app. split; [exact Hwf|]. split.
  - intros x Hx Hx'. apply list_elem_of_singleton in Hx'. subst x. contradiction.
  - apply NoDup_singleton.
Qed.

Lemma dict_get_set (d : list (K * V)) (k k' : K) (v : V) :
  dict_get (dict_set d k v) k' = if decide (k' = k) then Some v else dict_get d k'.
Proof.
  induction d as [|[k0 v0] d IH]; simpl.
  - destruct (decide (k' = k)); reflexivity.
  - destruct (decide (k = k0)) as [->|Hne]; simpl.
    + destruct (decide (k' = k0)); reflexivity.
    + destruct (decide (k' = k0)) as [->|Hne'].
      * rewrite decide_False by congruence. reflexivity.
      * exact IH.
Qed.

Lemma dict_set_elem (d : list (K * V)) (k k' : K) (v v' : V) :
  (k', v') ∈ dict_set d k v -> (k' = k /\ v' = v) \/ (k', v') ∈ d.
Proof.
  induction d as [|[k0 v0] d IH]; cbn [dict_set]; intros H.
  - apply list_elem_of_singleton in H. injection H as -> ->. tauto.
  - destruct (decide (k = k0)) as [->|Hne].
    + apply elem_of_cons in H as [H|H].
      * injection H as -> ->. tauto.
      * right. right. exact H.
    + apply elem_of_cons in H as [H|H].
      * right. rewrite H. left.
      * apply IH in H as [H|H]; [tauto|]. right. right. exact H.
Qed.

Lemma dict_filter_wf (P : K * V -> bool) (d : list (K * V)) :
  dict_wf d -> dict_wf (List.filter P d).
Proof.
  unfold dict_wf, dict_keys.
  induction d as [|[k v] d IH]; simpl; intros Hwf; [exact Hwf|].
  apply NoDup_cons in Hwf as [Hk Hwf].
  destruct (P (k, v)); simpl; [|apply IH; exact Hwf].
  apply NoDup_cons. split; [|apply IH; exact Hwf].
  intros Hin. apply Hk.
  apply list_elem_of_fmap in Hin as [[k' v'] [Heq Hin]]. simpl in Heq. subst k'.
  apply list_elem_of_fmap. exists (k, v'). split; [reflexivity|].
  apply list_elem_of_In. apply list_elem_of_In in Hin.
  apply filter_In in Hin. tauto.
Qed.

End Dict.
End PyFacts.

(** ** [Projector] *)

Module ProjectionFacts.
Import Numeric NumericFacts Projection.

Section Generator.
Variable normals : nat -> R.

(** *** Row normalisation never divides by zero *)

Lemma row_eps_pos : (0 < row_eps)%R.
Proof. unfold row_eps. apply Rinv_0_lt_compat. lra. Qed.

Lemma normalize_rows_some (mat : list (list R)) :
  normalize_rows mat =
  Some (map (fun row => map (fun x => (x / (norm row + row_eps))%R) row) mat).
Proof.
  unfold normalize_rows.
  induction mat as [|row mat IH]; [reflexivity|].
  cbn [mapM map]. rewrite IH.
  rewrite np_divide_nonzero; [reflexivity|].
  pose proof (norm_nonneg row). pose proof row_eps_pos. lra.
Qed.

Lemma project_matrix_some (P : Projector) (key : nat * nat) :
  exists mat, (project_matrix normals P key).1 = Some mat.
Proof.
  unfold project_matrix.
  destruct (cache P !! key) as [mat|]; [eauto|].
  unfold standard_normal. rewrite normalize_rows_some. eauto.
Qed.

(** A cache hit neither draws from the generator nor alters the cache. *)
Lemma project_matrix_hit (P : Projector) (key : nat * nat) (mat : list (list R)) :
  cache P !! key = Some mat -> project_matrix normals P key = (Some mat, P).
Proof. intros H. unfold project_matrix. rewrite H. reflexivity. Qed.

(** On a miss the matrix is built from the variates at the generator's
    current position. *)
Lemma project_matrix_miss (P : Projector) (key : nat * nat) :
  cache P !! key = None ->
  project_matrix normals P key =
  let mat := map (fun row => map (fun x => (x / (norm row + row_eps))%R) row)
                 (standard_normal normals (rng P) key.2 key.1).1 in
  (Some mat, {| cache := <[key := mat]> (cache P);
                rng := rng P + key.2 * key.1 |}).
Proof.
  intros H. unfold project_matrix. rewrite H.
  unfold standard_normal. rewrite normalize_rows_some. reflexivity.
Qed.

(** Identity projection: [project(v, len(v)) == v]. *)
Lemma project_same_dim (P : Projector) (vec : list R) :
  project normals P vec (length vec) = (Some vec, P).
Proof. unfold project. rewrite decide_True by reflexivity. reflexivity. Qed.

(** After a first projection for a key, the key is cached. *)
Lemma project_caches (P : Projector) (vec : list R) (t : nat) :
  length vec <> t ->
  is_Some (cache (project normals P vec t).2 !! (length vec, t)).
Proof.
  intros Hne. unfold project. rewrite decide_False by exact Hne.
  destruct (cache P !! (length vec, t)) as [mat|] eqn:Hc.
  - rewrite (project_matrix_hit _ _ _ Hc).
    destruct (Rlt_dec 0 (norm (mat_vec mat vec))); cbn; rewrite Hc; eauto.
  - rewrite (project_matrix_miss _ _ Hc). cbn zeta beta iota.
    match goal with |- context [Rlt_dec ?a ?b] => destruct (Rlt_dec a b) end;
      cbn; rewrite lookup_insert_eq; eauto.
Qed.

(** A second projection of the same vector to the same dimension finds the
    matrix in the cache: same output, state untouched. *)
Lemma project_again (P : Projector) (vec : list R) (t : nat) :
  project normals (project normals P vec t).2 vec t = ((project normals P vec t).1, (project normals P vec t).2).
Proof.
  destruct (decide (length vec = t)) as [Heq|Hne].
  - subst t. rewrite !project_same_dim. reflexivity.
  - assert (exists mat, cache (project normals P vec t).2 !! (length vec, t) = Some mat /\
                        (project_matrix normals P (length vec, t)).1 = Some mat /\
                        (project normals P vec t).2 = (project_matrix normals P (length vec, t)).2)
      as (mat & Hc & Hm & HP).
    { unfold project. rewrite decide_False by exact Hne.
      destruct (cache P !! (length vec, t)) as [mat|] eqn:Hc.
      - rewrite (project_matrix_hit _ _ _ Hc). exists mat.
        destruct (Rlt_dec 0 (norm (mat_vec mat vec))); cbn; rewrite Hc; auto.
      - rewrite (project_matrix_miss _ _ Hc). cbn zeta beta iota.
        eexists.
        match goal with |- context [Rlt_dec ?a ?b] => destruct (Rlt_dec a b) end;
          cbn; rewrite lookup_insert_eq; auto. }
    unfold project at 1. rewrite decide_False by exact Hne.
    rewrite (project_matrix_hit _ _ _ Hc).
    unfold project. rewrite decide_False by exact Hne.
    destruct (project_matrix normals P (length vec, t)) as [om P'].
    cbn in Hm. subst om.
    destruct (Rlt_dec 0 (norm (mat_vec mat vec))); reflexivity.
Qed.

(** *** C1 *)

(** The state left by a projection that had to build its matrix. *)
Lemma project_miss_state (P : Projector) (vec : list R) (t : nat) :
  length vec <> t ->
  cache P !! (length vec, t) = None ->
  (project normals P vec t).2 =
  {| cache :=
       <[(length vec, t) :=
           map (fun row => map (fun x => (x / (norm row + row_eps))%R) row)
               (standard_normal normals (rng P) t (length vec)).1]> (cache P);
     rng := rng P + t * length vec |}.
Proof.
  intros Hne Hc. unfold project. rewrite decide_False by exact Hne.
  rewrite (project_matrix_miss _ _ Hc). cbn zeta beta iota.
  match goal with |- context [Rlt_dec ?a ?b] => destruct (Rlt_dec a b) end;
    reflexivity.
Qed.

(** A different key projected earlier on the same instance moves the
    generator, so the matrix of [(base, target)] is then built from later
    variates: here from variates 12.. instead of variates 0... *)
Lemma project_matrix_after_history (w v : list R) :
  length w = 4 -> length v = 4 ->
  cache (project normals (project normals Projector_init w 3).2 v 2).2 !! (4, 2) =
  Some (map (fun row => map (fun x => (x / (norm row + row_eps))%R) row)
            [map normals (seq 12 4); map normals (seq 16 4)]).
Proof.
  intros Hw Hv.
  assert (length w <> 3) as Hw3 by lia.
  assert (length v <> 2) as Hv2 by lia.
  rewrite (project_miss_state _ v 2 Hv2).
  - rewrite Hv. cbn [cache]. rewrite lookup_insert_eq.
    rewrite (project_miss_state _ w 3 Hw3) by apply lookup_empty.
    rewrite Hw. reflexivity.
  - rewrite (project_miss_state _ w 3 Hw3) by apply lookup_empty.
    rewrite Hw, Hv. cbn [cache]. rewrite lookup_insert_ne by congruence.
    apply lookup_empty.
Qed.

Lemma project_matrix_fresh (v : list R) :
  length v = 4 ->
  cache (project normals Projector_init v 2).2 !! (4, 2) =
  Some (map (fun row => map (fun x => (x / (norm row + row_eps))%R) row)
            [map normals (seq 0 4); map normals (seq 4 4)]).
Proof.
  intros Hv.
  assert (length v <> 2) as Hv2 by lia.
  rewrite (project_miss_state _ v 2 Hv2) by apply lookup_empty.
  rewrite Hv. cbn [cache]. rewrite lookup_insert_eq. reflexivity.
Qed.

(** C1 (the code at the failing input).  On one [Projector] instance the
    matrix generated for (sourceDim, targetDim) = (4, 2) depends on what was
    projected before: after a projection from 4 to 3 dimensions it is not the
    matrix a fresh instance generates for (4, 2), as soon as the first and
    the thirteenth variate of the seeded generator differ. *)
Theorem project_matrix_depends_on_history (w v : list R) :
  length w = 4 -> length v = 4 ->
  normals 0 <> normals 12 ->
  cache (project normals Projector_init v 2).2 !! (4, 2) <>
  cache (project normals (project normals Projector_init w 3).2 v 2).2 !! (4, 2).
Proof.
  intros Hw Hv Hn.
  rewrite (project_matrix_fresh v Hv).
  rewrite (project_matrix_after_history w v Hw Hv).
  set (f := fun row : list R => map (fun x => (x / (norm row + row_eps))%R) row).
  intros Heq. apply Hn.
  apply (inj Some) in Heq.
  apply (f_equal (hd [])) in Heq. cbn [map hd] in Heq. unfold f in Heq.
  apply shifted_normalize_inj in Heq; [|apply row_eps_pos].
  apply (f_equal (hd 0%R)) in Heq. exact Heq.
Qed.

End Generator.

Lemma project_matrix_depends_on_history_witness :
  cache (project sample_normals Projector_init [1%R; 0%R; 0%R; 0%R] 2).2 !! (4, 2) <>
  cache (project sample_normals
           (project sample_normals Projector_init [0%R; 1%R; 0%R; 0%R] 3).2
           [1%R; 0%R; 0%R; 0%R] 2).2 !! (4, 2).
Proof.
  apply (project_matrix_depends_on_history sample_normals
           [0%R; 1%R; 0%R; 0%R] [1%R; 0%R; 0%R; 0%R]).
  - reflexivity.
  - reflexivity.
  - unfold sample_normals. apply not_INR. lia.
Defined.

End ProjectionFacts.

(** ** [Projector.project] on float32: the guard *)

Module Projection32Facts.
Import SpecFloat Projection32.

(** *** Zeros *)






Section Generator.
Variable normals : nat -> f32.

(** *** The matrix *)


(** *** C9: what the guard lets through *)


End Generator.

(** *** A product that is not zero, with a norm computed as zero *)




(** *** A norm computed above zero, and not accurately

    Past the guard the output has norm 1 only as far as the computed norm
    is accurate.  With the same matrix, the input [3 * 2^-75, 0, 0, 0] has
    the product [3 * 2^-75, 3 * 2^-75].  The squares, 4.5 * 2^-149, are
    subnormal and round to 4 * 2^-149; the norm is computed as 2^-73, above
    zero, and the product divided by it is [0.75, 0.75], of norm above
    1.0001. *)
Lemma project_small_overshoots :
  (project ex_normals Projector_init ex_small_vec 2).1 =
    [f32_three_quarters; f32_three_quarters] /\
  f32_lt f32_zero (norm [f32_small; f32_small]) = true /\
  exists v, mapM f32_real [f32_three_quarters; f32_three_quarters] = Some v /\
            (1 + / 10000 < Numeric.norm v)%R.
Proof.
  split; [vm_compute; reflexivity|].
  split; [vm_compute; reflexivity|].
  eexists. split; [reflexivity|].
  unfold Numeric.norm. cbn [Numeric.dot cond_Zopp].
  set (q := (IZR 12582912 * powerRZ 2 (-24))%R).
  assert (q = 3 / 4)%R as ->.
  { unfold q. cbn [powerRZ]. rewrite (pow_IZR 2).
    set (n := (2 ^ Z.of_nat (Pos.to_nat 24))%Z).
    vm_compute in n. subst n. lra. }
  rewrite <- (sqrt_square (1 + / 10000)) by lra.
  apply sqrt_lt_1_alt. lra.
Qed.

End Projection32Facts.

(** ** [TripletDataset] *)

Module SamplerFacts.
Import Numeric NumericFacts Py PyFacts Sampler.
Local Open Scope py_scope.

Section Random.
Variable rand : nat -> nat.

(** *** What the draws return *)

Lemma from_option_ret_inv {S A} (e : exn) (o : option A) (s s' : S) (a : A) :
  from_option e o s = (Ret a, s') -> o = Some a /\ s' = s.
Proof.
  destruct o as [x|]; cbn; intros H; [|discriminate].
  injection H as -> ->. split; reflexivity.
Qed.

Lemma choice_ret_inv {A} (seq : list A) (pos pos' : nat) (x : A) :
  choice rand seq pos = (Ret x, pos') ->
  seq !! (rand pos mod length seq) = Some x /\ pos' = S pos.
Proof.
  unfold choice. destruct seq as [|y seq']; [discriminate|].
  set (l := y :: seq'). intros H.
  apply bind_ret_inv in H as (j & s1 & Hj & H).
  unfold randbelow in Hj. injection Hj as <- <-.
  apply from_option_ret_inv in H as [H ->]. split; [exact H|reflexivity].
Qed.

Lemma choice_elem {A} (seq : list A) (pos pos' : nat) (x : A) :
  choice rand seq pos = (Ret x, pos') -> x ∈ seq.
Proof.
  intros H. apply choice_ret_inv in H as [H _].
  apply list_elem_of_lookup. eauto.
Qed.

Lemma choice_nonempty {A} (seq : list A) (pos : nat) :
  seq <> [] ->
  exists x, choice rand seq pos = (Ret x, S pos) /\
            seq !! (rand pos mod length seq) = Some x.
Proof.
  intros Hne.
  assert (rand pos mod length seq < length seq) as Hlt.
  { apply Nat.mod_upper_bound. destruct seq; [contradiction|cbn; lia]. }
  apply lookup_lt_is_Some in Hlt as [x Hx].
  exists x. split; [|exact Hx].
  unfold choice. destruct seq as [|y seq']; [contradiction|].
  unfold bind, randbelow. rewrite Hx. reflexivity.
Qed.

(** [random.sample(population, 2)] returns the items at two different
    positions. *)
Lemma sample2_ret_inv {A} (population : list A) (pos pos' : nat) (a b : A) :
  sample2 rand population pos = (Ret (a, b), pos') ->
  exists i j, i <> j /\ population !! i = Some a /\ population !! j = Some b.
Proof.
  unfold sample2. destruct (Nat.ltb_spec (length population) 2) as [|Hlen];
    [discriminate|].
  intros H.
  apply bind_ret_inv in H as (j0 & s1 & Hj0 & H).
  unfold randbelow in Hj0. injection Hj0 as <- <-.
  apply bind_ret_inv in H as (r0 & s2 & Hr0 & H).
  apply from_option_ret_inv in Hr0 as [Hr0 ->].
  apply bind_ret_inv in H as (last & s3 & Hlast & H).
  apply from_option_ret_inv in Hlast as [Hlast ->].
  apply bind_ret_inv in H as (j1 & s4 & Hj1 & H).
  unfold randbelow in Hj1. injection Hj1 as <- <-.
  apply bind_ret_inv in H as (r1 & s5 & Hr1 & H).
  apply from_option_ret_inv in Hr1 as [Hr1 ->].
  injection H as <- <- <-.
  set (j0 := rand pos mod length population) in *.
  set (j1 := rand (S pos) mod (length population - 1)) in *.
  assert (j1 < length population - 1) as Hj1 by (apply Nat.mod_upper_bound; lia).
  destruct (decide (j0 = j1)) as [Heq|Hne].
  - exists j0, (length population - 1). split; [lia|]. split; [exact Hr0|].
    rewrite <- Heq in Hr1.
    rewrite list_lookup_insert_eq in Hr1 by (apply lookup_lt_Some in Hr0; exact Hr0).
    congruence.
  - exists j0, j1. split; [exact Hne|]. split; [exact Hr0|].
    rewrite list_lookup_insert_ne in Hr1 by exact Hne. exact Hr1.
Qed.

Lemma sample2_enough {A} (population : list A) (pos : nat) :
  2 <= length population ->
  exists a b, sample2 rand population pos = (Ret (a, b), S (S pos)).
Proof.
  intros Hlen. unfold sample2.
  destruct (Nat.ltb_spec (length population) 2) as [|_]; [lia|].
  assert (rand pos mod length population < length population) as Hj0
    by (apply Nat.mod_upper_bound; lia).
  assert (rand (S pos) mod (length population - 1) < length population - 1) as Hj1
    by (apply Nat.mod_upper_bound; lia).
  destruct (lookup_lt_is_Some_2 population _ Hj0) as [r0 Hr0].
  destruct (lookup_lt_is_Some_2 population (length population - 1)) as [last Hlast]; [lia|].
  destruct (lookup_lt_is_Some_2
              (<[rand pos mod length population := last]> population)
              (rand (S pos) mod (length population - 1))) as [r1 Hr1].
  { rewrite length_insert. lia. }
  exists r0, r1.
  unfold bind, randbelow. rewrite Hr0. cbn. rewrite Hlast. cbn. rewrite Hr1. reflexivity.
Qed.

(** When the resampling loop is left, the id differs from the anchor's. *)
Lemma resample_ret_inv (fuel : nat) (pool : list string) (did x y : string)
    (pos pos' : nat) :
  resample rand fuel pool did x pos = (Ret y, pos') ->
  y <> did /\ (y = x \/ y ∈ pool).
Proof.
  revert x pos.
  induction fuel as [|fuel IH]; intros x pos; cbn [resample];
    destruct (decide (x = did)) as [->|Hne]; intros H; try discriminate.
  - injection H as <- <-. tauto.
  - apply bind_ret_inv in H as (x' & s1 & Hx' & H).
    apply IH in H as [Hy [->|Hin]].
    + split; [exact Hy|]. right. eapply choice_elem. exact Hx'.
    + tauto.
  - injection H as <- <-. tauto.
Qed.

End Random.

(** *** The dataset built by [__init__] *)

Lemma grouped_init (g : list (string * Info)) (lm : Z) (k : string) (info : Info) :
  (k, info) ∈ grouped (TripletDataset_init g lm) <->
  (k, info) ∈ g /\ 2 <= length (vecs info).
Proof.
  cbn [grouped TripletDataset_init].
  rewrite !list_elem_of_In, filter_In. unfold eligible. cbn [snd].
  rewrite Nat.leb_le. reflexivity.
Qed.

Lemma grouped_init_wf (g : list (string * Info)) (lm : Z) :
  dict_wf g -> dict_wf (grouped (TripletDataset_init g lm)).
Proof. apply dict_filter_wf. Qed.

Lemma ids_init (g : list (string * Info)) (lm : Z) :
  ids (TripletDataset_init g lm) = dict_keys (grouped (TripletDataset_init g lm)).
Proof. reflexivity. Qed.

(** The negative pool is the list of eligible ids. *)
Lemma neg_ids_init (g : list (string * Info)) (lm : Z) :
  neg_ids (TripletDataset_init g lm) = ids (TripletDataset_init g lm).
Proof. reflexivity. Qed.

Lemma dict_get_key_elem {V} (d : list (string * V)) (k : string) :
  k ∈ dict_keys d -> exists v, dict_get d k = Some v.
Proof.
  intros Hin. destruct (dict_get d k) as [v|] eqn:Hget; [eauto|].
  apply dict_get_None in Hget. contradiction.
Qed.

Lemma by_meta_add_lookup (m : gmap (option string * option string) (list string))
    (item : string * Info) (key : option string * option string) :
  default [] (by_meta_add m item !! key) =
  if decide (meta_key item.2 = key) then default [] (m !! key) ++ [item.1]
  else default [] (m !! key).
Proof.
  unfold by_meta_add.
  destruct (decide (meta_key item.2 = key)) as [<-|Hne].
  - rewrite lookup_insert_eq. reflexivity.
  - rewrite lookup_insert_ne by exact Hne. reflexivity.
Qed.

Lemma by_meta_fold (g : list (string * Info))
    (m : gmap (option string * option string) (list string))
    (key : option string * option string) (x : string) :
  x ∈ default [] (foldl by_meta_add m g !! key) <->
  x ∈ default [] (m !! key) \/ exists info, (x, info) ∈ g /\ meta_key info = key.
Proof.
  revert m. induction g as [|[k i] g IH]; intros m; cbn [foldl].
  - split; [tauto|]. intros [H|(info & Hin & _)]; [exact H|].
    apply elem_of_nil in Hin. contradiction.
  - rewrite IH, by_meta_add_lookup. cbn [fst snd].
    destruct (decide (meta_key i = key)) as [Hk|Hk].
    + rewrite elem_of_app, list_elem_of_singleton. split.
      * intros [[H| ->]|(info & Hin & Hm)].
        -- left. exact H.
        -- right. exists i. split; [left|exact Hk].
        -- right. exists info. split; [right; exact Hin|exact Hm].
      * intros [H|(info & Hin & Hm)]; [tauto|].
        apply elem_of_cons in Hin as [Heq|Hin].
        -- injection Heq as -> ->. tauto.
        -- right. eauto.
    + split.
      * intros [H|(info & Hin & Hm)]; [tauto|].
        right. exists info. split; [right; exact Hin|exact Hm].
      * intros [H|(info & Hin & Hm)]; [tauto|].
        apply elem_of_cons in Hin as [Heq|Hin].
        -- injection Heq as -> ->. contradiction.
        -- right. eauto.
Qed.

(** [self.by_meta.get(key, [])] lists the eligible ids whose (kind, color)
    is [key]. *)
Lemma by_meta_init (g : list (string * Info)) (lm : Z)
    (key : option string * option string) (x : string) :
  x ∈ default [] (by_meta (TripletDataset_init g lm) !! key) <->
  exists info, (x, info) ∈ grouped (TripletDataset_init g lm) /\ meta_key info = key.
Proof.
  cbn [by_meta grouped TripletDataset_init].
  rewrite by_meta_fold, lookup_empty. cbn [default].
  split; [|tauto]. intros [H|H]; [|exact H].
  apply elem_of_nil in H. contradiction.
Qed.

(** [self.grouped[k]] is the entry of the fetched dictionary, when that has
    at least two vectors. *)
Lemma grouped_init_get (g : list (string * Info)) (lm : Z) (k : string) (info : Info) :
  dict_wf g ->
  dict_get (grouped (TripletDataset_init g lm)) k = Some info <->
  dict_get g k = Some info /\ 2 <= length (vecs info).
Proof.
  intros Hwf. split.
  - intros H. apply dict_get_Some_elem, grouped_init in H as [Hin Hlen].
    split; [|exact Hlen]. apply dict_get_elem; assumption.
  - intros [H Hlen]. apply dict_get_elem; [apply grouped_init_wf, Hwf|].
    apply grouped_init. split; [|exact Hlen]. apply dict_get_Some_elem, H.
Qed.

(** *** C8: what [__getitem__] returns *)

Section Validity.

Variable rand : nat -> nat.

Lemma draw_triplet_valid (g : list (string * Info)) (lm idx : Z)
    (fuel pos pos' : nat) (t : Triplet) :
  dict_wf g ->
  draw_triplet rand (TripletDataset_init g lm) idx fuel pos = (Ret t, pos') ->
  exists info ninfo i j,
    dict_get (grouped (TripletDataset_init g lm)) (t_did t) = Some info /\
    i <> j /\
    vecs info !! i = Some (t_anchor t) /\
    vecs info !! j = Some (t_positive_strong t) /\
    t_neg_id t <> t_did t /\
    dict_get (grouped (TripletDataset_init g lm)) (t_neg_id t) = Some ninfo /\
    t_negative t ∈ vecs ninfo /\
    ((exists w_id winfo,
        w_id <> t_did t /\
        dict_get (grouped (TripletDataset_init g lm)) w_id = Some winfo /\
        meta_key winfo = meta_key info /\
        t_weak_vec t ∈ vecs winfo) \/
     ((forall w_id winfo,
         dict_get (grouped (TripletDataset_init g lm)) w_id = Some winfo ->
         meta_key winfo = meta_key info -> w_id = t_did t) /\
      t_weak_vec t = t_positive_strong t)).
Proof.
  intros Hwf H.
  pose proof (grouped_init_wf g lm Hwf) as Hwf'.
  set (ds := TripletDataset_init g lm) in *.
  unfold draw_triplet in H.
  destruct (decide (length (ids ds) = 0)) as [|Hn]; [discriminate|].
  apply bind_ret_inv in H as (did & s1 & Hdid & H).
  apply from_option_ret_inv in Hdid as [Hdid ->].
  apply bind_ret_inv in H as (info & s2 & Hinfo & H).
  apply from_option_ret_inv in Hinfo as [Hinfo ->].
  apply bind_ret_inv in H as ([anchor ps] & s3 & Hsample & H).
  apply sample2_ret_inv in Hsample as (i & j & Hij & Hi & Hj).
  apply bind_ret_inv in H as (weak & s4 & Hweak & H).
  apply bind_ret_inv in H as (neg0 & s5 & Hneg0 & H).
  apply bind_ret_inv in H as (neg_id & s6 & Hres & H).
  apply resample_ret_inv in Hres as [Hneq _].
  apply bind_ret_inv in H as (ninfo & s7 & Hninfo & H).
  apply from_option_ret_inv in Hninfo as [Hninfo ->].
  apply bind_ret_inv in H as (negative & s8 & Hnegv & H).
  apply choice_elem in Hnegv.
  injection H as <- <-. cbn [t_did t_anchor t_positive_strong t_weak_vec t_neg_id t_negative].
  exists info, ninfo, i, j.
  repeat (split; [assumption|]).
  set (L := default [] (by_meta ds !! meta_key info)) in *.
  destruct (List.filter (fun x => negb (bool_decide (x = did))) L) as [|w0 ws] eqn:Hf.
  - right. injection Hweak as <- <-. split; [|reflexivity].
    intros w_id winfo Hw Hm.
    destruct (decide (w_id = did)) as [|Hne]; [assumption|exfalso].
    assert (w_id ∈ L) as HL.
    { apply by_meta_init. exists winfo. split; [|exact Hm].
      apply dict_get_Some_elem. exact Hw. }
    assert (In w_id (List.filter (fun x => negb (bool_decide (x = did))) L)) as Hin.
    { apply filter_In. split; [apply list_elem_of_In; exact HL|].
      rewrite bool_decide_eq_false_2 by exact Hne. reflexivity. }
    rewrite Hf in Hin. destruct Hin.
  - left.
    apply bind_ret_inv in Hweak as (w_id & s9 & Hw & Hweak).
    apply bind_ret_inv in Hweak as (winfo & s10 & Hwinfo & Hweak).
    apply from_option_ret_inv in Hwinfo as [Hwinfo ->].
    apply choice_elem in Hweak. apply choice_elem in Hw.
    rewrite <- Hf in Hw. apply list_elem_of_In, filter_In in Hw as [HwL Hwne].
    apply negb_true_iff, bool_decide_eq_false in Hwne.
    exists w_id, winfo. repeat (split; [assumption|]). split; [|exact Hweak].
    apply list_elem_of_In, by_meta_init in HwL as (info' & Hin' & Hm').
    apply (dict_get_elem _ _ _ Hwf') in Hin'.
    congruence.
Qed.

(** C8, amended.  Every example [(a, ps, pw, n)] returned by [__getitem__]
    is the [F.normalize] of four stored vectors [ra], [rps], [rpw], [rn] of
    the fetched dictionary [g] such that: [ra] and [rps] sit at two different
    positions of the vector list of one entity [did]; [rn] is a vector of an
    entity [neg_id] different from [did]; [rpw] is a vector of an entity
    other than [did] that has at least two vectors and the anchor's
    (kind, color) key, or, when no entity with at least two vectors has that
    key besides [did], [rpw] is [rps].  Nothing is said of the norm of the
    outputs: [F.normalize] divides by [max(norm, eps)]. *)
Theorem getitem_triplet_valid (g : list (string * Info)) (lm idx : Z)
    (fuel pos pos' : nat) (a ps pw n : list R) :
  dict_wf g ->
  getitem rand (TripletDataset_init g lm) idx fuel pos = (Ret (a, ps, pw, n), pos') ->
  exists did neg_id info ninfo i j ra rps rpw rn,
    dict_get g did = Some info /\
    i <> j /\ vecs info !! i = Some ra /\ vecs info !! j = Some rps /\
    neg_id <> did /\
    dict_get g neg_id = Some ninfo /\
    rn ∈ vecs ninfo /\
    ((exists w_id winfo,
        w_id <> did /\
        dict_get g w_id = Some winfo /\
        2 <= length (vecs winfo) /\
        meta_key winfo = meta_key info /\
        rpw ∈ vecs winfo) \/
     ((forall w_id winfo,
         dict_get g w_id = Some winfo ->
         2 <= length (vecs winfo) ->
         meta_key winfo = meta_key info -> w_id = did) /\
      rpw = rps)) /\
    a = F_normalize ra /\ ps = F_normalize rps /\
    pw = F_normalize rpw /\ n = F_normalize rn.
Proof.
  intros Hwf H. unfold getitem in H.
  apply bind_ret_inv in H as (t & s1 & Ht & H).
  injection H as <- <- <- <- <-.
  destruct (draw_triplet_valid g lm idx fuel pos s1 t Hwf Ht)
    as (info & ninfo & i & j & H1 & H2 & H3 & H4 & H5 & H6 & H7 & H8).
  exists (t_did t), (t_neg_id t), info, ninfo, i, j,
    (t_anchor t), (t_positive_strong t), (t_weak_vec t), (t_negative t).
  apply (grouped_init_get g lm _ _ Hwf) in H1 as [H1 _].
  apply (grouped_init_get g lm _ _ Hwf) in H6 as [H6 _].
  repeat (split; [assumption|]).
  split; [|repeat split].
  destruct H8 as [(w_id & winfo & Hne & Hw & Hm & Hin)|[Hnone Heq]].
  - left. apply (grouped_init_get g lm _ _ Hwf) in Hw as [Hw Hlen].
    exists w_id, winfo. repeat (split; [assumption|]). exact Hin.
  - right. split; [|exact Heq]. intros w_id winfo Hw Hlen Hm.
    apply (Hnone w_id winfo); [|exact Hm].
    apply (grouped_init_get g lm _ _ Hwf). split; assumption.
Qed.

End Validity.

(** *** C10: the resampling loop *)

Section Termination.

Variable rand : nat -> nat.

(** With a pool that holds only the anchor's id, no amount of fuel gets the
    loop to its exit. *)
Lemma resample_singleton_diverges (fuel : nat) (did : string) (pos : nat) :
  (resample rand fuel [did] did did pos).1 = Diverge.
Proof.
  revert pos. induction fuel as [|fuel IH]; intros pos; cbn [resample];
    rewrite decide_True by reflexivity; [reflexivity|].
  destruct (choice_nonempty rand [did] pos) as (x & Hc & Hx); [discriminate|].
  assert (x = did) as ->.
  { apply list_elem_of_singleton, list_elem_of_lookup. eauto. }
  rewrite (bind_ret _ _ _ _ _ Hc). apply IH.
Qed.

(** With two or more distinct ids in the pool, the loop is left as soon as
    the generator answers a position other than the anchor's. *)
Lemma resample_terminates (pool : list string) (did : string) (r q : nat) :
  NoDup pool -> pool !! r = Some did ->
  rand q mod length pool <> r ->
  forall (p fuel : nat) (x : string),
    p <= q -> q - p < fuel -> x ∈ pool ->
    exists y pos',
      resample rand fuel pool did x p = (Ret y, pos') /\ y ∈ pool /\ y <> did.
Proof.
  intros Hnd Hr Hq p fuel x Hpq. remember (q - p) as k eqn:Hk.
  revert p fuel x Hpq Hk. induction k as [|k IH]; intros p fuel x Hpq Hk Hfuel Hx.
  - assert (p = q) as -> by lia.
    destruct fuel as [|fuel]; [lia|]. cbn [resample].
    destruct (decide (x = did)) as [->|Hne]; [|exists x, q; tauto].
    assert (pool <> []) as Hpool by (intros ->; apply elem_of_nil in Hx; exact Hx).
    destruct (choice_nonempty rand pool q Hpool) as (x' & Hc & Hx').
    rewrite (bind_ret _ _ _ _ _ Hc).
    assert (x' <> did) as Hne.
    { intros ->. apply Hq. eapply NoDup_lookup; eassumption. }
    exists x', (S q). split; [|split; [|exact Hne]].
    + destruct fuel; cbn [resample]; rewrite decide_False by exact Hne; reflexivity.
    + apply list_elem_of_lookup. eauto.
  - destruct fuel as [|fuel]; [lia|]. cbn [resample].
    destruct (decide (x = did)) as [->|Hne]; [|exists x, p; tauto].
    assert (pool <> []) as Hpool by (intros ->; apply elem_of_nil in Hx; exact Hx).
    destruct (choice_nonempty rand pool p Hpool) as (x' & Hc & Hx').
    rewrite (bind_ret _ _ _ _ _ Hc).
    apply IH; [lia|lia|lia|].
    apply list_elem_of_lookup. eauto.
Qed.

Lemma eligible_vecs (g : list (string * Info)) (lm : Z) (k : string) (info : Info) :
  dict_get (grouped (TripletDataset_init g lm)) k = Some info ->
  2 <= length (vecs info).
Proof.
  intros H. apply dict_get_Some_elem, grouped_init in H. tauto.
Qed.

Lemma choice_vecs (g : list (string * Info)) (lm : Z) (k : string) (info : Info)
    (pos : nat) :
  dict_get (grouped (TripletDataset_init g lm)) k = Some info ->
  exists v, choice rand (vecs info) pos = (Ret v, S pos).
Proof.
  intros H. apply eligible_vecs in H.
  destruct (choice_nonempty rand (vecs info) pos) as (v & Hv & _).
  - intros Hnil. rewrite Hnil in H. cbn in H. lia.
  - eauto.
Qed.

(** Everything before the resampling loop returns. *)
Lemma draw_triplet_terminates (g : list (string * Info)) (lm idx : Z) (pos : nat) :
  dict_wf g ->
  2 <= length (ids (TripletDataset_init g lm)) ->
  never_stuck rand ->
  exists fuel0, forall fuel, fuel0 <= fuel ->
    exists t pos',
      draw_triplet rand (TripletDataset_init g lm) idx fuel pos = (Ret t, pos').
Proof.
  intros Hwf Hlen Hns.
  pose proof (grouped_init_wf g lm Hwf) as Hwf'.
  set (ds := TripletDataset_init g lm) in *.
  set (n := length (ids ds)) in *.
  set (r := Z.to_nat (idx mod Z.of_nat n)).
  assert (r < n) as Hr.
  { unfold r. pose proof (Z.mod_pos_bound idx (Z.of_nat n)). lia. }
  destruct (lookup_lt_is_Some_2 (ids ds) r Hr) as [did Hdid].
  assert (did ∈ dict_keys (grouped ds)) as Hdk
    by (apply list_elem_of_lookup; eauto).
  destruct (dict_get_key_elem _ _ Hdk) as [info Hinfo].
  destruct (sample2_enough rand (vecs info) pos (eligible_vecs _ _ _ _ Hinfo))
    as (anchor & ps & Hsample).
  (* the weak positive *)
  assert (exists weak p1,
    match List.filter (fun x => negb (bool_decide (x = did)))
                      (default [] (by_meta ds !! meta_key info)) with
    | [] => ret ps
    | _ =>
        let* w_id := choice rand
           (List.filter (fun x => negb (bool_decide (x = did)))
                        (default [] (by_meta ds !! meta_key info))) in
        let* winfo := from_option (KeyError w_id) (dict_get (grouped ds) w_id) in
        choice rand (vecs winfo)
    end%py (S (S pos)) = (Ret weak, p1)) as (weak & p1 & Hweak).
  { destruct (List.filter _ _) as [|w0 ws] eqn:Hf; [eexists _, _; reflexivity|].
    destruct (choice_nonempty rand (w0 :: ws) (S (S pos))) as (w_id & Hc & Hw);
      [discriminate|].
    assert (w_id ∈ w0 :: ws) as Hin by (apply list_elem_of_lookup; eauto).
    rewrite <- Hf in Hin. apply list_elem_of_In, filter_In in Hin as [Hin _].
    apply list_elem_of_In, by_meta_init in Hin as (winfo & Hwin & _).
    apply (dict_get_elem _ _ _ Hwf') in Hwin.
    destruct (choice_vecs g lm w_id winfo (S (S (S pos))) Hwin) as [v Hv].
    exists v, (S (S (S (S pos)))).
    rewrite (bind_ret _ _ _ _ _ Hc).
    unfold bind at 1. fold ds. rewrite Hwin. cbn [from_option ret]. exact Hv. }
  (* the negative *)
  assert (neg_ids ds <> []) as Hpool.
  { intros Hnil. change (neg_ids ds) with (ids ds) in Hnil.
    unfold n in Hlen. rewrite Hnil in Hlen. cbn in Hlen. lia. }
  destruct (choice_nonempty rand (neg_ids ds) p1 Hpool) as (neg0 & Hneg0 & Hneg0l).
  destruct (Hns n (S p1) r Hlen) as (q & Hq & Hqr).
  exists (S (q - S p1)). intros fuel Hfuel.
  assert (neg0 ∈ neg_ids ds) as Hneg0in by (apply list_elem_of_lookup; eauto).
  destruct (resample_terminates (neg_ids ds) did r q Hwf' Hdid Hqr
              (S p1) fuel neg0 Hq ltac:(lia) Hneg0in)
    as (neg_id & p2 & Hres & Hnin & Hnne).
  destruct (dict_get_key_elem (grouped ds) neg_id Hnin) as [ninfo Hninfo].
  destruct (choice_vecs g lm neg_id ninfo p2 Hninfo) as [negative Hnegative].
  eexists _, _.
  unfold draw_triplet. fold ds. fold n.
  rewrite decide_False by lia.
  unfold bind at 1. fold r. rewrite Hdid. cbn [from_option ret].
  unfold bind at 1. rewrite Hinfo. cbn [from_option ret].
  rewrite (bind_ret _ _ _ _ _ Hsample).
  rewrite (bind_ret _ _ _ _ _ Hweak).
  rewrite (bind_ret _ _ _ _ _ Hneg0).
  rewrite (bind_ret _ _ _ _ _ Hres).
  unfold bind at 1. rewrite Hninfo. cbn [from_option ret].
  rewrite (bind_ret _ _ _ _ _ Hnegative).
  reflexivity.
Qed.

(** With exactly one eligible entity the call never gets past the loop. *)
Lemma draw_triplet_diverges (g : list (string * Info)) (lm idx : Z)
    (fuel pos : nat) :
  length (ids (TripletDataset_init g lm)) = 1 ->
  exists pos', draw_triplet rand (TripletDataset_init g lm) idx fuel pos = (Diverge, pos').
Proof.
  intros Hlen.
  set (ds := TripletDataset_init g lm) in *.
  destruct (grouped ds) as [|[d info] [|? ?]] eqn:Hg;
    try (change (ids ds) with (dict_keys (grouped ds)) in Hlen;
         rewrite Hg in Hlen; cbn in Hlen; lia).
  assert (ids ds = [d]) as Hids.
  { change (ids ds) with (dict_keys (grouped ds)). rewrite Hg. reflexivity. }
  assert (dict_get (grouped ds) d = Some info) as Hinfo.
  { rewrite Hg. cbn. rewrite decide_True by reflexivity. reflexivity. }
  destruct (sample2_enough rand (vecs info) pos (eligible_vecs _ _ _ _ Hinfo))
    as (anchor & ps & Hsample).
  assert (List.filter (fun x => negb (bool_decide (x = d)))
                      (default [] (by_meta ds !! meta_key info)) = []) as Hweak.
  { destruct (List.filter _ _) as [|w0 ws] eqn:Hf; [reflexivity|exfalso].
    assert (In w0 (w0 :: ws)) as Hin by (left; reflexivity).
    rewrite <- Hf in Hin. apply filter_In in Hin as [Hin Hne].
    apply negb_true_iff, bool_decide_eq_false in Hne. apply Hne.
    apply list_elem_of_In, by_meta_init in Hin as (info' & Hin & _).
    fold ds in Hin. rewrite Hg in Hin.
    apply list_elem_of_singleton in Hin. congruence. }
  destruct (choice_nonempty rand [d] (S (S pos))) as (x & Hc & Hx); [discriminate|].
  assert (x = d) as ->.
  { apply list_elem_of_singleton, list_elem_of_lookup. eauto. }
  destruct (resample rand fuel [d] d d (S (S (S pos)))) as [o p2] eqn:Hres.
  pose proof (resample_singleton_diverges fuel d (S (S (S pos)))) as Hdiv.
  rewrite Hres in Hdiv. cbn in Hdiv. subst o.
  exists p2.
  unfold draw_triplet. fold ds. rewrite Hids. cbn [length].
  rewrite decide_False by lia.
  replace (Z.to_nat (idx mod Z.of_nat 1)) with 0 by (rewrite Z.mod_1_r; reflexivity).
  unfold bind at 1. cbn [lookup list_lookup from_option ret].
  unfold bind at 1. rewrite Hinfo. cbn [from_option ret].
  rewrite (bind_ret _ _ _ _ _ Hsample).
  rewrite Hweak.
  unfold bind at 1. cbn [ret].
  change (neg_ids ds) with (ids ds). rewrite Hids.
  rewrite (bind_ret _ _ _ _ _ Hc).
  rewrite (bind_diverge _ _ _ _ Hres). reflexivity.
Qed.

(** C10.  With at least two eligible entities and a generator that is never
    stuck, [__getitem__] returns for every index, given enough fuel for its
    resampling loop.  With exactly one eligible entity it does not return,
    whatever the generator and however much fuel: the pool the negative id
    is drawn from is the list of eligible ids, so every draw is the anchor's
    id. *)
Theorem getitem_termination (g : list (string * Info)) (lm idx : Z) (pos : nat) :
  dict_wf g ->
  (2 <= length (ids (TripletDataset_init g lm)) ->
   never_stuck rand ->
   exists fuel0, forall fuel, fuel0 <= fuel ->
     exists out pos',
       getitem rand (TripletDataset_init g lm) idx fuel pos = (Ret out, pos')) /\
  (length (ids (TripletDataset_init g lm)) = 1 ->
   neg_ids (TripletDataset_init g lm) = ids (TripletDataset_init g lm) /\
   forall fuel,
     (getitem rand (TripletDataset_init g lm) idx fuel pos).1 = Diverge).
Proof.
  intros Hwf. split.
  - intros Hlen Hns.
    destruct (draw_triplet_terminates g lm idx pos Hwf Hlen Hns) as [fuel0 H].
    exists fuel0. intros fuel Hfuel.
    destruct (H fuel Hfuel) as (t & pos' & Ht).
    eexists _, pos'. unfold getitem.
    rewrite (bind_ret _ _ _ _ _ Ht). reflexivity.
  - intros Hlen. split; [reflexivity|]. intros fuel.
    destruct (draw_triplet_diverges g lm idx fuel pos Hlen) as [pos' Hd].
    unfold getitem. rewrite (bind_diverge _ _ _ _ Hd). reflexivity.
Qed.

End Termination.

Lemma counter_never_stuck : never_stuck counter.
Proof.
  intros n p r Hn. unfold counter.
  destruct (decide (p mod n = r)) as [Hp|Hp]; [|exists p; split; [lia|exact Hp]].
  exists (S p). split; [lia|]. intros Hsp.
  pose proof (Nat.div_mod_eq p n) as H1.
  pose proof (Nat.div_mod_eq (S p) n) as H2.
  rewrite Hp in H1. rewrite Hsp in H2.
  set (a := p / n) in *. set (b := S p / n) in *.
  assert (b <= a \/ a + 1 <= b) as [Hab|Hab] by lia.
  - assert (n * b <= n * a) by (apply Nat.mul_le_mono_l; exact Hab). lia.
  - assert (n * (a + 1) <= n * b) by (apply Nat.mul_le_mono_l; exact Hab). lia.
Qed.

Lemma ex_grouped_wf : dict_wf ex_grouped.
Proof.
  unfold dict_wf, ex_grouped, dict_keys. cbn [map fst].
  apply (bool_decide_unpack _). vm_compute. reflexivity.
Qed.

Lemma ex_single_wf : dict_wf ex_single.
Proof.
  unfold dict_wf, ex_single, dict_keys. cbn [map fst].
  apply (bool_decide_unpack _). vm_compute. reflexivity.
Qed.

Lemma getitem_triplet_valid_witness :
  exists did neg_id info ninfo i j ra rps rpw rn,
    dict_get ex_grouped did = Some info /\
    i <> j /\ vecs info !! i = Some ra /\ vecs info !! j = Some rps /\
    neg_id <> did /\
    dict_get ex_grouped neg_id = Some ninfo /\
    rn ∈ vecs ninfo /\
    ((exists w_id winfo,
        w_id <> did /\
        dict_get ex_grouped w_id = Some winfo /\
        2 <= length (vecs winfo) /\
        meta_key winfo = meta_key info /\
        rpw ∈ vecs winfo) \/
     ((forall w_id winfo,
         dict_get ex_grouped w_id = Some winfo ->
         2 <= length (vecs winfo) ->
         meta_key winfo = meta_key info -> w_id = did) /\
      rpw = rps)) /\
    F_normalize ex_u = F_normalize ra /\ F_normalize ex_v = F_normalize rps /\
    F_normalize ex_u = F_normalize rpw /\ F_normalize ex_v = F_normalize rn.
Proof.
  apply (getitem_triplet_valid counter ex_grouped 25 0 5 0 7
           (F_normalize ex_u) (F_normalize ex_v) (F_normalize ex_u) (F_normalize ex_v)).
  - exact ex_grouped_wf.
  - vm_compute. reflexivity.
Defined.

(** C8 as it is written fails on [ex_faded].  The sample of index 0 has A as
    its anchor entity and comes back as (normalize [0, 0], normalize u,
    normalize u, normalize v): the anchor returned is the zero vector, of
    norm 0 and not 1; and the weak positive is the strong positive, the
    fallback, although C, which is not A, has A's (kind, color), and the
    vector returned is not the normalised vector of C. *)
Lemma getitem_triplet_valid_counterexample :
  getitem counter (TripletDataset_init ex_faded 25) 0 5 0 =
    (Ret (F_normalize [0%R; 0%R], F_normalize ex_u, F_normalize ex_u, F_normalize ex_v),
     5) /\
  norm (F_normalize [0%R; 0%R]) <> 1%R /\
  exists info winfo,
    dict_get ex_faded "A" = Some info /\
    dict_get ex_faded "C" = Some winfo /\
    meta_key winfo = meta_key info /\
    forall v, v ∈ vecs winfo -> F_normalize v <> F_normalize ex_u.
Proof.
  split; [vm_compute; reflexivity|]. split.
  - unfold F_normalize, norm. cbn [map dot].
    replace (0 / Rmax (sqrt (0 * 0 + (0 * 0 + 0))) normalize_eps)%R with 0%R
      by (unfold Rdiv; ring).
    replace (0 * 0 + (0 * 0 + 0))%R with 0%R by ring.
    rewrite sqrt_0. lra.
  - eexists _, _. split; [reflexivity|]. split; [reflexivity|].
    split; [reflexivity|]. intros v Hv. cbn [vecs] in Hv.
    apply list_elem_of_singleton in Hv as ->.
    unfold F_normalize, ex_v, ex_u. cbn [map]. intros [= H0 _].
    pose proof normalize_eps_pos as Heps.
    assert (0 < Rmax (norm [1; 0]) normalize_eps)%R as Hm
      by (eapply Rlt_le_trans; [exact Heps|apply Rmax_r]).
    unfold Rdiv in H0. rewrite Rmult_0_l in H0.
    apply Rinv_0_lt_compat in Hm. lra.
Qed.

Lemma getitem_termination_witness :
  (exists fuel0, forall fuel, fuel0 <= fuel ->
     exists out pos',
       getitem counter (TripletDataset_init ex_grouped 25) 0 fuel 0 = (Ret out, pos')) /\
  (neg_ids (TripletDataset_init ex_single 25) = ids (TripletDataset_init ex_single 25) /\
   forall fuel,
     (getitem counter (TripletDataset_init ex_single 25) 0 fuel 0).1 = Diverge).
Proof.
  split.
  - apply (proj1 (getitem_termination counter ex_grouped 25 0 0 ex_grouped_wf)).
    + vm_compute. apply le_n.
    + exact counter_never_stuck.
  - apply (proj2 (getitem_termination counter ex_single 25 0 0 ex_single_wf)).
    vm_compute. reflexivity.
Defined.

End SamplerFacts.

(** ** [train] *)

Module TrainerFacts.
Import Numeric NumericFacts Py PyFacts Sampler SamplerFacts Head Trainer.
Local Open Scope py_scope.
Local Open Scope Z_scope.

Lemma string_app_length (s t : string) :
  String.length (s +:+ t) = (String.length s + String.length t)%nat.
Proof.
  induction s as [|c s IH]; [reflexivity|].
  simpl. f_equal. exact IH.
Qed.

Lemma string_app_inj_r (s1 s2 t : string) : s1 +:+ t = s2 +:+ t -> s1 = s2.
Proof.
  revert s2. induction s1 as [|c s1 IH]; intros [|c2 s2] H.
  - reflexivity.
  - apply (f_equal String.length) in H.
    rewrite !string_app_length in H. simpl in H. lia.
  - apply (f_equal String.length) in H.
    rewrite !string_app_length in H. simpl in H. lia.
  - simpl in H. injection H as -> H. f_equal. apply IH. exact H.
Qed.

(** Two embedding dimensions never share a checkpoint file. *)
Lemma ckpt_path_inj (out_dir : string) (d1 d2 : Z) :
  ckpt_path out_dir d1 = ckpt_path out_dir d2 -> d1 = d2.
Proof.
  unfold ckpt_path, path_join, ckpt_name.
  change (starts_with_slash ("triplet_head_" +:+ pretty d1 +:+ ".pt")) with false.
  change (starts_with_slash ("triplet_head_" +:+ pretty d2 +:+ ".pt")) with false.
  cbv iota. intros H.
  assert ("triplet_head_" +:+ pretty d1 +:+ ".pt" =
          "triplet_head_" +:+ pretty d2 +:+ ".pt") as H'.
  { destruct (bool_decide (out_dir = "") || ends_with_slash out_dir).
    - apply (inj (String.app out_dir)) in H. exact H.
    - apply (inj (String.app out_dir)) in H.
      apply (inj (String.app "/")) in H. exact H. }
  apply (inj (String.app "triplet_head_")) in H'.
  apply string_app_inj_r in H'.
  apply (inj pretty) in H'. exact H'.
Qed.

Section Train.
Context {env : Setting}.

Lemma logs_ret {A} (P : Event -> Prop) (a : A) : logs P (ret a).
Proof.
  intros w o w' H. injection H as <- <-. split; [reflexivity|].
  exists []. rewrite app_nil_r. split; [reflexivity|constructor].
Qed.

Lemma logs_raise {A} (P : Event -> Prop) (e : exn) : logs P (raise (A := A) e).
Proof.
  intros w o w' H. injection H as <- <-. split; [reflexivity|].
  exists []. rewrite app_nil_r. split; [reflexivity|constructor].
Qed.

Lemma logs_bind {A B} (P : Event -> Prop) (c : M World A) (k : A -> M World B) :
  logs P c -> (forall a, logs P (k a)) -> logs P (bind c k).
Proof.
  intros Hc Hk w o w' H. unfold bind in H.
  destruct (c w) as [[a|e|] w1] eqn:Hcw.
  - destruct (Hc _ _ _ Hcw) as (Hfs1 & out1 & Ho1 & HP1).
    destruct (Hk a _ _ _ H) as (Hfs2 & out2 & Ho2 & HP2).
    split; [congruence|]. exists (out1 ++ out2).
    rewrite Ho2, Ho1, app_assoc. split; [reflexivity|].
    apply Forall_app. split; assumption.
  - injection H as <- <-. exact (Hc _ _ _ Hcw).
  - injection H as <- <-. exact (Hc _ _ _ Hcw).
Qed.

Lemma logs_print (P : Event -> Prop) (e : Event) : P e -> logs P (print e).
Proof.
  intros HP w o w' H. injection H as <- <-. cbn. split; [reflexivity|].
  exists [e]. split; [reflexivity|]. constructor; [exact HP|constructor].
Qed.

Lemma logs_with_random {A} (P : Event -> Prop) (c : M nat A) :
  logs P (with_random c).
Proof.
  intros w o w' H. unfold with_random in H.
  destruct (c (py_pos w)) as [o1 p]. injection H as <- <-. cbn.
  split; [reflexivity|].
  exists []. rewrite app_nil_r. split; [reflexivity|constructor].
Qed.

Lemma logs_with_torch {A} (P : Event -> Prop) (c : TorchRng -> A * TorchRng) :
  logs P (with_torch c).
Proof.
  intros w o w' H. unfold with_torch in H.
  destruct (c (torch_rng w)) as [a t]. injection H as <- <-. cbn.
  split; [reflexivity|].
  exists []. rewrite app_nil_r. split; [reflexivity|constructor].
Qed.

Lemma logs_weaken {A} (P Q : Event -> Prop) (c : M World A) :
  (forall e, P e -> Q e) -> logs P c -> logs Q c.
Proof.
  intros HPQ Hc w o w' H.
  destruct (Hc _ _ _ H) as (Hfs & out & Ho & HP).
  split; [exact Hfs|]. exists out. split; [exact Ho|].
  eapply Forall_impl; eassumption.
Qed.

Lemma silent_same {A} (c : M World A) (w w' : World) (o : outcome A) :
  silent c -> c w = (o, w') -> fs w' = fs w /\ stdout w' = stdout w.
Proof.
  intros Hc H. destruct (Hc _ _ _ H) as (Hfs & out & Ho & HP).
  split; [exact Hfs|].
  destruct out as [|e out]; [rewrite app_nil_r in Ho; exact Ho|].
  apply Forall_cons in HP as [[] _].
Qed.

Lemma silent_logs {A} (P : Event -> Prop) (c : M World A) : silent c -> logs P c.
Proof. apply logs_weaken. intros e []. Qed.

Lemma DataLoader_init_silent (ds : TripletDataset) (bs : Z) (sh : bool) (nw : Z) :
  silent (DataLoader_init ds bs sh nw).
Proof.
  unfold DataLoader_init.
  destruct (nw <? 0); [apply logs_raise|].
  destruct (sh && (TripletDataset_len ds <=? 0)); [apply logs_raise|].
  destruct (bs <=? 0); [apply logs_raise|apply logs_ret].
Qed.

Lemma DataLoader_indices_silent (dl : DataLoader) : silent (DataLoader_indices dl).
Proof.
  unfold DataLoader_indices. apply logs_bind.
  - destruct (dl_shuffle dl); [apply logs_with_torch|apply logs_ret].
  - intros a. apply logs_ret.
Qed.

Lemma fetch_silent (ds : TripletDataset) (fuel : nat) (idxs : list nat) :
  silent (fetch ds fuel idxs).
Proof.
  induction idxs as [|i rest IH]; cbn [fetch]; [apply logs_ret|].
  apply logs_bind; [apply logs_with_random|]. intros x.
  apply logs_bind; [exact IH|]. intros xs. apply logs_ret.
Qed.

Lemma train_batches_logs (ds : TripletDataset) (fuel : nat) (margin : R)
    (epoch epochs total step : Z) (todo : list (list nat))
    (model : TinyHead) (opt : Opt) (running : R) :
  logs is_step
       (train_batches ds fuel margin epoch epochs total step todo model opt running).
Proof.
  revert step model opt running.
  induction todo as [|idxs rest IH]; intros step model opt running;
    cbn [train_batches]; [apply logs_ret|].
  apply logs_bind; [apply silent_logs, fetch_silent|]. intros b.
  destruct (batch_losses model margin b) as [[loss ls] lw].
  destruct (backward_step opt model b margin) as [model' opt'].
  apply logs_bind; [|intros _; apply IH].
  destruct ((step mod 20 =? 0) || (step =? total));
    [apply logs_print; exact I|apply logs_ret].
Qed.

Lemma valid_batches_silent (ds : TripletDataset) (fuel : nat) (margin : R)
    (todo : list (list nat)) (model : TinyHead) (val_loss : R) :
  silent (valid_batches ds fuel margin todo model val_loss).
Proof.
  revert val_loss.
  induction todo as [|idxs rest IH]; intros val_loss;
    cbn [valid_batches]; [apply logs_ret|].
  apply logs_bind; [apply fetch_silent|]. intros b.
  destruct (batch_losses model margin b) as [[loss ls] lw]. apply IH.
Qed.

(** *** Reading the log *)

Lemma epoch_weights_app (a b : list Event) :
  epoch_weights (a ++ b) = epoch_weights a ++ epoch_weights b.
Proof. apply omap_app. Qed.

Lemma saved_paths_app (a b : list Event) :
  saved_paths (a ++ b) = saved_paths a ++ saved_paths b.
Proof. apply omap_app. Qed.

Lemma plain_no_reports (out : list Event) :
  Forall plain out -> epoch_weights out = [] /\ saved_paths out = [].
Proof.
  induction 1 as [|e out He _ [IH1 IH2]]; [split; reflexivity|].
  unfold epoch_weights, saved_paths in *.
  destruct e; try contradiction; cbn; rewrite IH1, IH2; split; reflexivity.
Qed.

Lemma is_step_plain (e : Event) : is_step e -> plain e.
Proof. destruct e; cbn; tauto. Qed.

(** One epoch writes no file, and its log ends with the report of the epoch,
    which carries the weights the epoch returns. *)
Lemma run_epoch_spec (train_dl : DataLoader) (valid_dl : option DataLoader)
    (fuel : nat) (margin : R) (epoch epochs : Z) (model : TinyHead) (opt : Opt)
    (w w' : World) (model' : TinyHead) (opt' : Opt) :
  run_epoch train_dl valid_dl fuel margin epoch epochs model opt w
    = (Ret (model', opt'), w') ->
  fs w' = fs w /\
  exists out, stdout w' = stdout w ++ out /\
              epoch_weights out = [(epoch + 1, model')] /\
              saved_paths out = [].
Proof.
  unfold run_epoch. intros H.
  apply bind_ret_inv in H as (todo & w1 & H1 & H).
  apply (silent_same _ _ _ _ (DataLoader_indices_silent _)) in H1 as [Hf1 Ho1].
  apply bind_ret_inv in H as ([[m1 o1] running] & w2 & H2 & H).
  destruct (train_batches_logs _ _ _ _ _ _ _ _ _ _ _ _ _ _ H2)
    as (Hf2 & out2 & Ho2 & HP2).
  apply bind_ret_inv in H as (val_loss & w3 & H3 & H).
  assert (fs w3 = fs w2 /\ stdout w3 = stdout w2) as [Hf3 Ho3].
  { destruct valid_dl as [vdl|].
    - refine (silent_same _ _ _ _ _ H3).
      apply logs_bind; [apply DataLoader_indices_silent|]. intros vtodo.
      apply logs_bind; [apply valid_batches_silent|]. intros total.
      apply logs_ret.
    - injection H3 as <- <-. split; reflexivity. }
  apply bind_ret_inv in H as ([] & w4 & H4 & H).
  injection H4 as <-. injection H as <- <- <-. cbn [fs stdout].
  split; [congruence|].
  exists (out2 ++ [PrintEpoch (epoch + 1)
                     (if TripletDataset_len (dl_dataset train_dl) =? 0 then 0%R
                      else (running / IZR (TripletDataset_len (dl_dataset train_dl)))%R)
                     val_loss m1]).
  rewrite Ho3, Ho2, Ho1, app_assoc. split; [reflexivity|].
  destruct (plain_no_reports out2) as [He Hs].
  { eapply Forall_impl; [exact HP2|exact is_step_plain]. }
  rewrite epoch_weights_app, saved_paths_app, He, Hs. split; reflexivity.
Qed.

(** The epoch loop writes no file; its log reports the epochs in order, and
    the weights it returns are those of the last report. *)
Lemma run_epochs_spec (train_dl : DataLoader) (valid_dl : option DataLoader)
    (fuel : nat) (margin : R) (epochs : Z) (count : nat) :
  forall (epoch : Z) (model : TinyHead) (opt : Opt) (w w' : World)
         (model' : TinyHead) (opt' : Opt),
  run_epochs train_dl valid_dl fuel margin epochs count epoch model opt w
    = (Ret (model', opt'), w') ->
  fs w' = fs w /\
  exists out, stdout w' = stdout w ++ out /\
    saved_paths out = [] /\
    map fst (epoch_weights out) = map (fun k => epoch + Z.of_nat k) (seq 1 count) /\
    (count = 0%nat -> model' = model) /\
    (count <> 0%nat ->
       last (epoch_weights out) = Some (epoch + Z.of_nat count, model')).
Proof.
  induction count as [|count IH]; intros epoch model opt w w' model' opt' H;
    cbn [run_epochs] in H.
  - injection H as <- <- <-. split; [reflexivity|].
    exists []. rewrite app_nil_r. repeat split; try reflexivity. congruence.
  - apply bind_ret_inv in H as ([m1 o1] & w1 & H1 & H).
    apply run_epoch_spec in H1 as (Hf1 & out1 & Ho1 & He1 & Hs1).
    apply IH in H as (Hf2 & out2 & Ho2 & Hs2 & He2 & Hz & Hnz).
    split; [congruence|].
    exists (out1 ++ out2). rewrite Ho2, Ho1, app_assoc.
    split; [reflexivity|].
    rewrite saved_paths_app, Hs1, Hs2, epoch_weights_app, He1.
    split; [reflexivity|]. split; [|split; [discriminate|]].
    + cbn [app map fst seq]. rewrite He2.
      change (Z.of_nat 1) with 1. apply (f_equal (cons (epoch + 1))).
      rewrite <- (seq_shift count 1), map_map.
      apply map_ext. intros k. lia.
    + intros _. destruct count as [|count'].
      * rewrite (Hz eq_refl). destruct (epoch_weights out2) as [|x xs] eqn:Hew.
        -- cbn. repeat f_equal; lia.
        -- cbn in He2. discriminate.
      * specialize (Hnz ltac:(discriminate)).
        cbn [app]. rewrite last_cons, Hnz.
        replace (epoch + 1 + Z.of_nat (S count')) with (epoch + Z.of_nat (S (S count')))
          by lia.
        reflexivity.
Qed.

(** *** C2 and C5 *)

Lemma train_setup_logs (table : string) (embed_dim batch_size : Z) (margin : R)
    (epochs : Z) (lr : R) (length_mult num_workers : Z) :
  logs plain (train_setup table embed_dim batch_size margin epochs lr
                          length_mult num_workers).
Proof.
  unfold train_setup.
  destruct (fetch_embeddings use_vec34 (db table "train")) as [|item train_group];
    [apply logs_raise|].
  apply logs_bind; [apply silent_logs, DataLoader_init_silent|]. intros train_dl.
  apply logs_bind.
  { destruct (fetch_embeddings use_vec34 (db table "valid")); [apply logs_ret|].
    destruct (truthy _); [|apply logs_ret].
    apply logs_bind; [apply silent_logs, DataLoader_init_silent|].
    intros dl. apply logs_ret. }
  intros valid_dl.
  apply logs_bind.
  { destruct (embed_dim <? 0); [apply logs_raise|apply logs_with_torch]. }
  intros model.
  apply logs_bind; [apply logs_print; exact I|]. intros _.
  apply logs_bind; [apply logs_print; exact I|]. intros _.
  apply logs_bind.
  { destruct (_ || _); [apply logs_print; exact I|apply logs_ret]. }
  intros _.
  apply logs_bind.
  { destruct (_ && _); [apply logs_print; exact I|apply logs_ret]. }
  intros _. apply logs_ret.
Qed.

(** C2.  When no entity of the fetched training data has two vectors,
    [train] raises, and it leaves the world exactly as it found it: no epoch
    has run, nothing was printed, no checkpoint was written.  The exception
    is the [RuntimeError] of [train]'s own guard when no embedding was
    fetched at all, and otherwise the [ValueError] with which the training
    [DataLoader] refuses a dataset of length 0. *)
Theorem train_no_eligible_raises (table : string) (embed_dim batch_size : Z)
    (margin : R) (epochs : Z) (lr : R) (length_mult num_workers : Z)
    (fuel : nat) (w : World) :
  Forall (fun item => (length (vecs item.2) < 2)%nat)
         (fetch_embeddings use_vec34 (db table "train")) ->
  exists e,
    train table embed_dim batch_size margin epochs lr length_mult num_workers fuel w
      = (Raise e, w) /\
    ((fetch_embeddings use_vec34 (db table "train") = [] /\
      e = RuntimeError "No train embeddings found. Run prepare_triplet_data.py first.") \/
     (fetch_embeddings use_vec34 (db table "train") <> [] /\
      exists msg, e = ValueError msg)).
Proof.
  intros Hnone.
  assert (exists e,
    train_setup table embed_dim batch_size margin epochs lr length_mult num_workers w
      = (Raise e, w) /\
    ((fetch_embeddings use_vec34 (db table "train") = [] /\
      e = RuntimeError "No train embeddings found. Run prepare_triplet_data.py first.") \/
     (fetch_embeddings use_vec34 (db table "train") <> [] /\
      exists msg, e = ValueError msg))) as (e & He & Hkind).
  { unfold train_setup.
    destruct (fetch_embeddings use_vec34 (db table "train")) as [|item g] eqn:Hg.
    - eexists. split; [reflexivity|]. left. split; reflexivity.
    - assert (TripletDataset_len (TripletDataset_init (item :: g) length_mult) = 0)
        as Hlen.
      { unfold TripletDataset_len. cbn [ids TripletDataset_init].
        replace (List.filter eligible (item :: g)) with (@nil (string * Info));
          [reflexivity|].
        symmetry. clear Hg. induction Hnone as [|x l Hx _ IH]; [reflexivity|].
        cbn [List.filter]. unfold eligible at 1.
        destruct (Nat.leb_spec 2 (length (vecs x.2))); [lia|exact IH]. }
      unfold DataLoader_init. rewrite Hlen.
      destruct (num_workers <? 0); eexists; (split; [reflexivity|]);
        right; (split; [discriminate|]); eexists; reflexivity. }
  exists e. split; [|exact Hkind].
  unfold train. rewrite (bind_raise _ _ _ _ _ He). reflexivity.
Qed.

(** C5.  When [train] returns, the file system differs from the one it
    started with in exactly one file, the checkpoint at the path fixed by the
    embedding dimension (no other dimension has that path); the log reports
    one save, and the epochs 1 to [epochs] in order; the checkpoint holds the
    four metadata fields as passed and, as weights, the weights at the end
    of the last epoch reported, whatever the validation losses were. *)
Theorem train_saves_last_epoch (table : string) (embed_dim batch_size : Z)
    (margin : R) (epochs : Z) (lr : R) (length_mult num_workers : Z)
    (fuel : nat) (w w' : World) :
  train table embed_dim batch_size margin epochs lr length_mult num_workers fuel w
    = (Ret tt, w') ->
  exists model out,
    fs w' = <[ckpt_path OUT_DIR embed_dim :=
                {| state_dict := model; ck_embed_dim := embed_dim;
                   ck_table := table; ck_epochs := epochs;
                   ck_margin := margin |}]> (fs w) /\
    (forall d, ckpt_path OUT_DIR d = ckpt_path OUT_DIR embed_dim -> d = embed_dim) /\
    stdout w' = stdout w ++ out /\
    saved_paths out = [ckpt_path OUT_DIR embed_dim] /\
    map fst (epoch_weights out) =
      map (fun k => Z.of_nat k) (seq 1 (Z.to_nat epochs)) /\
    (0 < epochs -> last (epoch_weights out) = Some (epochs, model)).
Proof.
  unfold train. intros H.
  apply bind_ret_inv in H as ([[[train_dl valid_dl] model0] opt0] & w1 & H1 & H).
  destruct (train_setup_logs _ _ _ _ _ _ _ _ _ _ _ H1) as (Hf1 & out1 & Ho1 & HP1).
  apply plain_no_reports in HP1 as [He1 Hs1].
  apply bind_ret_inv in H as ([model opt] & w2 & H2 & H).
  apply run_epochs_spec in H2 as (Hf2 & out2 & Ho2 & Hs2 & He2 & _ & Hlast).
  apply bind_ret_inv in H as ([] & w3 & H3 & H).
  injection H3 as <-. injection H as <-. cbn [fs stdout].
  exists model, (out1 ++ out2 ++ [PrintSaved (ckpt_path OUT_DIR embed_dim)]).
  split; [congruence|].
  split; [intros d; apply ckpt_path_inj|].
  split; [rewrite Ho2, Ho1, <- !app_assoc; reflexivity|].
  rewrite !saved_paths_app, !epoch_weights_app, He1, Hs1, Hs2.
  cbn [app]. rewrite app_nil_r.
  split; [reflexivity|]. split.
  - rewrite He2. apply map_ext. intros k. lia.
  - intros Hpos. rewrite Hlast by lia. do 2 f_equal. lia.
Qed.

End Train.

Lemma train_no_eligible_raises_witness :
  exists e,
    ex_train ex_db_lonely (ex_world ex_db_lonely) =
      (Raise e, ex_world ex_db_lonely) /\
    ((fetch_embeddings false (ex_db_lonely "animal_embeddings_2" "train") = [] /\
      e = RuntimeError "No train embeddings found. Run prepare_triplet_data.py first.") \/
     (fetch_embeddings false (ex_db_lonely "animal_embeddings_2" "train") <> [] /\
      exists msg, e = ValueError msg)).
Proof.
  apply (train_no_eligible_raises (env := ex_setting ex_db_lonely)
           "animal_embeddings_2" 2 2 (/ 5)%R 2 (/ 1000)%R 1 0 5
           (ex_world ex_db_lonely)).
  vm_compute. repeat constructor.
Defined.

Lemma train_saves_last_epoch_witness :
  exists model out,
    fs (ex_train ex_db (ex_world ex_db)).2 =
      <[ckpt_path "checkpoints" 2 :=
          {| state_dict := model; ck_embed_dim := 2;
             ck_table := "animal_embeddings_2"; ck_epochs := 2;
             ck_margin := (/ 5)%R |}]> (fs (ex_world ex_db)) /\
    (forall d, ckpt_path "checkpoints" d = ckpt_path "checkpoints" 2 -> d = 2) /\
    stdout (ex_train ex_db (ex_world ex_db)).2 = stdout (ex_world ex_db) ++ out /\
    saved_paths out = [ckpt_path "checkpoints" 2] /\
    map fst (epoch_weights out) = map (fun k => Z.of_nat k) (seq 1 (Z.to_nat 2)) /\
    (0 < 2 -> last (epoch_weights out) = Some (2, model)).
Proof.
  apply (train_saves_last_epoch (env := ex_setting ex_db)
           "animal_embeddings_2" 2 2 (/ 5)%R 2 (/ 1000)%R 1 0 5
           (ex_world ex_db) (ex_train ex_db (ex_world ex_db)).2).
  vm_compute. reflexivity.
Defined.

End TrainerFacts.

(** ** The retriever *)

Module RetrieverFacts.
Import Numeric NumericFacts Py PyFacts Head Retriever.
Local Open Scope Z_scope.

Section Main.
Context {cfg : Config}.

(** *** Sorting, slicing, [topk] *)

Lemma insert_desc_perm {A} (key : A -> R) (x : A) (l : list A) :
  insert_desc key x l ≡ₚ x :: l.
Proof.
  induction l as [|y l IH]; cbn [insert_desc]; [reflexivity|].
  destruct (Rlt_dec (key x) (key y)); [|reflexivity].
  rewrite IH. apply Permutation_swap.
Qed.

Lemma sort_desc_perm {A} (key : A -> R) (l : list A) : sort_desc key l ≡ₚ l.
Proof.
  induction l as [|x l IH]; cbn [sort_desc foldr]; [reflexivity|].
  rewrite insert_desc_perm. fold (sort_desc key l). rewrite IH. reflexivity.
Qed.

Lemma sort_desc_elem {A} (key : A -> R) (l : list A) (x : A) :
  x ∈ sort_desc key l <-> x ∈ l.
Proof. rewrite (sort_desc_perm key l). reflexivity. Qed.

Lemma sort_desc_length {A} (key : A -> R) (l : list A) :
  length (sort_desc key l) = length l.
Proof. apply Permutation_length, sort_desc_perm. Qed.

Lemma py_slice_to_elem {A} (l : list A) (k : Z) (x : A) :
  x ∈ py_slice_to l k -> x ∈ l.
Proof.
  unfold py_slice_to. destruct (0 <=? k); intros H;
    eapply subseteq_take; exact H.
Qed.

Lemma py_slice_to_NoDup {A B} (f : A -> B) (l : list A) (k : Z) :
  NoDup (map f l) -> NoDup (map f (py_slice_to l k)).
Proof.
  intros H. unfold py_slice_to.
  destruct (0 <=? k); rewrite <- firstn_map;
    (eapply sublist_NoDup; [exact H|apply sublist_take]).
Qed.

Lemma omap_lookup_length {A} (d : list A) (idxs : list nat) :
  Forall (fun i => (i < length d)%nat) idxs ->
  length (omap (M := list) (fun i => d !! i) idxs) = length idxs.
Proof.
  induction 1 as [|i idxs Hi _ IH]; [reflexivity|].
  cbn [omap list_omap].
  destruct (lookup_lt_is_Some_2 d i Hi) as [x Hx]. rewrite Hx.
  cbn [length]. f_equal. exact IH.
Qed.

(** Within its range [torch.topk] returns [k] indices, all of them valid. *)
Lemma torch_topk_ok (scores : list R) (k : Z) :
  0 <= k <= Z.of_nat (length scores) ->
  exists idxs, torch_topk scores k = Ret idxs /\
               length idxs = Z.to_nat k /\
               Forall (fun i => (i < length scores)%nat) idxs.
Proof.
  intros Hk. unfold torch_topk.
  destruct (Z.ltb_spec k 0) as [|_]; [lia|].
  destruct (Z.ltb_spec (Z.of_nat (length scores)) k) as [|_]; [lia|].
  cbn [orb]. eexists. split; [reflexivity|].
  set (sorted := sort_desc fst (zip scores (seq 0 (length scores)))).
  assert (length sorted = length scores) as Hlen.
  { unfold sorted. rewrite sort_desc_length, length_zip, length_seq. lia. }
  split.
  - rewrite length_take, length_map, Hlen. lia.
  - apply Forall_take. apply Forall_forall. intros i Hi.
    apply list_elem_of_In, in_map_iff in Hi as ([s j] & <- & Hin).
    apply list_elem_of_In, sort_desc_elem, elem_of_zip_r in Hin.
    apply list_elem_of_In, in_seq in Hin. cbn. lia.
Qed.

Lemma torch_topk_negative (scores : list R) (k : Z) :
  k < 0 -> torch_topk scores k = Raise (RuntimeError "selected index k out of range").
Proof.
  intros Hk. unfold torch_topk.
  destruct (Z.ltb_spec k 0) as [_|]; [reflexivity|lia].
Qed.

Lemma slices_concat {A} (size : nat) (l : list A) (n : nat) :
  (0 < size)%nat -> (length l <= n)%nat -> concat (slices size l n) = l.
Proof.
  intros Hsize. revert l. induction n as [|n IH]; intros l Hlen.
  - destruct l; [reflexivity|cbn in Hlen; lia].
  - cbn [slices]. destruct l as [|x l']; [reflexivity|].
    set (l := x :: l') in *. cbn [concat].
    rewrite IH; [apply take_drop|].
    rewrite length_drop. lia.
Qed.

(** Batching does not change what stage 2 computes: one score per
    shortlisted item, in the order of the shortlist. *)
Lemma rerank_map (head : TinyHead) (query_t : list R) (shortlist : list DbEmbedding) :
  rerank head query_t shortlist = map (rerank_one head query_t) shortlist.
Proof.
  unfold rerank. rewrite <- concat_map.
  rewrite slices_concat; [reflexivity|lia|lia].
Qed.

(** *** C3: the size of the shortlist *)

Lemma coarse_stage_ok (dataset : list DbEmbedding) (q : list R) (topk : Z) :
  0 <= Z.max topk COARSE_TOPK ->
  exists shortlist,
    coarse_stage dataset q topk = Ret shortlist /\
    Z.of_nat (length shortlist) =
      Z.min (Z.of_nat (length dataset)) (Z.max topk COARSE_TOPK).
Proof.
  intros Hk. unfold coarse_stage.
  set (topn := Z.min (Z.of_nat (length dataset)) (Z.max topk COARSE_TOPK)).
  set (scores := mat_vec (map (fun e => F_normalize (vec e)) dataset) q).
  assert (length scores = length dataset) as Hlen.
  { unfold scores, mat_vec. rewrite !length_map. reflexivity. }
  destruct (torch_topk_ok scores topn) as (idxs & Hidx & Hn & Hall).
  { rewrite Hlen. unfold topn. lia. }
  rewrite Hidx. cbn [obind]. eexists. split; [reflexivity|].
  rewrite omap_lookup_length by (rewrite <- Hlen; exact Hall).
  rewrite Hn. unfold topn. lia.
Qed.

Lemma coarse_stage_negative (dataset : list DbEmbedding) (q : list R) (topk : Z) :
  dataset <> [] -> Z.max topk COARSE_TOPK < 0 ->
  coarse_stage dataset q topk = Raise (RuntimeError "selected index k out of range").
Proof.
  intros Hne Hk. unfold coarse_stage.
  rewrite torch_topk_negative; [reflexivity|].
  destruct dataset; [contradiction|]. cbn [length]. lia.
Qed.

(** C3, as amended.  For every non-empty filtered dataset and every
    requested K and coarse pool size whose maximum is not negative, the
    search goes through and the shortlist handed from the coarse stage to the
    rerank stage, on which one score each is computed, has exactly
    [min(datasetSize, max(K, coarsePoolSize))] entries. *)
Theorem shortlist_size (env : Env) (head : TinyHead) (query_vec : list R)
    (dataset : list DbEmbedding) (topk : Z) :
  dataset <> [] ->
  0 <= Z.max topk COARSE_TOPK ->
  exists tr,
    search env head query_vec dataset topk = Ret tr /\
    map snd (tr_scores tr) = tr_shortlist tr /\
    Z.of_nat (length (tr_shortlist tr)) =
      Z.min (Z.of_nat (length dataset)) (Z.max topk COARSE_TOPK).
Proof.
  intros _ Hk. unfold search.
  destruct (coarse_stage_ok dataset (F_normalize query_vec) topk Hk)
    as (shortlist & Hc & Hlen).
  rewrite Hc. cbn [obind]. eexists. split; [reflexivity|].
  cbn [tr_scores tr_shortlist]. split; [|exact Hlen].
  rewrite rerank_map, map_map. cbn. apply map_id.
Qed.

(** When both the requested K and the coarse pool size are negative, the
    search raises at [torch.topk] and no shortlist is handed on. *)
Lemma search_negative_raises (env : Env) (head : TinyHead) (query_vec : list R)
    (dataset : list DbEmbedding) (topk : Z) :
  dataset <> [] -> Z.max topk COARSE_TOPK < 0 ->
  search env head query_vec dataset topk
    = Raise (RuntimeError "selected index k out of range").
Proof.
  intros Hne Hk. unfold search.
  rewrite (coarse_stage_negative _ _ _ Hne Hk). reflexivity.
Qed.

(** *** C4: deduplication *)

Lemma dedup_step_inv (best : list (string * (R * DbEmbedding)))
    (seen : list (R * DbEmbedding)) (x : R * DbEmbedding) :
  dedup_inv best seen -> dedup_inv (dedup_step best x) (seen ++ [x]).
Proof.
  intros (Hwf & Hstored & Hseen). unfold dedup_step.
  destruct (dict_get best (desertion_no x.2)) as [prev|] eqn:Hget.
  - destruct (Rlt_dec prev.1 x.1) as [Hlt|Hge].
    + split; [apply dict_set_wf; exact Hwf|]. split.
      * intros k y Hin. apply dict_set_elem in Hin as [[-> ->]|Hin].
        -- split; [reflexivity|]. apply elem_of_app. right. left.
        -- destruct (Hstored k y Hin) as [Hk Hy].
           split; [exact Hk|]. apply elem_of_app. left. exact Hy.
      * intros y Hy. rewrite dict_get_set.
        destruct (decide (desertion_no y.2 = desertion_no x.2)) as [Heq|Hne].
        -- exists x. split; [reflexivity|].
           apply elem_of_app in Hy as [Hy|Hy].
           ++ destruct (Hseen y Hy) as (z & Hz & Hle).
              rewrite Heq, Hget in Hz. injection Hz as <-. lra.
           ++ apply list_elem_of_singleton in Hy. subst y. lra.
        -- apply elem_of_app in Hy as [Hy|Hy]; [exact (Hseen y Hy)|].
           apply list_elem_of_singleton in Hy. subst y. contradiction.
    + split; [exact Hwf|]. split.
      * intros k y Hin. destruct (Hstored k y Hin) as [Hk Hy].
        split; [exact Hk|]. apply elem_of_app. left. exact Hy.
      * intros y Hy. apply elem_of_app in Hy as [Hy|Hy]; [exact (Hseen y Hy)|].
        apply list_elem_of_singleton in Hy. subst y.
        exists prev. split; [exact Hget|lra].
  - split; [apply dict_set_wf; exact Hwf|]. split.
    + intros k y Hin. apply dict_set_elem in Hin as [[-> ->]|Hin].
      * split; [reflexivity|]. apply elem_of_app. right. left.
      * destruct (Hstored k y Hin) as [Hk Hy].
        split; [exact Hk|]. apply elem_of_app. left. exact Hy.
    + intros y Hy. rewrite dict_get_set.
      destruct (decide (desertion_no y.2 = desertion_no x.2)) as [Heq|Hne].
      * exists x. split; [reflexivity|].
        apply elem_of_app in Hy as [Hy|Hy].
        -- destruct (Hseen y Hy) as (z & Hz & _).
           rewrite Heq, Hget in Hz. discriminate.
        -- apply list_elem_of_singleton in Hy. subst y. lra.
      * apply elem_of_app in Hy as [Hy|Hy]; [exact (Hseen y Hy)|].
        apply list_elem_of_singleton in Hy. subst y. contradiction.
Qed.

Lemma dedup_fold_inv (l : list (R * DbEmbedding)) :
  forall best seen,
    dedup_inv best seen -> dedup_inv (foldl dedup_step best l) (seen ++ l).
Proof.
  induction l as [|x l IH]; intros best seen H; cbn [foldl].
  - rewrite app_nil_r. exact H.
  - replace (seen ++ x :: l) with ((seen ++ [x]) ++ l)
      by (rewrite <- app_assoc; reflexivity).
    apply IH, dedup_step_inv, H.
Qed.

Lemma best_per_id_inv (scores : list (R * DbEmbedding)) :
  dedup_inv (best_per_id scores) scores.
Proof.
  apply (dedup_fold_inv scores [] []).
  split; [apply NoDup_nil_2|]. split.
  - intros k x H. apply elem_of_nil in H. contradiction.
  - intros x H. apply elem_of_nil in H. contradiction.
Qed.

Lemma stored_ids_are_keys (best : list (string * (R * DbEmbedding))) :
  (forall k x, (k, x) ∈ best -> desertion_no x.2 = k) ->
  map (fun x => desertion_no x.2) (dict_values best) = dict_keys best.
Proof.
  unfold dict_values, dict_keys.
  induction best as [|[k x] best IH]; intros H; [reflexivity|].
  cbn [map fst snd]. f_equal.
  - apply H. left.
  - apply IH. intros k' x' Hin. apply H. right. exact Hin.
Qed.

(** Lines 326-334 on any list of scores: no id twice, and each entry kept is
    a scored entry that no scored entry of the same id beats. *)
Lemma dedup_topk_spec (scores : list (R * DbEmbedding)) (topk : Z) :
  NoDup (map (fun x => desertion_no x.2) (dedup_topk scores topk)) /\
  (forall x, x ∈ dedup_topk scores topk ->
     x ∈ scores /\
     forall y, y ∈ scores -> desertion_no y.2 = desertion_no x.2 ->
               (y.1 <= x.1)%R).
Proof.
  destruct (best_per_id_inv (sort_desc fst scores)) as (Hwf & Hstored & Hseen).
  set (best := best_per_id (sort_desc fst scores)) in *.
  unfold dedup_topk. fold best. split.
  - apply py_slice_to_NoDup.
    assert (map (fun x : R * DbEmbedding => desertion_no x.2)
                (sort_desc fst (dict_values best))
            ≡ₚ map (fun x : R * DbEmbedding => desertion_no x.2) (dict_values best))
      as Hperm by apply Permutation_map, sort_desc_perm.
    rewrite Hperm.
    rewrite stored_ids_are_keys; [exact Hwf|].
    intros k x Hin. apply (Hstored k x Hin).
  - intros x Hx. apply py_slice_to_elem, sort_desc_elem in Hx.
    unfold dict_values in Hx.
    apply list_elem_of_In, in_map_iff in Hx as ([k x'] & Hxe & Hin).
    cbn in Hxe. subst x'. apply list_elem_of_In in Hin.
    destruct (Hstored k x Hin) as [Hk Hxs].
    split; [apply sort_desc_elem in Hxs; exact Hxs|].
    intros y Hy Hid. apply (sort_desc_elem fst) in Hy.
    destruct (Hseen y Hy) as (z & Hz & Hle).
    rewrite Hid, Hk, (dict_get_elem _ _ _ Hwf Hin) in Hz.
    injection Hz as <-. exact Hle.
Qed.

Lemma main_trace_results (env : Env) (topk : Z) (tr : SearchTrace) :
  main_trace env topk = Ret tr ->
  results (tr_payload tr) = map to_result (dedup_topk (tr_scores tr) topk).
Proof.
  unfold main_trace. destruct (negb (image_is_file env)); [discriminate|].
  destruct (load_head env) as [head| |]; cbn [obind]; try discriminate.
  destruct (fit_query (query_embedding env)) as [q| |]; cbn [obind]; try discriminate.
  destruct (apply_filters env (load_embeddings (db_rows env))) as [|e dataset].
  - intros H. injection H as <-. cbn [tr_payload tr_scores results].
    unfold dedup_topk, py_slice_to. cbn [sort_desc foldr best_per_id foldl dict_values map].
    destruct (0 <=? topk); rewrite take_nil; reflexivity.
  - unfold search.
    destruct (coarse_stage _ _ _) as [shortlist| |]; cbn [obind]; try discriminate.
    intros H. injection H as <-. reflexivity.
Qed.

(** C4.  In every payload [main] prints, no [desertion_no] occurs twice in
    the results, and each result is one of the entries scored in stage 2,
    with the metadata of that entry, whose similarity no scored entry of the
    same [desertion_no] exceeds. *)
Theorem results_deduplicated (env : Env) (topk : Z) (payload : Payload) :
  main env topk = Ret payload ->
  NoDup (map r_desertion_no (results payload)) /\
  exists tr,
    main_trace env topk = Ret tr /\ payload = tr_payload tr /\
    forall r, r ∈ results payload ->
      exists e,
        (r_similarity r, e) ∈ tr_scores tr /\
        r = to_result (r_similarity r, e) /\
        forall s' e', (s', e') ∈ tr_scores tr ->
                      desertion_no e' = r_desertion_no r ->
                      (s' <= r_similarity r)%R.
Proof.
  unfold main. destruct (main_trace env topk) as [tr| |] eqn:Htr;
    cbn [obind]; try discriminate.
  intros H. injection H as <-.
  rewrite (main_trace_results env topk tr Htr).
  destruct (dedup_topk_spec (tr_scores tr) topk) as [Hnd Hmax].
  split.
  - rewrite map_map.
    erewrite map_ext; [exact Hnd|]. intros [s e]. reflexivity.
  - exists tr. split; [reflexivity|]. split; [reflexivity|].
    intros r Hr. apply list_elem_of_In, in_map_iff in Hr as ([s e] & <- & Hin).
    apply list_elem_of_In in Hin. destruct (Hmax (s, e) Hin) as [Hsc Hle].
    exists e. cbn [to_result r_similarity r_desertion_no].
    split; [exact Hsc|]. split; [reflexivity|].
    intros s' e' Hin' Hid. exact (Hle (s', e') Hin' Hid).
Qed.

(** *** C6 and C7 *)

(** C6.  Once the image is found and the head is loaded: a query vector
    longer than the configured dimension is cut to its first [EMBED_DIM]
    entries and [main] goes on with the cut vector; a query vector shorter
    than the configured dimension makes [main] raise the dimension-mismatch
    error, at once, without padding the vector or trying it again. *)
Theorem query_dimension_handling (env : Env) (topk : Z) (head : TinyHead) :
  image_is_file env = true ->
  load_head env = Ret head ->
  (EMBED_DIM < Z.of_nat (length (query_embedding env)) ->
     fit_query (query_embedding env)
       = Ret (take (Z.to_nat EMBED_DIM) (query_embedding env)) /\
     Z.of_nat (length (take (Z.to_nat EMBED_DIM) (query_embedding env))) = EMBED_DIM /\
     main_trace env topk =
       match apply_filters env (load_embeddings (db_rows env)) with
       | [] => Ret {| tr_shortlist := []; tr_scores := [];
                      tr_payload := {| query_bbox := bbox_of (detection env);
                                       results := [] |} |}
       | dataset =>
           search env head (take (Z.to_nat EMBED_DIM) (query_embedding env))
                  dataset topk
       end) /\
  (Z.of_nat (length (query_embedding env)) < EMBED_DIM ->
     main env topk =
       Raise (RuntimeError "Query embedding dim does not match expected EMBED_DIM")).
Proof.
  intros Himg Hhead.
  assert (0 <= EMBED_DIM) as Hdim.
  { unfold load_head in Hhead. destruct (checkpoint env); [|discriminate].
    destruct (Z.ltb_spec EMBED_DIM 0); [discriminate|lia]. }
  split.
  - intros Hlong.
    assert (fit_query (query_embedding env)
            = Ret (take (Z.to_nat EMBED_DIM) (query_embedding env))) as Hfit.
    { unfold fit_query.
      destruct (Z.eqb_spec (Z.of_nat (length (query_embedding env))) EMBED_DIM); [lia|].
      destruct (Z.ltb_spec EMBED_DIM (Z.of_nat (length (query_embedding env)))); [|lia].
      unfold py_slice_to. destruct (Z.leb_spec 0 EMBED_DIM); [reflexivity|lia]. }
    split; [exact Hfit|]. split; [rewrite length_take; lia|].
    unfold main_trace. rewrite Himg, Hhead, Hfit. cbn [negb obind].
    destruct (apply_filters env (load_embeddings (db_rows env))); reflexivity.
  - intros Hshort. unfold main, main_trace. rewrite Himg, Hhead. cbn [negb obind].
    unfold fit_query.
    destruct (Z.eqb_spec (Z.of_nat (length (query_embedding env))) EMBED_DIM); [lia|].
    destruct (Z.ltb_spec EMBED_DIM (Z.of_nat (length (query_embedding env)))); [lia|].
    reflexivity.
Qed.

(** C7.  Once the query vector is in hand (the image is found, the head is
    loaded, the vector is not shorter than the configured dimension): when
    the filters leave no stored embedding, [main] raises nothing and prints
    a payload with the detection's box and confidence and an empty result
    list. *)
Theorem empty_dataset_payload (env : Env) (topk : Z) (head : TinyHead) :
  image_is_file env = true ->
  load_head env = Ret head ->
  EMBED_DIM <= Z.of_nat (length (query_embedding env)) ->
  apply_filters env (load_embeddings (db_rows env)) = [] ->
  main env topk =
    Ret {| query_bbox := {| x1 := (bbox (detection env)).1.1.1;
                            y1 := (bbox (detection env)).1.1.2;
                            x2 := (bbox (detection env)).1.2;
                            y2 := (bbox (detection env)).2;
                            qb_conf := conf (detection env) |};
           results := [] |}.
Proof.
  intros Himg Hhead Hlen Hempty.
  unfold main, main_trace. rewrite Himg, Hhead. cbn [negb obind].
  assert (exists q, fit_query (query_embedding env) = Ret q) as [q Hq].
  { unfold fit_query.
    destruct (Z.eqb_spec (Z.of_nat (length (query_embedding env))) EMBED_DIM);
      [eauto|].
    destruct (Z.ltb_spec EMBED_DIM (Z.of_nat (length (query_embedding env))));
      [eauto|lia]. }
  rewrite Hq, Hempty. cbn [obind tr_payload]. unfold bbox_of.
  destruct (bbox (detection env)) as [[[a b] c] d]. reflexivity.
Qed.

End Main.

Lemma insert_desc_tie {A} (key : A -> R) (x y : A) (l : list A) :
  key x = key y -> insert_desc key x (y :: l) = x :: y :: l.
Proof.
  intros H. cbn [insert_desc].
  destruct (Rlt_dec (key x) (key y)) as [Hlt|]; [|reflexivity].
  rewrite H in Hlt. exfalso. exact (Rlt_irrefl _ Hlt).
Qed.

(** Both sides are shortlisted and scored alike; one of them is printed. *)
Lemma ex_main_run :
  ex_main (ex_env [1%R; 0%R] [ex_row "popfile1"; ex_row "popfile2"]) 20
    = Ret ex_payload.
Proof.
  unfold ex_main, main, main_trace.
  change (image_is_file (ex_env _ _)) with true. cbn [negb].
  change (load_head (ex_env _ _)) with (Ret (A := TinyHead) ex_head).
  cbn [obind query_embedding ex_env].
  change (fit_query (cfg := ex_config 500) [1%R; 0%R]) with (Ret (A := list R) [1%R; 0%R]).
  cbn [obind].
  assert (apply_filters (cfg := ex_config 500)
            (ex_env [1%R; 0%R] [ex_row "popfile1"; ex_row "popfile2"])
            (load_embeddings (cfg := ex_config 500)
               [ex_row "popfile1"; ex_row "popfile2"])
          = [ex_emb "popfile1"; ex_emb "popfile2"]) as Hds by reflexivity.
  cbn [db_rows ex_env] in Hds |- *. rewrite Hds. clear Hds.
  unfold search.
  assert (coarse_stage (cfg := ex_config 500) [ex_emb "popfile1"; ex_emb "popfile2"]
                       (F_normalize [1%R; 0%R]) 20
          = Ret [ex_emb "popfile1"; ex_emb "popfile2"]) as ->.
  { unfold coarse_stage, torch_topk. cbn [length map mat_vec Z.of_nat].
    change ((Z.min 2 (Z.max 20 500) <? 0) || (2 <? Z.min 2 (Z.max 20 500)))
      with false.
    cbv iota. cbn [obind].
    change (Z.to_nat (Z.min 2 (Z.max 20 500))) with 2%nat.
    cbn [seq zip zip_with sort_desc foldr].
    change (insert_desc fst ?x []) with [x].
    rewrite insert_desc_tie by reflexivity.
    reflexivity. }
  cbn [obind]. rewrite rerank_map. cbn [map]. unfold rerank_one.
  cbn [vec ex_emb]. fold ex_sim.
  unfold dedup_topk. cbn [sort_desc foldr].
  change (insert_desc fst ?x []) with [x].
  rewrite insert_desc_tie by reflexivity.
  unfold best_per_id. cbn [foldl]. unfold dedup_step at 2.
  cbn [dict_get dict_set snd desertion_no ex_emb].
  unfold dedup_step. cbn [dict_get dict_set snd fst desertion_no ex_emb].
  destruct (decide ("A" = "A")) as [_|Hne]; [|contradiction].
  cbn [fst snd].
  destruct (Rlt_dec ex_sim ex_sim) as [Hlt|_];
    [exfalso; exact (Rlt_irrefl _ Hlt)|].
  reflexivity.
Qed.

(** C3 without a bound on K and the coarse pool size fails: when both are
    negative, here -1 on a dataset of one, the search raises and hands no
    shortlist of [min(1, max(-1, -1))] entries on. *)
Lemma shortlist_size_counterexample :
  ~ (exists tr,
       search (cfg := ex_config (-1)) (ex_env [1%R; 0%R] []) ex_head
              [1%R; 0%R] [ex_emb "popfile1"] (-1) = Ret tr /\
       Z.of_nat (length (tr_shortlist tr)) =
         Z.min (Z.of_nat (length [ex_emb "popfile1"])) (Z.max (-1) (-1))).
Proof.
  rewrite search_negative_raises by (discriminate || reflexivity).
  intros (tr & H & _). discriminate.
Qed.

Lemma shortlist_size_witness :
  exists tr,
    search (cfg := ex_config 500) (ex_env [1%R; 0%R] []) ex_head [1%R; 0%R]
           [ex_emb "popfile1"; ex_emb "popfile2"] 20 = Ret tr /\
    map snd (tr_scores tr) = tr_shortlist tr /\
    Z.of_nat (length (tr_shortlist tr)) =
      Z.min (Z.of_nat (length [ex_emb "popfile1"; ex_emb "popfile2"])) (Z.max 20 500).
Proof.
  apply (shortlist_size (cfg := ex_config 500) (ex_env [1%R; 0%R] []) ex_head [1%R; 0%R]
           [ex_emb "popfile1"; ex_emb "popfile2"] 20).
  - discriminate.
  - lia.
Defined.

Lemma results_deduplicated_witness :
  NoDup (map r_desertion_no (results ex_payload)) /\
  exists tr,
    main_trace (cfg := ex_config 500)
               (ex_env [1%R; 0%R] [ex_row "popfile1"; ex_row "popfile2"]) 20
      = Ret tr /\
    ex_payload = tr_payload tr /\
    forall r, r ∈ results ex_payload ->
      exists e,
        (r_similarity r, e) ∈ tr_scores tr /\
        r = to_result (r_similarity r, e) /\
        forall s' e', (s', e') ∈ tr_scores tr ->
                      desertion_no e' = r_desertion_no r ->
                      (s' <= r_similarity r)%R.
Proof.
  apply (results_deduplicated (cfg := ex_config 500)
           (ex_env [1%R; 0%R] [ex_row "popfile1"; ex_row "popfile2"]) 20 ex_payload).
  exact ex_main_run.
Defined.

Lemma query_dimension_handling_witness :
  (fit_query (cfg := ex_config 500) [1%R; 0%R; 0%R] = Ret (take (Z.to_nat 2) [1%R; 0%R; 0%R]) /\
   Z.of_nat (length (take (Z.to_nat 2) [1%R; 0%R; 0%R])) = 2 /\
   main_trace (cfg := ex_config 500)
              (ex_env [1%R; 0%R; 0%R] [ex_row "popfile1"]) 20 =
     match apply_filters (cfg := ex_config 500)
                         (ex_env [1%R; 0%R; 0%R] [ex_row "popfile1"])
                         (load_embeddings (cfg := ex_config 500)
                            [ex_row "popfile1"]) with
     | [] => Ret {| tr_shortlist := []; tr_scores := [];
                    tr_payload :=
                      {| query_bbox :=
                           bbox_of (detection (ex_env [1%R; 0%R; 0%R] [ex_row "popfile1"]));
                         results := [] |} |}
     | dataset =>
         search (cfg := ex_config 500) (ex_env [1%R; 0%R; 0%R] [ex_row "popfile1"]) ex_head
                (take (Z.to_nat 2) [1%R; 0%R; 0%R]) dataset 20
     end) /\
  ex_main (ex_env [1%R] [ex_row "popfile1"]) 20 =
    Raise (RuntimeError "Query embedding dim does not match expected EMBED_DIM").
Proof.
  split.
  - apply (proj1 (query_dimension_handling (cfg := ex_config 500)
                    (ex_env [1%R; 0%R; 0%R] [ex_row "popfile1"]) 20 ex_head
                    eq_refl eq_refl)).
    cbn. lia.
  - apply (proj2 (query_dimension_handling (cfg := ex_config 500)
                    (ex_env [1%R] [ex_row "popfile1"]) 20 ex_head
                    eq_refl eq_refl)).
    cbn. lia.
Defined.

Lemma empty_dataset_payload_witness :
  ex_main (ex_env [1%R; 0%R] []) 20 =
    Ret {| query_bbox := {| x1 := 1; y1 := 2; x2 := 3; y2 := 4; qb_conf := 1%R |};
           results := [] |}.
Proof.
  apply (empty_dataset_payload (cfg := ex_config 500) (ex_env [1%R; 0%R] []) 20 ex_head).
  - reflexivity.
  - reflexivity.
  - cbn. lia.
  - reflexivity.
Defined.

End RetrieverFacts.

(** ** More on the [Projector] *)

Module ProjectorFacts.
Import Numeric NumericFacts Projection ProjectionFacts ProjectorNotions.

Section Generator.
Variable normals : nat -> R.

Lemma project_eq (P : Projector) (vec : list R) (t : nat) :
  length vec <> t ->
  exists mat,
    (project_matrix normals P (length vec, t)).1 = Some mat /\
    project normals P vec t =
      (Some (if Rlt_dec 0 (norm (mat_vec mat vec))
             then map (fun x => (x / norm (mat_vec mat vec))%R) (mat_vec mat vec)
             else mat_vec mat vec),
       (project_matrix normals P (length vec, t)).2).
Proof.
  intros Hne. destruct (project_matrix_some normals P (length vec, t)) as [mat Hm].
  exists mat. split; [exact Hm|].
  unfold project. rewrite decide_False by exact Hne.
  destruct (project_matrix normals P (length vec, t)) as [om P'].
  cbn [fst snd] in *. subst om.
  destruct (Rlt_dec 0 (norm (mat_vec mat vec))) as [Hpos|]; [|reflexivity].
  rewrite np_divide_nonzero by lra. reflexivity.
Qed.

Lemma project_matrix_shape (P : Projector) (key : nat * nat) (mat : list (list R)) :
  Projector_wf P ->
  (project_matrix normals P key).1 = Some mat ->
  Projector_wf (project_matrix normals P key).2 /\
  length mat = key.2 /\ Forall (fun row => length row = key.1) mat.
Proof.
  intros Hwf. destruct (cache P !! key) as [m|] eqn:Hc.
  - rewrite (project_matrix_hit _ _ _ _ Hc). cbn [fst snd]. intros [= <-].
    split; [exact Hwf|]. apply Hwf, Hc.
  - rewrite (project_matrix_miss _ _ _ Hc). cbn [fst snd]. intros [= <-].
    assert (length (map (fun row => map (fun x => (x / (norm row + row_eps))%R) row)
                        (standard_normal normals (rng P) key.2 key.1).1) = key.2 /\
            Forall (fun row => length row = key.1)
                   (map (fun row => map (fun x => (x / (norm row + row_eps))%R) row)
                        (standard_normal normals (rng P) key.2 key.1).1)) as Hshape.
    { unfold standard_normal. cbn [fst]. split.
      - rewrite !length_map, length_seq. reflexivity.
      - apply Forall_forall. intros row Hrow.
        apply list_elem_of_fmap in Hrow as (raw & -> & Hraw).
        apply list_elem_of_fmap in Hraw as (i & -> & _).
        rewrite !length_map, length_seq. reflexivity. }
    split; [|exact Hshape].
    intros key' mat'. cbn [cache]. rewrite lookup_insert.
    destruct (decide (key = key')) as [<-|Hk].
    + intros [= <-]. exact Hshape.
    + apply Hwf.
Qed.

(** Starting from a well-shaped cache (the empty one of a new [Projector]
    is), [project] keeps the cache well-shaped and returns a vector of
    exactly [target_dim] entries. *)
Theorem project_output_length (P : Projector) (vec : list R) (target_dim : nat) :
  Projector_wf P ->
  Projector_wf (project normals P vec target_dim).2 /\
  exists out, (project normals P vec target_dim).1 = Some out /\
              length out = target_dim.
Proof.
  intros Hwf. destruct (decide (length vec = target_dim)) as [<-|Hne].
  - rewrite project_same_dim. cbn [fst snd]. split; [exact Hwf|]. eauto.
  - destruct (project_eq P vec target_dim Hne) as (mat & Hm & ->).
    cbn [fst snd].
    destruct (project_matrix_shape P _ mat Hwf Hm) as (Hwf' & Hrows & _).
    split; [exact Hwf'|]. eexists. split; [reflexivity|].
    destruct (Rlt_dec _ _); unfold mat_vec; rewrite ?length_map; exact Hrows.
Qed.

(** Once a vector of some length has been projected to a dimension, every
    later projection of a vector of that length to that dimension leaves the
    projector as it is, and projecting the same vector again gives the same
    output. *)
Theorem project_reuses_matrix (P : Projector) (vec vec' : list R) (target_dim : nat) :
  length vec' = length vec ->
  (project normals (project normals P vec target_dim).2 vec' target_dim).2 =
    (project normals P vec target_dim).2 /\
  (project normals (project normals P vec target_dim).2 vec target_dim).1 =
    (project normals P vec target_dim).1.
Proof.
  intros Hlen. split; [|rewrite project_again; reflexivity].
  destruct (decide (length vec = target_dim)) as [Heq|Hne].
  - unfold project at 1. rewrite decide_True by congruence. reflexivity.
  - destruct (project_caches normals P vec target_dim Hne) as [mat Hc].
    destruct (project_eq (project normals P vec target_dim).2 vec' target_dim)
      as (mat' & _ & ->); [congruence|].
    cbn [snd]. rewrite Hlen. rewrite (project_matrix_hit _ _ _ _ Hc). reflexivity.
Qed.

End Generator.

Lemma Projector_init_wf : Projector_wf Projector_init.
Proof. intros key mat H. cbn in H. rewrite lookup_empty in H. discriminate. Qed.

Lemma project_output_length_witness :
  Projector_wf (project sample_normals Projector_init [1%R; 0%R; 0%R; 0%R] 2).2 /\
  exists out, (project sample_normals Projector_init [1%R; 0%R; 0%R; 0%R] 2).1 = Some out /\
              length out = 2.
Proof.
  apply (project_output_length sample_normals Projector_init [1%R; 0%R; 0%R; 0%R] 2).
  exact Projector_init_wf.
Defined.

Lemma project_reuses_matrix_witness :
  (project sample_normals
     (project sample_normals Projector_init [1%R; 0%R; 0%R; 0%R] 2).2
     [0%R; 1%R; 0%R; 0%R] 2).2 =
    (project sample_normals Projector_init [1%R; 0%R; 0%R; 0%R] 2).2 /\
  (project sample_normals
     (project sample_normals Projector_init [1%R; 0%R; 0%R; 0%R] 2).2
     [1%R; 0%R; 0%R; 0%R] 2).1 =
    (project sample_normals Projector_init [1%R; 0%R; 0%R; 0%R] 2).1.
Proof.
  apply (project_reuses_matrix sample_normals Projector_init
           [1%R; 0%R; 0%R; 0%R] [0%R; 1%R; 0%R; 0%R] 2).
  reflexivity.
Defined.

End ProjectorFacts.

(** ** More on [fetch_embeddings], [__getitem__] and [train] *)

Module TrainingFacts.
Import Numeric NumericFacts Py PyFacts Sampler SamplerFacts Head Trainer TrainerFacts.
Import TrainingNotions.
Local Open Scope py_scope.

(** *** [fetch_embeddings] *)

Lemma fetch_embeddings_snoc (u : bool) (rows : list Row) (r : Row) :
  fetch_embeddings u (rows ++ [r]) = add_row u (fetch_embeddings u rows) r.
Proof. unfold fetch_embeddings. apply foldl_snoc. Qed.

Lemma rows_of_snoc (u : bool) (k : string) (rows : list Row) (r : Row) :
  rows_of u k (rows ++ [r]) =
  rows_of u k rows ++
  (if bool_decide (Sampler.desertion_no r = k) && has_vecs u r then [r] else []).
Proof. unfold rows_of. rewrite List.filter_app. reflexivity. Qed.

(** [fetch_embeddings] groups the rows by id: the dictionary it returns has
    each id once; an id is a key exactly when one of its rows has a vector;
    the vectors stored for it are those of its rows, in the order fetched,
    and its kind and color are those of its first such row. *)
Theorem fetch_embeddings_groups (use_vec34 : bool) (rows : list Row) :
  dict_wf (fetch_embeddings use_vec34 rows) /\
  forall k,
    dict_get (fetch_embeddings use_vec34 rows) k =
    match rows_of use_vec34 k rows with
    | [] => None
    | r0 :: rest =>
        Some {| vecs := concat (map (row_vecs use_vec34) (r0 :: rest));
                kind := kind_cd r0; color := color_cd r0 |}
    end.
Proof.
  induction rows as [|r rows [IHwf IH]] using rev_ind.
  - split; [constructor|]. intros k. reflexivity.
  - rewrite fetch_embeddings_snoc. unfold add_row.
    destruct (row_vecs use_vec34 r) as [|v vs] eqn:Hrv.
    + split; [exact IHwf|]. intros k. rewrite rows_of_snoc. unfold has_vecs.
      rewrite Hrv, andb_false_r, app_nil_r. apply IH.
    + split; [apply dict_set_wf, IHwf|]. intros k.
      rewrite dict_get_set, rows_of_snoc. unfold has_vecs at 1. rewrite Hrv, andb_true_r.
      destruct (decide (k = Sampler.desertion_no r)) as [->|Hk].
      * rewrite bool_decide_true by reflexivity. rewrite IH.
        destruct (rows_of use_vec34 (Sampler.desertion_no r) rows) as [|r0 rest].
        -- cbn [app default vecs kind color map concat].
           rewrite Hrv, app_nil_r. reflexivity.
        -- cbn [default kind color vecs app].
           change (r0 :: rest ++ [r]) with ((r0 :: rest) ++ [r]).
           rewrite map_app, concat_app. cbn [map concat].
           rewrite Hrv, app_nil_r. reflexivity.
      * rewrite bool_decide_false by congruence. rewrite app_nil_r. apply IH.
Qed.

(** *** [__getitem__] does not raise *)

Section Robust.
Variable rand : nat -> nat.

Lemma resample_no_raise (pool : list string) (did : string) (fuel : nat) :
  pool <> [] ->
  forall (x : string) (p : nat) (e : exn),
    (resample rand fuel pool did x p).1 <> Raise e.
Proof.
  intros Hpool. induction fuel as [|fuel IH]; intros x p e; cbn [resample];
    destruct (decide (x = did)); try discriminate.
  destruct (choice_nonempty rand pool p Hpool) as (x' & Hc & _).
  rewrite (bind_ret _ _ _ _ _ Hc). apply IH.
Qed.

(** On a dataset built by [__init__], [__getitem__] raises only when there
    is no eligible entity at all, and then it is the [ZeroDivisionError] of
    [idx % len(self.ids)], met before anything is drawn; with at least one
    eligible entity no index, no generator and no amount of fuel makes it
    raise: every lookup and every draw finds what it asks for. *)
Theorem getitem_never_raises (g : list (string * Info)) (lm idx : Z)
    (fuel pos : nat) :
  dict_wf g ->
  (ids (TripletDataset_init g lm) = [] ->
     getitem rand (TripletDataset_init g lm) idx fuel pos
       = (Raise ZeroDivisionError, pos)) /\
  (ids (TripletDataset_init g lm) <> [] ->
     forall e, (getitem rand (TripletDataset_init g lm) idx fuel pos).1 <> Raise e).
Proof.
  intros Hwf.
  pose proof (grouped_init_wf g lm Hwf) as Hwf'.
  set (ds := TripletDataset_init g lm) in *.
  split.
  - intros Hnil. unfold getitem, draw_triplet. rewrite Hnil. reflexivity.
  - intros Hne e.
    set (n := length (ids ds)).
    assert (n <> 0) as Hn by (unfold n; destruct (ids ds); [contradiction|discriminate]).
    set (r := Z.to_nat (idx mod Z.of_nat n)).
    assert (r < n) as Hr.
    { unfold r. pose proof (Z.mod_pos_bound idx (Z.of_nat n)). lia. }
    destruct (lookup_lt_is_Some_2 (ids ds) r Hr) as [did Hdid].
    assert (did ∈ dict_keys (grouped ds)) as Hdk
      by (apply list_elem_of_lookup; eauto).
    destruct (dict_get_key_elem _ _ Hdk) as [info Hinfo].
    destruct (sample2_enough rand (vecs info) pos (eligible_vecs _ _ _ _ Hinfo))
      as (anchor & ps & Hsample).
    assert (exists weak p1,
      match List.filter (fun x => negb (bool_decide (x = did)))
                        (default [] (by_meta ds !! meta_key info)) with
      | [] => ret ps
      | _ =>
          let* w_id := choice rand
             (List.filter (fun x => negb (bool_decide (x = did)))
                          (default [] (by_meta ds !! meta_key info))) in
          let* winfo := from_option (KeyError w_id) (dict_get (grouped ds) w_id) in
          choice rand (vecs winfo)
      end%py (S (S pos)) = (Ret weak, p1)) as (weak & p1 & Hweak).
    { destruct (List.filter _ _) as [|w0 ws] eqn:Hf; [eexists _, _; reflexivity|].
      destruct (choice_nonempty rand (w0 :: ws) (S (S pos))) as (w_id & Hc & Hw);
        [discriminate|].
      assert (w_id ∈ w0 :: ws) as Hin by (apply list_elem_of_lookup; eauto).
      rewrite <- Hf in Hin. apply list_elem_of_In, filter_In in Hin as [Hin _].
      apply list_elem_of_In, by_meta_init in Hin as (winfo & Hwin & _).
      apply (dict_get_elem _ _ _ Hwf') in Hwin.
      destruct (choice_vecs rand g lm w_id winfo (S (S (S pos))) Hwin) as [v Hv].
      exists v, (S (S (S (S pos)))).
      rewrite (bind_ret _ _ _ _ _ Hc).
      unfold bind at 1. fold ds. rewrite Hwin. cbn [from_option ret]. exact Hv. }
    change (neg_ids ds) with (ids ds) in *.
    destruct (choice_nonempty rand (ids ds) p1 Hne) as (neg0 & Hneg0 & Hneg0l).
    assert (neg0 ∈ ids ds) as Hneg0in by (apply list_elem_of_lookup; eauto).
    unfold getitem, draw_triplet. fold ds. fold n.
    rewrite decide_False by exact Hn.
    unfold bind at 1. unfold bind at 1. fold r. rewrite Hdid. cbn [from_option ret].
    unfold bind at 1. rewrite Hinfo. cbn [from_option ret].
    rewrite (bind_ret _ _ _ _ _ Hsample).
    rewrite (bind_ret _ _ _ _ _ Hweak).
    change (neg_ids ds) with (ids ds).
    rewrite (bind_ret _ _ _ _ _ Hneg0).
    pose proof (resample_no_raise (ids ds) did fuel Hne neg0 (S p1)) as Hnr.
    destruct (resample rand fuel (ids ds) did neg0 (S p1)) as [[neg_id|e'|] p2] eqn:Hres.
    + apply resample_ret_inv in Hres as Hy. destruct Hy as [_ Hy].
      assert (neg_id ∈ ids ds) as Hnin by (destruct Hy as [->|]; assumption).
      destruct (dict_get_key_elem (grouped ds) neg_id Hnin) as [ninfo Hninfo].
      destruct (choice_vecs rand g lm neg_id ninfo p2 Hninfo) as [negative Hnegative].
      rewrite (bind_ret _ _ _ _ _ Hres).
      unfold bind at 1. fold ds. rewrite Hninfo. cbn [from_option ret].
      rewrite (bind_ret _ _ _ _ _ Hnegative). discriminate.
    + exfalso. exact (Hnr e' eq_refl).
    + rewrite (bind_diverge _ _ _ _ Hres). discriminate.
Qed.

End Robust.

(** *** One pass over the dataset *)

Lemma filter_eqb_seq (r len : nat) :
  forall a, length (List.filter (fun j => Nat.eqb j r) (seq a len)) =
            if decide (a <= r < a + len)%nat then 1%nat else 0%nat.
Proof.
  induction len as [|len IH]; intros a; cbn [seq List.filter].
  - rewrite decide_False by lia. reflexivity.
  - destruct (Nat.eqb_spec a r) as [->|Hne]; cbn [length]; rewrite IH.
    + rewrite decide_False by lia. rewrite decide_True by lia. reflexivity.
    + destruct (decide (S a <= r < S a + len)%nat);
        [rewrite decide_True by lia|rewrite decide_False by lia]; reflexivity.
Qed.

Lemma filter_mod_block (n r k : nat) :
  (r < n)%nat ->
  length (List.filter (fun i => Nat.eqb (i mod n) r) (seq (n * k) n)) = 1%nat.
Proof.
  intros Hr.
  rewrite <- (Nat.add_0_r (n * k)), <- fmap_add_seq.
  change (fmap (M := list) ?f ?l) with (map f l).
  assert (forall l, Forall (fun j => (j < n)%nat) l ->
            length (List.filter (fun i => Nat.eqb (i mod n) r)
                                (map (fun j => (n * k + j)%nat) l)) =
            length (List.filter (fun j => Nat.eqb j r) l)) as Hmap.
  { induction 1 as [|j l Hj _ IH]; [reflexivity|]. cbn [map List.filter].
    replace ((n * k + j) mod n)%nat with j.
    - destruct (Nat.eqb j r); cbn [length]; rewrite IH; reflexivity.
    - rewrite Nat.add_comm, Nat.mul_comm, Nat.Div0.mod_add.
      symmetry. apply Nat.mod_small, Hj. }
  rewrite Hmap.
  - rewrite filter_eqb_seq. rewrite decide_True by lia. reflexivity.
  - apply Forall_forall. intros j Hj. apply list_elem_of_In, in_seq in Hj. lia.
Qed.

Lemma filter_mod_seq (n r m : nat) :
  (r < n)%nat ->
  length (List.filter (fun i => Nat.eqb (i mod n) r) (seq 0 (n * m))) = m.
Proof.
  intros Hr. induction m as [|m IH].
  - rewrite Nat.mul_0_r. reflexivity.
  - replace (n * S m)%nat with (n * m + n)%nat by lia.
    rewrite seq_app, List.filter_app, length_app, IH. cbn [Nat.add].
    rewrite filter_mod_block by exact Hr. lia.
Qed.

Section Pass.
Variable rand : nat -> nat.

(** The anchor of the sample of index [idx] is the entity at position
    [idx % len(self.ids)], so that in one pass over the dataset, the indices
    [0 .. len(ds) - 1], every eligible entity is the anchor of exactly
    [max(1, length_mult)] samples. *)
Theorem anchors_balanced (g : list (string * Info)) (lm : Z) :
  dict_wf g ->
  (forall idx fuel pos pos' t,
     draw_triplet rand (TripletDataset_init g lm) idx fuel pos = (Ret t, pos') ->
     ids (TripletDataset_init g lm)
       !! anchor_position (TripletDataset_init g lm) idx = Some (t_did t)) /\
  (forall did, did ∈ ids (TripletDataset_init g lm) ->
     length (anchor_indices (TripletDataset_init g lm) did) = Z.to_nat (Z.max 1 lm)).
Proof.
  intros Hwf. pose proof (grouped_init_wf g lm Hwf) as Hnd.
  set (ds := TripletDataset_init g lm) in *.
  split.
  - intros idx fuel pos pos' t H. unfold draw_triplet in H.
    destruct (decide (length (ids ds) = 0)) as [|Hn]; [discriminate|].
    apply bind_ret_inv in H as (did & s1 & Hdid & H).
    apply from_option_ret_inv in Hdid as [Hdid ->].
    apply bind_ret_inv in H as (info & s2 & _ & H).
    apply bind_ret_inv in H as ([anchor ps] & s3 & _ & H).
    apply bind_ret_inv in H as (weak & s4 & _ & H).
    apply bind_ret_inv in H as (neg0 & s5 & _ & H).
    apply bind_ret_inv in H as (neg_id & s6 & _ & H).
    apply bind_ret_inv in H as (ninfo & s7 & _ & H).
    apply bind_ret_inv in H as (negative & s8 & _ & H).
    injection H as <- _. exact Hdid.
  - intros did Hin. apply list_elem_of_lookup in Hin as [r Hr].
    pose proof (lookup_lt_Some _ _ _ Hr) as Hlt.
    set (n := length (ids ds)) in *.
    unfold anchor_indices, TripletDataset_len. fold n.
    change (length_mult ds) with (Z.max 1 lm).
    replace (Z.to_nat (Z.of_nat n * Z.max 1 lm))
      with (n * Z.to_nat (Z.max 1 lm))%nat by lia.
    rewrite <- (filter_mod_seq n r (Z.to_nat (Z.max 1 lm)) Hlt) at 2.
    f_equal. apply filter_ext. intros i.
    assert (anchor_position ds (Z.of_nat i) = (i mod n)%nat) as ->.
    { unfold anchor_position. fold n. rewrite <- Nat2Z.inj_mod. apply Nat2Z.id. }
    assert ((i mod n < n)%nat) as Hi by (apply Nat.mod_upper_bound; lia).
    destruct (Nat.eqb_spec (i mod n) r) as [->|Hne].
    + apply bool_decide_eq_true. exact Hr.
    + apply bool_decide_eq_false. intros Hi'. apply Hne.
      eapply NoDup_lookup; [exact Hnd|exact Hi'|exact Hr].
Qed.

End Pass.

(** *** [train]: runs without epochs *)

Section TrainRun.
Context {env : Setting}.
Local Open Scope Z_scope.

Lemma train_setup_model (table : string) (embed_dim batch_size : Z) (margin : R)
    (epochs : Z) (lr : R) (length_mult num_workers : Z) (w w1 : World)
    (train_dl : DataLoader) (valid_dl : option DataLoader) (model : TinyHead)
    (opt : Opt) :
  train_setup table embed_dim batch_size margin epochs lr length_mult num_workers w
    = (Ret (train_dl, valid_dl, model, opt), w1) ->
  model = (init_head (torch_rng w) embed_dim).1.
Proof.
  assert (forall ds bs sh nw (w0 w0' : World) dl,
            DataLoader_init ds bs sh nw w0 = (Ret dl, w0') -> w0' = w0) as Hdl.
  { intros ds bs sh nw w0 w0' dl. unfold DataLoader_init.
    destruct (nw <? 0); [discriminate|].
    destruct (sh && _); [discriminate|].
    destruct (bs <=? 0); [discriminate|]. intros [= _ <-]. reflexivity. }
  unfold train_setup.
  destruct (fetch_embeddings use_vec34 (db table "train")) as [|item tg];
    [discriminate|].
  intros H.
  apply bind_ret_inv in H as (tdl & w2 & H2 & H). apply Hdl in H2 as ->.
  apply bind_ret_inv in H as (vdl & w3 & H3 & H).
  assert (w3 = w) as ->.
  { destruct (fetch_embeddings use_vec34 (db table "valid")); [injection H3; congruence|].
    destruct (truthy _); [|injection H3; congruence].
    apply bind_ret_inv in H3 as (dl & w4 & H4 & H3). apply Hdl in H4 as ->.
    injection H3; congruence. }
  apply bind_ret_inv in H as (m & w4 & H4 & H).
  destruct (embed_dim <? 0); [discriminate|].
  unfold with_torch in H4.
  destruct (init_head (torch_rng w) embed_dim) as [m0 t0]. injection H4 as <- <-.
  apply bind_ret_inv in H as ([] & w5 & _ & H).
  apply bind_ret_inv in H as ([] & w6 & _ & H).
  apply bind_ret_inv in H as ([] & w7 & _ & H).
  apply bind_ret_inv in H as ([] & w8 & _ & H).
  injection H as _ _ <- _. reflexivity.
Qed.

(** With [epochs <= 0] no epoch runs, and a run of [train] that returns has
    still written a checkpoint: it holds the weights the head was created
    with, untrained. *)
Theorem train_zero_epochs (table : string) (embed_dim batch_size : Z)
    (margin : R) (epochs : Z) (lr : R) (length_mult num_workers : Z)
    (fuel : nat) (w w' : World) :
  epochs <= 0 ->
  train table embed_dim batch_size margin epochs lr length_mult num_workers fuel w
    = (Ret tt, w') ->
  fs w' !! ckpt_path OUT_DIR embed_dim =
    Some {| state_dict := (init_head (torch_rng w) embed_dim).1;
            ck_embed_dim := embed_dim; ck_table := table;
            ck_epochs := epochs; ck_margin := margin |} /\
  exists out, stdout w' = stdout w ++ out /\ epoch_weights out = [].
Proof.
  intros Hz. unfold train. intros H.
  apply bind_ret_inv in H as ([[[train_dl valid_dl] model0] opt0] & w1 & H1 & H).
  pose proof (train_setup_model _ _ _ _ _ _ _ _ _ _ _ _ _ _ H1) as Hm.
  destruct (train_setup_logs _ _ _ _ _ _ _ _ _ _ _ H1) as (Hf1 & out1 & Ho1 & HP1).
  apply plain_no_reports in HP1 as [He1 _].
  replace (Z.to_nat epochs) with 0%nat in H by lia. cbn [run_epochs] in H.
  apply bind_ret_inv in H as ([model opt] & w2 & H2 & H).
  injection H2 as <- <- <-.
  apply bind_ret_inv in H as ([] & w3 & H3 & H).
  injection H3 as <-. injection H as <-. cbn [fs stdout].
  split.
  - rewrite lookup_insert_eq, Hm. reflexivity.
  - exists (out1 ++ [PrintSaved (ckpt_path OUT_DIR embed_dim)]).
    rewrite Ho1, <- app_assoc. split; [reflexivity|].
    rewrite epoch_weights_app, He1. reflexivity.
Qed.

End TrainRun.

Lemma anchors_balanced_witness :
  (forall idx fuel pos pos' t,
     draw_triplet counter (TripletDataset_init ex_grouped 25) idx fuel pos
       = (Ret t, pos') ->
     ids (TripletDataset_init ex_grouped 25)
       !! anchor_position (TripletDataset_init ex_grouped 25) idx = Some (t_did t)) /\
  (forall did, did ∈ ids (TripletDataset_init ex_grouped 25) ->
     length (anchor_indices (TripletDataset_init ex_grouped 25) did)
       = Z.to_nat (Z.max 1 25)).
Proof. apply (anchors_balanced counter ex_grouped 25). exact ex_grouped_wf. Defined.

Lemma getitem_never_raises_witness :
  (ids (TripletDataset_init ex_grouped 25) = [] ->
     getitem counter (TripletDataset_init ex_grouped 25) 0 5 0
       = (Raise ZeroDivisionError, 0%nat)) /\
  (ids (TripletDataset_init ex_grouped 25) <> [] ->
     forall e, (getitem counter (TripletDataset_init ex_grouped 25) 0 5 0).1 <> Raise e).
Proof.
  apply (getitem_never_raises counter ex_grouped 25 0 5 0). exact ex_grouped_wf.
Defined.

Lemma train_zero_epochs_witness :
  fs (train (env := ex_setting ex_db) "animal_embeddings_2" 2 2 (/ 5)%R 0
            (/ 1000)%R 1 0 5 (ex_world ex_db)).2 !! ckpt_path "checkpoints" 2 =
    Some {| state_dict := ex_head; ck_embed_dim := 2;
            ck_table := "animal_embeddings_2"; ck_epochs := 0; ck_margin := (/ 5)%R |} /\
  exists out,
    stdout (train (env := ex_setting ex_db) "animal_embeddings_2" 2 2 (/ 5)%R 0
                  (/ 1000)%R 1 0 5 (ex_world ex_db)).2 =
      stdout (ex_world ex_db) ++ out /\
    epoch_weights out = [].
Proof.
  apply (train_zero_epochs (env := ex_setting ex_db)
           "animal_embeddings_2" 2 2 (/ 5)%R 0 (/ 1000)%R 1 0 5 (ex_world ex_db)).
  - lia.
  - vm_compute. reflexivity.
Defined.

End TrainingFacts.

(** ** [_parse_dims] and the script body of train_triplet.py *)

Module ScriptFacts.
Import Numeric NumericFacts Py PyFacts Sampler SamplerFacts Head Trainer TrainerFacts.
Import Script.
Local Open Scope py_scope.
Local Open Scope Z_scope.

Section Parse.
Context {txt : Text}.

Lemma parse_part_inv (done : list string) (st : Parsed) (part : string) :
  parse_inv done st -> parse_inv (done ++ [part]) (parse_part st part).
Proof.
  intros (Hnd & Hseen & Hdims & Hskip).
  assert (forall (P : string -> Prop),
            (exists q, q ∈ done ++ [part] /\ P q) <->
            (exists q, q ∈ done /\ P q) \/ P part) as Hsnoc.
  { intros P. split.
    - intros (q & Hq & HP). apply elem_of_app in Hq as [Hq|Hq]; [left; eauto|].
      apply list_elem_of_singleton in Hq as ->. right. exact HP.
    - intros [(q & Hq & HP)|HP]; [exists q|exists part];
        (split; [|exact HP]); apply elem_of_app; [left; exact Hq|right].
      apply list_elem_of_singleton. reflexivity. }
  assert (forall st',
            NoDup (dims st') ->
            (forall d, d ∈ seen st' <-> d ∈ dims st') ->
            (forall d, d ∈ dims st' <->
               d ∈ dims st \/
               (str_strip part <> "" /\ py_int (str_strip part) = Some d)) ->
            (forall p, p ∈ skipped st' <->
               p ∈ skipped st \/
               (p = str_strip part /\ p <> "" /\ py_int p = None)) ->
            parse_inv (done ++ [part]) st') as Hstep.
  { intros st' H1 H2 H3 H4. split; [exact H1|]. split; [exact H2|]. split.
    - intros d. rewrite H3, Hdims.
      symmetry. apply (Hsnoc (fun q => str_strip q <> "" /\ py_int (str_strip q) = Some d)).
    - intros p. rewrite H4, Hskip.
      symmetry. apply (Hsnoc (fun q => p = str_strip q /\ p <> "" /\ py_int p = None)). }
  unfold parse_part. case_bool_decide as Hempty.
  - apply Hstep; [exact Hnd|exact Hseen|intros; intuition congruence..].
  - destruct (py_int (str_strip part)) as [d0|] eqn:Hint.
    + case_bool_decide as Hin.
      * apply Hstep; [exact Hnd|exact Hseen| |intros; intuition congruence].
        intros d. split; [tauto|]. intros [Hd|[_ [= <-]]]; [exact Hd|].
        apply Hseen, Hin.
      * apply Hstep; cbn [dims seen skipped].
        -- apply NoDup_app. split; [exact Hnd|]. split; [|apply NoDup_singleton].
           intros d Hd Hd'. apply list_elem_of_singleton in Hd' as ->.
           apply Hin, Hseen, Hd.
        -- intros d. rewrite elem_of_union, elem_of_singleton, elem_of_app,
             list_elem_of_singleton, Hseen. tauto.
        -- intros d. rewrite elem_of_app, list_elem_of_singleton.
           intuition congruence.
        -- intros; intuition congruence.
    + apply Hstep; cbn [dims seen skipped];
        [exact Hnd|exact Hseen|intros; intuition congruence|].
      intros p. rewrite elem_of_app, list_elem_of_singleton. intuition congruence.
Qed.

Lemma parse_fold_inv (parts : list string) :
  forall done st, parse_inv done st ->
                  parse_inv (done ++ parts) (foldl parse_part st parts).
Proof.
  induction parts as [|part parts IH]; intros done st H; cbn [foldl].
  - rewrite app_nil_r. exact H.
  - replace (done ++ part :: parts) with ((done ++ [part]) ++ parts)
      by (rewrite <- app_assoc; reflexivity).
    apply IH, parse_part_inv, H.
Qed.

Lemma parse_dims_inv (raw : string) : parse_inv (split_comma raw) (parse_dims raw).
Proof.
  apply (parse_fold_inv (split_comma raw) []).
  split; [constructor|]. split; [intros d; cbn; set_solver|].
  split; [intros d|intros p]; cbn; (split; [intros H|intros (q & H & _)]);
    apply elem_of_nil in H; destruct H.
Qed.

(** [_parse_dims] returns each dimension once: the values of the
    comma-separated parts that, stripped, are not empty and are accepted by
    [int]; the stripped parts [int] refuses are the ones reported as
    skipped. *)
Theorem parse_dims_distinct (raw : string) :
  NoDup (dims (parse_dims raw)) /\
  (forall d, d ∈ dims (parse_dims raw) <->
     exists part, part ∈ split_comma raw /\ str_strip part <> "" /\
                  py_int (str_strip part) = Some d) /\
  (forall p, p ∈ skipped (parse_dims raw) <->
     exists part, part ∈ split_comma raw /\ p = str_strip part /\ p <> "" /\
                  py_int p = None).
Proof.
  destruct (parse_dims_inv raw) as (Hnd & _ & Hdims & Hskip). auto.
Qed.

End Parse.

(** *** The script body *)

Section Body.
Context {env : Setting} {txt : Text} {dflt : Defaults}.

Lemma train_fs (table : string) (embed_dim batch_size : Z) (margin : R)
    (epochs : Z) (lr : R) (length_mult num_workers : Z) (fuel : nat) (w w' : World) :
  train table embed_dim batch_size margin epochs lr length_mult num_workers fuel w
    = (Ret tt, w') ->
  exists model,
    fs w' = <[ckpt_path OUT_DIR embed_dim :=
                {| state_dict := model; ck_embed_dim := embed_dim; ck_table := table;
                   ck_epochs := epochs; ck_margin := margin |}]> (fs w).
Proof.
  unfold train. intros H.
  apply bind_ret_inv in H as ([[[train_dl valid_dl] model0] opt0] & w1 & H1 & H).
  destruct (train_setup_logs _ _ _ _ _ _ _ _ _ _ _ H1) as (Hf1 & _).
  apply bind_ret_inv in H as ([model opt] & w2 & H2 & H).
  apply run_epochs_spec in H2 as (Hf2 & _).
  apply bind_ret_inv in H as ([] & w3 & H3 & H).
  injection H3 as <-. injection H as <-. cbn [fs].
  exists model. congruence.
Qed.

Lemma say_all_world (ls : list Line) (s s' : Process) (o : outcome unit) :
  say_all ls s = (o, s') -> o = Ret tt /\ world s' = world s.
Proof.
  revert s. induction ls as [|l ls IH]; intros s; cbn [say_all].
  - intros [= <- <-]. split; reflexivity.
  - unfold bind, say, modify. intros H. apply IH in H as [-> ->].
    split; reflexivity.
Qed.

Lemma run_train_inv (table : string) (d : Z) (fuel : nat) (s s' : Process) :
  run_train table d fuel s = (Ret tt, s') ->
  train table d DEFAULT_BATCH_SIZE DEFAULT_MARGIN DEFAULT_EPOCHS DEFAULT_LR
        DEFAULT_LENGTH_MULT DEFAULT_NUM_WORKERS fuel (world s) = (Ret tt, world s').
Proof.
  unfold run_train, in_world.
  destruct (train _ _ _ _ _ _ _ _ _ (world s)) as [o w'].
  intros [= -> <-]. reflexivity.
Qed.

Lemma train_dims_fs (fuel : nat) (ds : list Z) :
  NoDup ds ->
  forall s s' : Process,
    train_dims ds fuel s = (Ret tt, s') ->
    (forall d, d ∈ ds ->
       exists model,
         fs (world s') !! ckpt_path OUT_DIR d =
           Some {| state_dict := model; ck_embed_dim := d; ck_table := table_of d;
                   ck_epochs := DEFAULT_EPOCHS; ck_margin := DEFAULT_MARGIN |}) /\
    (forall p, p ∉ map (ckpt_path OUT_DIR) ds ->
       fs (world s') !! p = fs (world s) !! p).
Proof.
  induction 1 as [|d ds Hd Hnd IH]; intros s s' H; cbn [train_dims] in H.
  - injection H as <-. split; [|reflexivity].
    intros d Hd. apply elem_of_nil in Hd. destruct Hd.
  - apply bind_ret_inv in H as ([] & s1 & H1 & H).
    injection H1 as <-.
    apply bind_ret_inv in H as ([] & s2 & H2 & H).
    apply run_train_inv, train_fs in H2 as [model Hfs]. cbn [world] in Hfs.
    apply IH in H as [Hin Hout].
    split.
    + intros d' Hd'. apply elem_of_cons in Hd' as [->|Hd']; [|apply Hin, Hd'].
      exists model. rewrite Hout, Hfs; [apply lookup_insert_eq|].
      intros Hp. apply list_elem_of_fmap in Hp as (d' & Heq & Hd').
      apply ckpt_path_inj in Heq as ->. contradiction.
    + intros p Hp. cbn [map] in Hp. apply not_elem_of_cons in Hp as [Hp1 Hp2].
      rewrite (Hout p Hp2), Hfs. apply lookup_insert_ne. congruence.
Qed.

(** When the script body runs to its end, every planned call of [train]
    (one per dimension of [TRIPLET_DIM_LIST], each once, or the single
    default call when the list names none) has left its checkpoint: the
    files are different ones, each holds the dimension and the table of its
    call, and no other file has changed. *)
Theorem script_checkpoints (fuel : nat) (s s' : Process) :
  script_main fuel s = (Ret tt, s') ->
  NoDup (map (fun r => ckpt_path OUT_DIR r.2) planned) /\
  (forall table d, (table, d) ∈ planned ->
     exists model,
       fs (world s') !! ckpt_path OUT_DIR d =
         Some {| state_dict := model; ck_embed_dim := d; ck_table := table;
                 ck_epochs := DEFAULT_EPOCHS; ck_margin := DEFAULT_MARGIN |}) /\
  (forall p, p ∉ map (fun r => ckpt_path OUT_DIR r.2) planned ->
     fs (world s') !! p = fs (world s) !! p).
Proof.
  unfold script_main, planned. intros H.
  apply bind_ret_inv in H as ([] & s1 & H1 & H).
  apply say_all_world in H1 as [_ Hw1]. rewrite <- Hw1.
  destruct (parse_dims_inv DIM_LIST) as (Hnd & _).
  destruct (dims (parse_dims DIM_LIST)) as [|d0 ds0] eqn:Hds.
  - apply run_train_inv, train_fs in H as [model Hfs].
    split; [apply NoDup_singleton|]. split.
    + intros table d Hin. apply list_elem_of_singleton in Hin as [= -> ->].
      exists model. rewrite Hfs. apply lookup_insert_eq.
    + intros p Hp. cbn in Hp. rewrite list_elem_of_singleton in Hp.
      rewrite Hfs. apply lookup_insert_ne. congruence.
  - set (ds := d0 :: ds0) in *.
    apply (train_dims_fs fuel ds Hnd) in H as [Hin Hout].
    rewrite map_map. cbn [snd]. split; [|split].
    + assert (Inj eq eq (ckpt_path OUT_DIR)) as Hinj
        by (intros d1 d2; apply ckpt_path_inj).
      apply (NoDup_fmap_2 (ckpt_path OUT_DIR)), Hnd.
    + intros table d Hd. apply list_elem_of_fmap in Hd as (d' & [= -> ->] & Hd').
      apply Hin, Hd'.
    + exact Hout.
Qed.

End Body.

Lemma script_checkpoints_witness :
  NoDup (map (fun r => ckpt_path "checkpoints" r.2)
             (planned (txt := ex_text) (dflt := ex_defaults))) /\
  (forall table d, (table, d) ∈ planned (txt := ex_text) (dflt := ex_defaults) ->
     exists model,
       fs (world (ex_script ex_process).2) !! ckpt_path "checkpoints" d =
         Some {| state_dict := model; ck_embed_dim := d; ck_table := table;
                 ck_epochs := 2; ck_margin := (/ 5)%R |}) /\
  (forall p, p ∉ map (fun r => ckpt_path "checkpoints" r.2)
                     (planned (txt := ex_text) (dflt := ex_defaults)) ->
     fs (world (ex_script ex_process).2) !! p = fs (world ex_process) !! p).
Proof.
  apply (script_checkpoints (env := ex_setting ex_db) (txt := ex_text)
           (dflt := ex_defaults) 5 ex_process (ex_script ex_process).2).
  vm_compute. reflexivity.
Defined.

End ScriptFacts.

(** ** [detect_best_crop] *)

Module DetectorFacts.
Import Py Retriever Detector.
Local Open Scope Z_scope.

Section Detect.
Context {vision : Vision}.

Lemma candidate_valid (image : Image) (box : Box) (c : Image) (d : DetectionResult) :
  candidate image box = Some (c, d) ->
  c = crop image (bbox d) /\
  conf d = box_conf box /\
  cls_id d ∈ ALLOWED_CLASSES /\
  0 <= (bbox d).1.1.1 < (bbox d).1.2 /\ (bbox d).1.2 <= Z.of_nat (size image).1 /\
  0 <= (bbox d).1.1.2 < (bbox d).2 /\ (bbox d).2 <= Z.of_nat (size image).2.
Proof.
  unfold candidate. destruct (size image) as [width height].
  case_bool_decide as Hcls; cbn [negb]; [|discriminate].
  destruct (box_xyxy box) as [[[x1 y1] x2] y2].
  cbv zeta.
  match goal with
  | |- context [(?a <=? ?b) || (?c <=? ?e)] =>
      destruct (Z.leb_spec a b); [discriminate|];
      destruct (Z.leb_spec c e); [discriminate|]
  end.
  cbn [orb]. intros [= <- <-]. cbn [bbox conf cls_id fst snd].
  repeat split; try exact Hcls; lia.
Qed.

Lemma foldl_consider_result (image : Image) (results : list (option (list Box))) :
  forall best,
    foldl (consider_result image) best results =
    foldl better best (omap (M := list) (candidate image)
                            (concat (map (default []) results))).
Proof.
  assert (forall boxes best,
            foldl (consider image) best boxes =
            foldl better best (omap (M := list) (candidate image) boxes)) as Hboxes.
  { induction boxes as [|box boxes IH]; intros best; [reflexivity|].
    cbn [foldl omap list_omap]. rewrite IH. unfold consider.
    destruct (candidate image box); reflexivity. }
  induction results as [|r results IH]; intros best; [reflexivity|].
  cbn [foldl map concat]. rewrite IH, omap_app, foldl_app.
  destruct r as [boxes|]; cbn [consider_result default]; [rewrite Hboxes|];
    reflexivity.
Qed.

(** [better], folded over a list, keeps the first of its members of the
    highest confidence. *)
Lemma foldl_better_first_max (cs : list (Image * DetectionResult)) :
  match foldl better None cs with
  | None => cs = []
  | Some r =>
      exists i, cs !! i = Some r /\
        forall j c, cs !! j = Some c ->
          (conf c.2 <= conf r.2)%R /\ ((j < i)%nat -> (conf c.2 < conf r.2)%R)
  end.
Proof.
  induction cs as [|c cs IH] using rev_ind; [reflexivity|].
  rewrite foldl_snoc.
  destruct (foldl better None cs) as [r|]; cbn [better].
  - destruct IH as (i & Hi & Hmax).
    assert (i < length cs)%nat as Hlt by (eapply lookup_lt_Some, Hi).
    destruct (Rlt_dec (conf r.2) (conf c.2)) as [Hbetter|Hnot].
    + exists (length cs). split.
      * rewrite lookup_app_r, Nat.sub_diag by lia. reflexivity.
      * intros j c' Hj. destruct (decide (j < length cs)%nat) as [Hjl|Hjl].
        -- rewrite lookup_app_l in Hj by exact Hjl.
           destruct (Hmax j c' Hj) as [Hle _]. split; [lra|intros _; lra].
        -- apply lookup_lt_Some in Hj as Hj'. rewrite length_app in Hj'. cbn in Hj'.
           assert (j = length cs) as -> by lia.
           rewrite lookup_app_r, Nat.sub_diag in Hj by lia. injection Hj as <-.
           split; [lra|lia].
    + exists i. split; [rewrite lookup_app_l by exact Hlt; exact Hi|].
      intros j c' Hj. destruct (decide (j < length cs)%nat) as [Hjl|Hjl].
      * rewrite lookup_app_l in Hj by exact Hjl. apply Hmax, Hj.
      * apply lookup_lt_Some in Hj as Hj'. rewrite length_app in Hj'. cbn in Hj'.
        assert (j = length cs) as -> by lia.
        rewrite lookup_app_r, Nat.sub_diag in Hj by lia. injection Hj as <-.
        split; [lra|lia].
  - subst cs. exists 0%nat. split; [reflexivity|].
    intros [|j] c' Hj; [|discriminate]. injection Hj as <-. split; [lra|lia].
Qed.

(** The detection returned is the first of the qualifying boxes of the
    highest confidence, and the whole image, with confidence 0 and class
    -1, when no box qualifies. *)
Theorem best_crop_first_max (image : Image) (results : list (option (list Box))) :
  (candidates image results = [] -> best_crop image results = whole_image image) /\
  (candidates image results <> [] ->
     exists i,
       candidates image results !! i = Some (best_crop image results) /\
       forall j c, candidates image results !! j = Some c ->
         (conf c.2 <= conf (best_crop image results).2)%R /\
         ((j < i)%nat -> (conf c.2 < conf (best_crop image results).2)%R)).
Proof.
  unfold best_crop, candidates. rewrite foldl_consider_result.
  pose proof (foldl_better_first_max
                (omap (M := list) (candidate image)
                      (concat (map (default []) results)))) as H.
  destruct (foldl better None _) as [r|].
  - split; [|intros _; exact H].
    intros Hnil. destruct H as (i & Hi & _). rewrite Hnil in Hi. discriminate.
  - split; [reflexivity|]. intros Hne. contradiction.
Qed.

(** The box returned always lies within the image, and the crop is the
    image cut to it.  For a detection its class is cat or dog and the box
    has a positive width and height; otherwise it is the whole image with
    class -1. *)
Theorem best_crop_in_bounds (image : Image) (results : list (option (list Box))) :
  let d := (best_crop image results).2 in
  0 <= (bbox d).1.1.1 <= (bbox d).1.2 /\ (bbox d).1.2 <= Z.of_nat (size image).1 /\
  0 <= (bbox d).1.1.2 <= (bbox d).2 /\ (bbox d).2 <= Z.of_nat (size image).2 /\
  ((cls_id d ∈ ALLOWED_CLASSES /\
    (bbox d).1.1.1 < (bbox d).1.2 /\ (bbox d).1.1.2 < (bbox d).2 /\
    (best_crop image results).1 = crop image (bbox d)) \/
   best_crop image results = whole_image image).
Proof.
  cbv zeta. unfold best_crop. rewrite foldl_consider_result.
  pose proof (foldl_better_first_max
                (omap (M := list) (candidate image)
                      (concat (map (default []) results)))) as H.
  destruct (foldl better None _) as [[c d]|].
  - destruct H as (i & Hi & _). apply list_elem_of_lookup_2 in Hi.
    apply list_elem_of_omap in Hi as (box & _ & Hbox).
    apply candidate_valid in Hbox as (Hcrop & _ & Hcls & Hx & Hx2 & Hy & Hy2).
    cbn [fst snd]. repeat split; try lia. left. repeat split; try assumption; lia.
  - unfold whole_image. destruct (size image) as [width height]. cbn [bbox fst snd].
    repeat split; try lia. right. reflexivity.
Qed.

(** *** The expanded box *)

Lemma int_of_float_le (x : R) : (0 <= x)%R -> (IZR (int_of_float x) <= x)%R.
Proof.
  intros Hx. unfold int_of_float. destruct (Rlt_dec x 0); [lra|].
  apply base_Int_part.
Qed.

Lemma int_of_float_nonpos (x : R) : (x < 0)%R -> int_of_float x <= 0.
Proof.
  intros Hx. unfold int_of_float. destruct (Rlt_dec x 0); [|lra].
  destruct (base_Int_part (- x)) as [_ Hlow].
  assert (-1 < IZR (Int_part (- x)))%R as H by lra.
  apply lt_IZR in H. lia.
Qed.

Lemma int_of_float_gt (x : R) : (x - 1 < IZR (int_of_float x))%R.
Proof.
  unfold int_of_float. destruct (Rlt_dec x 0).
  - destruct (base_Int_part (- x)) as [Hle _]. rewrite opp_IZR. lra.
  - destruct (base_Int_part x) as [_ Hlow]. lra.
Qed.

Lemma left_edge (y x : R) :
  (y <= x)%R -> (IZR (Z.max 0 (int_of_float y)) <= Rmax 0 x)%R.
Proof.
  intros Hyx. destruct (Rlt_dec y 0) as [Hneg|Hpos].
  - rewrite Z.max_l by (apply int_of_float_nonpos, Hneg). apply Rmax_l.
  - pose proof (int_of_float_le y ltac:(lra)) as Hle.
    destruct (Z.max_spec 0 (int_of_float y)) as [[_ ->]|[_ ->]].
    + eapply Rle_trans; [|apply Rmax_r]. lra.
    + apply Rmax_l.
Qed.

Lemma right_edge (width : nat) (z x : R) :
  (x <= z)%R ->
  (Rmin (INR width) x - 1 < IZR (Z.min (Z.of_nat width) (int_of_float z)))%R.
Proof.
  intros Hxz. pose proof (int_of_float_gt z) as Hgt.
  pose proof (Rmin_l (INR width) x). pose proof (Rmin_r (INR width) x).
  destruct (Z.min_spec (Z.of_nat width) (int_of_float z)) as [[_ ->]|[_ ->]].
  - rewrite <- INR_IZR_INZ. lra.
  - lra.
Qed.

(** With a non-negative [BBOX_EXPANSION], the box kept for a detection
    covers the box the model reported, as far as that lies in the image,
    but for what [int] cuts off: it starts no later, and it ends less than
    one pixel earlier at most. *)
Theorem candidate_covers_box (image : Image) (box : Box) (c : Image)
    (d : DetectionResult) :
  (0 <= BBOX_EXPANSION)%R ->
  ((box_xyxy box).1.1.1 <= (box_xyxy box).1.2)%R ->
  ((box_xyxy box).1.1.2 <= (box_xyxy box).2)%R ->
  candidate image box = Some (c, d) ->
  (IZR (bbox d).1.1.1 <= Rmax 0 (box_xyxy box).1.1.1)%R /\
  (IZR (bbox d).1.1.2 <= Rmax 0 (box_xyxy box).1.1.2)%R /\
  (Rmin (INR (size image).1) (box_xyxy box).1.2 - 1 < IZR (bbox d).1.2)%R /\
  (Rmin (INR (size image).2) (box_xyxy box).2 - 1 < IZR (bbox d).2)%R.
Proof.
  intros HE. unfold candidate. destruct (size image) as [width height].
  destruct (box_xyxy box) as [[[x1 y1] x2] y2]. cbn [fst snd].
  intros Hx Hy.
  case_bool_decide; cbn [negb]; [|discriminate]. cbv zeta.
  destruct (_ || _); [discriminate|]. intros [= <- <-]. cbn [bbox fst snd].
  assert (0 <= (x2 - x1) * BBOX_EXPANSION)%R by (apply Rmult_le_pos; lra).
  assert (0 <= (y2 - y1) * BBOX_EXPANSION)%R by (apply Rmult_le_pos; lra).
  split; [apply left_edge; lra|]. split; [apply left_edge; lra|].
  split; apply right_edge; lra.
Qed.

End Detect.

Lemma int_of_float_exact (x : R) (z : Z) : x = IZR z -> int_of_float x = z.
Proof.
  intros ->. unfold int_of_float. destruct (Rlt_dec (IZR z) 0).
  - rewrite <- (Int_part_spec (- IZR z) (- z)); [lia|]. rewrite opp_IZR. lra.
  - symmetry. apply Int_part_spec. lra.
Qed.

Lemma ex_candidate :
  candidate (vision := ex_vision None) 7%nat ex_box =
    Some (7%nat, {| bbox := (1, 1, 3, 3); conf := (/ 2)%R; cls_id := 16 |}).
Proof.
  unfold candidate, ex_box. cbn [size ex_vision box_cls box_conf box_xyxy BBOX_EXPANSION].
  rewrite (int_of_float_exact 16 16) by reflexivity.
  rewrite bool_decide_true by set_solver. cbn [negb].
  rewrite !(int_of_float_exact (1 - (3 - 1) * 0) 1) by lra.
  rewrite !(int_of_float_exact (3 + (3 - 1) * 0) 3) by lra.
  reflexivity.
Qed.

Lemma best_crop_first_max_witness :
  exists i,
    candidates (vision := ex_vision None) 7%nat [None; Some [ex_box]] !! i =
      Some (best_crop (vision := ex_vision None) 7%nat [None; Some [ex_box]]) /\
    forall j c,
      candidates (vision := ex_vision None) 7%nat [None; Some [ex_box]] !! j = Some c ->
      (conf c.2 <=
         conf (best_crop (vision := ex_vision None) 7%nat [None; Some [ex_box]]).2)%R /\
      ((j < i)%nat ->
       (conf c.2 <
          conf (best_crop (vision := ex_vision None) 7%nat [None; Some [ex_box]]).2)%R).
Proof.
  apply (proj2 (best_crop_first_max (vision := ex_vision None) 7%nat
                  [None; Some [ex_box]])).
  unfold candidates.
  change (concat (map (default []) [None; Some [ex_box]])) with [ex_box].
  change (omap (M := list) (candidate (vision := ex_vision None) 7%nat) [ex_box])
    with (match candidate (vision := ex_vision None) 7%nat ex_box with
          | Some c => [c] | None => [] end).
  rewrite ex_candidate. discriminate.
Defined.

Lemma candidate_covers_box_witness :
  (IZR 1 <= Rmax 0 1)%R /\ (IZR 1 <= Rmax 0 1)%R /\
  (Rmin (INR 4) 3 - 1 < IZR 3)%R /\ (Rmin (INR 4) 3 - 1 < IZR 3)%R.
Proof.
  apply (candidate_covers_box (vision := ex_vision None) 7%nat ex_box 7%nat
           {| bbox := (1, 1, 3, 3); conf := (/ 2)%R; cls_id := 16 |}).
  - cbn. lra.
  - cbn. lra.
  - cbn. lra.
  - exact ex_candidate.
Defined.

End DetectorFacts.

(** ** From [train] to [resolve_ckpt_path] *)

Module CheckpointFacts.
Import Numeric Py PyFacts Head.
Import Checkpoints.
Local Open Scope Z_scope.

Lemma default_ckpt_path_train (cfg : Retriever.Config) :
  Trainer.ckpt_path "checkpoints" Retriever.EMBED_DIM = default_ckpt_path.
Proof. reflexivity. Qed.

Section RoundTrip.
Context {env : Trainer.Setting} {cfg : Retriever.Config}.

(** With the default output directory, the checkpoint [train] writes for a
    dimension is the file [resolve_ckpt_path] settles on, without fallback
    and whatever else the folder holds, when the retriever is configured
    for that dimension and [TRIPLET_CKPT] is not set; the file holds the
    weights and the dimension [train] stored. *)
Theorem trained_checkpoint_is_resolved (table : string) (batch_size : Z)
    (margin : R) (epochs : Z) (lr : R) (length_mult num_workers : Z)
    (fuel : nat) (w w' : Trainer.World) (g : string -> list string) :
  Trainer.OUT_DIR = "checkpoints" ->
  Trainer.train table Retriever.EMBED_DIM batch_size margin epochs lr length_mult
                num_workers fuel w = (Ret tt, w') ->
  resolve_ckpt_path default_ckpt_path (files_of (Trainer.fs w') g)
    = (Ret default_ckpt_path, None) /\
  exists model,
    Trainer.fs w' !! default_ckpt_path =
      Some {| Trainer.state_dict := model;
              Trainer.ck_embed_dim := Retriever.EMBED_DIM;
              Trainer.ck_table := table; Trainer.ck_epochs := epochs;
              Trainer.ck_margin := margin |}.
Proof.
  intros Hdir H. apply ScriptFacts.train_fs in H as [model Hfs].
  rewrite Hdir, default_ckpt_path_train in Hfs.
  assert (Trainer.fs w' !! default_ckpt_path =
          Some {| Trainer.state_dict := model;
                  Trainer.ck_embed_dim := Retriever.EMBED_DIM;
                  Trainer.ck_table := table; Trainer.ck_epochs := epochs;
                  Trainer.ck_margin := margin |}) as Hlook.
  { rewrite Hfs. apply lookup_insert_eq. }
  split; [|exists model; exact Hlook].
  unfold resolve_ckpt_path, files_of. cbn [path_exists].
  rewrite Hlook. rewrite bool_decide_true by (eexists; reflexivity).
  reflexivity.
Qed.

End RoundTrip.

Lemma trained_checkpoint_is_resolved_witness :
  resolve_ckpt_path (cfg := Retriever.ex_config 500)
      (default_ckpt_path (cfg := Retriever.ex_config 500))
      (files_of (Trainer.fs (Trainer.ex_train Trainer.ex_db
                               (Trainer.ex_world Trainer.ex_db)).2)
                (fun _ => []))
    = (Ret (default_ckpt_path (cfg := Retriever.ex_config 500)), None) /\
  exists model,
    Trainer.fs (Trainer.ex_train Trainer.ex_db (Trainer.ex_world Trainer.ex_db)).2
      !! default_ckpt_path (cfg := Retriever.ex_config 500) =
      Some {| Trainer.state_dict := model; Trainer.ck_embed_dim := 2;
              Trainer.ck_table := "animal_embeddings_2"; Trainer.ck_epochs := 2;
              Trainer.ck_margin := (/ 5)%R |}.
Proof.
  apply (trained_checkpoint_is_resolved
           (env := Trainer.ex_setting Trainer.ex_db) (cfg := Retriever.ex_config 500)
           "animal_embeddings_2" 2 (/ 5)%R 2 (/ 1000)%R 1 0 5
           (Trainer.ex_world Trainer.ex_db)
           (Trainer.ex_train Trainer.ex_db (Trainer.ex_world Trainer.ex_db)).2
           (fun _ => [])).
  - reflexivity.
  - vm_compute. reflexivity.
Defined.

End CheckpointFacts.

(** ** The preparation script *)

Module PrepareFacts.
Import Numeric NumericFacts Py PyFacts Projection ProjectionFacts Detector.
Import Script ScriptFacts Prepare.
Local Open Scope py_scope.
Local Open Scope Z_scope.


Section Process.
Context {pipe : Pipeline}.

(** *** [fetch_image] *)

Lemma fetch_attempts_spec (url : string) (remaining : nat) :
  forall (attempt : nat) (s : Run),
  exists r s' naps,
    fetch_attempts url attempt remaining s = (Ret r, s') /\
    projector s' = projector s /\ output s' = output s /\
    (requests s <= requests s' <= requests s + remaining)%nat /\
    (remaining <> 0%nat -> (requests s < requests s')%nat) /\
    (r = None -> requests s' = (requests s + remaining)%nat) /\
    (forall img, r = Some img ->
       http_get url (requests s' - 1) = Status 200 (Some img)) /\
    slept s' = slept s ++ naps /\
    (length naps <= requests s' - requests s)%nat /\
    (foldr Rplus 0 naps <= nap_bound attempt remaining)%R.
Proof.
  induction remaining as [|remaining IH]; intros attempt s.
  - exists None, s, []. cbn [fetch_attempts nap_bound foldr length].
    rewrite app_nil_r. repeat split; try lia; try discriminate; try lra.
  - cbn [fetch_attempts nap_bound]. unfold bind at 1, request at 1.
    set (s1 := {| projector := projector s; requests := S (requests s);
                  slept := slept s; output := output s |}).
    assert (0 <= / 2 * INR (attempt + 1))%R as Hnap.
    { apply Rmult_le_pos; [lra|apply pos_INR]. }
    assert (forall s2 nap,
              projector s2 = projector s -> output s2 = output s ->
              requests s2 = S (requests s) -> slept s2 = slept s ++ nap ->
              (length nap <= 1)%nat ->
              (foldr Rplus 0 nap <= / 2 * INR (attempt + 1))%R ->
              exists r s' naps,
                fetch_attempts url (S attempt) remaining s2 = (Ret r, s') /\
                projector s' = projector s /\ output s' = output s /\
                (requests s <= requests s' <= requests s + S remaining)%nat /\
                (S remaining <> 0%nat -> (requests s < requests s')%nat) /\
                (r = None -> requests s' = (requests s + S remaining)%nat) /\
                (forall img, r = Some img ->
                   http_get url (requests s' - 1) = Status 200 (Some img)) /\
                slept s' = slept s ++ naps /\
                (length naps <= requests s' - requests s)%nat /\
                (foldr Rplus 0 naps <=
                 / 2 * INR (attempt + 1) + nap_bound (S attempt) remaining)%R) as Hrest.
    { intros s2 nap Hp Ho Hr Hs Hlen Hsum.
      destruct (IH (S attempt) s2)
        as (r & s' & naps & -> & Hp' & Ho' & Hr' & _ & Hnone & Himg & Hs' & Hl' & Hb').
      exists r, s', (nap ++ naps).
      split; [reflexivity|]. split; [congruence|]. split; [congruence|].
      split; [lia|]. split; [lia|]. split; [intros H; rewrite (Hnone H); lia|].
      split; [exact Himg|]. split; [rewrite Hs', Hs, app_assoc; reflexivity|].
      split; [rewrite length_app; lia|].
      rewrite foldr_app.
      assert (forall (l : list R) (x : R),
                foldr Rplus x l = (foldr Rplus 0 l + x)%R) as Hfold.
      { induction l as [|y l IHl]; intros x; cbn [foldr]; [lra|].
        rewrite IHl. lra. }
      rewrite Hfold. lra. }
    destruct (http_get url (requests s)) as [|code decoded] eqn:Hget.
    + unfold bind at 1, sleep, modify.
      apply (Hrest _ [(/ 2 * INR (attempt + 1))%R]);
        cbn [projector output requests slept foldr length]; try reflexivity; try lia; lra.
    + destruct (Z.eqb_spec code 200) as [->|Hcode]; cbn [negb].
      * destruct decoded as [img|].
        -- exists (Some img), s1, []. subst s1.
           cbn [ret projector output requests slept foldr length].
           rewrite app_nil_r.
           split; [reflexivity|]. split; [reflexivity|]. split; [reflexivity|].
           split; [lia|]. split; [lia|]. split; [discriminate|].
           split; [|split; [reflexivity|split; [lia|]]].
           ++ intros img' [= <-].
              replace (S (requests s) - 1)%nat with (requests s) by lia. exact Hget.
           ++ pose proof (pos_INR (attempt + 1)).
              assert (0 <= nap_bound (S attempt) remaining)%R; [|lra].
              clear. generalize (S attempt). induction remaining as [|r IHr];
                intros a; cbn [nap_bound]; [lra|].
              specialize (IHr (S a)). pose proof (pos_INR (a + 1)). lra.
        -- unfold bind at 1, sleep, modify.
           apply (Hrest _ [(/ 2 * INR (attempt + 1))%R]);
             cbn [projector output requests slept foldr length];
             try reflexivity; try lia; lra.
      * apply (Hrest s1 []); subst s1;
          cbn [projector output requests slept foldr length];
          try reflexivity; try lia; try lra.
        rewrite app_nil_r. reflexivity.
Qed.

(** [fetch_image] always returns.  It makes at least one request and at
    most three, and gives up only after the third; an image returned is the
    body of the last request made, which answered 200; the naps taken add up
    to no more than three seconds; the projector and the output are left
    alone. *)
Theorem fetch_image_bounded (url : string) (s : Run) :
  exists r s' naps,
    fetch_image url s = (Ret r, s') /\
    projector s' = projector s /\ output s' = output s /\
    (requests s < requests s' <= requests s + 3)%nat /\
    (r = None -> requests s' = (requests s + 3)%nat) /\
    (forall img, r = Some img ->
       http_get url (requests s' - 1) = Status 200 (Some img)) /\
    slept s' = slept s ++ naps /\
    (length naps <= 3)%nat /\
    (foldr Rplus 0 naps <= 3)%R.
Proof.
  destruct (fetch_attempts_spec url (MAX_RETRIES + 1) 0 s)
    as (r & s' & naps & H & Hp & Ho & Hr & Hpos & Hnone & Himg & Hs & Hl & Hb).
  exists r, s', naps. split; [exact H|]. split; [exact Hp|]. split; [exact Ho|].
  change (MAX_RETRIES + 1)%nat with 3%nat in *.
  split; [specialize (Hpos ltac:(discriminate)); lia|].
  split; [exact Hnone|]. split; [exact Himg|]. split; [exact Hs|].
  split; [lia|]. cbn in Hb. lra.
Qed.

(** *** The rows *)

Lemma project_all_spec (dim : Z) (vecs : list (list R)) :
  forall (s s' : Run) (o : outcome (list (list R))),
    project_all dim vecs s = (o, s') ->
    output s' = output s /\ requests s' = requests s /\ slept s' = slept s /\
    forall outs, o = Ret outs -> length outs = length vecs.
Proof.
  induction vecs as [|v vecs IH]; intros s s' o; cbn [project_all].
  - intros [= <- <-]. repeat split. intros outs [= <-]. reflexivity.
  - unfold bind at 1.
    assert (forall o1 s1, project_one dim v s = (o1, s1) ->
              output s1 = output s /\ requests s1 = requests s /\ slept s1 = slept s)
      as Hone.
    { unfold project_one. destruct (dim <? 0); [intros o1 s1 [= <- <-]; auto|].
      intros o1 s1.
      destruct (project normals (projector s) v (Z.to_nat dim)) as [[out|] P'];
        intros [= <- <-]; auto. }
    destruct (project_one dim v s) as [[out|e|] s1] eqn:H1;
      destruct (Hone _ _ eq_refl) as (Ho1 & Hr1 & Hs1);
      [|intros [= <- <-]; repeat split; try assumption; discriminate..].
    unfold bind at 1.
    destruct (project_all dim vecs s1) as [[outs|e|] s2] eqn:H2;
      destruct (IH _ _ _ H2) as (Ho2 & Hr2 & Hs2 & Hlen);
      intros [= <- <-]; (split; [congruence|]); (split; [congruence|]);
      (split; [congruence|]); intros outs' [= <-].
    cbn [length]. rewrite (Hlen outs eq_refl). reflexivity.
Qed.

Lemma build_row_spec (dim : Z) (desertion_no side : string) (split : option string)
    (img : Image) (s s' : Run) (row : SaveRow) :
  build_row dim desertion_no side split img s = (Ret row, s') ->
  output s' = output s /\
  row_key row = (desertion_no, side) /\ sr_split row = split /\
  ((forall imgs, length (embed_batch imgs) = length imgs) -> row_shape row).
Proof.
  unfold build_row. intros H.
  apply bind_ret_inv in H as (projected & s1 & H1 & H).
  apply project_all_spec in H1 as (Ho & _ & _ & Hlen).
  specialize (Hlen projected eq_refl).
  injection H as <- <-. split; [exact Ho|]. split; [reflexivity|].
  split; [reflexivity|]. intros Hembed. rewrite Hembed in Hlen.
  unfold row_shape. cbn [sr_vector1 sr_vector2 sr_vector3 sr_vector4 sr_side].
  case_bool_decide as Hside.
  - destruct projected as [|p1 [|? ?]]; try discriminate. cbn.
    repeat split; try eauto; try reflexivity. congruence.
  - unfold augment_image in Hlen.
    destruct projected as [|p1 [|p2 [|? ?]]]; try discriminate. cbn.
    repeat split; try eauto; try reflexivity. congruence.
Qed.

Lemma batches_of_app (a b : list Out) :
  batches_of (a ++ b) = batches_of a ++ batches_of b.
Proof. apply omap_app. Qed.

Lemma record_spec (Q : SaveRow -> Prop) (dim total : Z)
    (visited : list (string * string)) (out : list Out) (loc loc' : Locals)
    (row : SaveRow) (s s' : Run) (o : outcome Locals) :
  loop_inv Q dim visited out loc ->
  Q row ->
  record dim (table_name dim) total loc row s = (o, s') ->
  o = Ret loc' ->
  exists out',
    output s' = output s ++ out' /\
    loop_inv Q dim (visited ++ [row_key row]) (out ++ out') loc'.
Proof.
  intros (Htab & Hfull & Hshort & Hcount & Hsub & HQ) Hrow H ->.
  unfold record in H.
  apply bind_ret_inv in H as (queue' & s1 & H1 & H).
  apply bind_ret_inv in H as (last' & s2 & H2 & H).
  injection H as <- <-.
  assert (exists out2, output s2 = output s1 ++ out2 /\ batches_of out2 = [] /\
                       Forall (to_table (table_name dim)) out2)
    as (out2 & Ho2 & Hb2 & Ht2).
  { destruct (50 <=? processed loc + 1 - last_log loc).
    - apply bind_ret_inv in H2 as ([] & s3 & H3 & H2).
      injection H3 as <-. injection H2 as _ <-. cbn [output].
      eexists. split; [reflexivity|]. split; [reflexivity|].
      repeat constructor.
    - injection H2 as _ <-. exists []. rewrite app_nil_r.
      split; [reflexivity|]. split; [reflexivity|constructor]. }
  assert (map row_key (concat (batches_of out) ++ to_save loc ++ [row])
            `sublist_of` visited ++ [row_key row]) as Hsub'.
  { rewrite app_assoc, map_app. apply sublist_app; [exact Hsub|reflexivity]. }
  assert (Forall Q (concat (batches_of out) ++ to_save loc ++ [row])) as HQ'.
  { rewrite app_assoc. apply Forall_app. split; [exact HQ|]. repeat constructor.
    exact Hrow. }
  assert (Z.of_nat (length (concat (batches_of out) ++ to_save loc ++ [row]))
          = processed loc + 1) as Hcount'.
  { rewrite Hcount, !length_app. cbn [length]. lia. }
  unfold full_batch in *.
  destruct (Z.leb_spec BATCH_SIZE (Z.of_nat (length (to_save loc ++ [row]))))
    as [Hflush|Hkeep].
  - apply bind_ret_inv in H1 as ([] & s3 & H3 & H1).
    injection H1 as <- <-.
    assert (output s3 = output s ++ [Upsert (table_name dim) (to_save loc ++ [row])])
      as Ho3.
    { unfold upsert_rows in H3.
      destruct (to_save loc ++ [row]) eqn:Hq;
        [destruct (to_save loc); discriminate|].
      injection H3 as <-. reflexivity. }
    exists ([Upsert (table_name dim) (to_save loc ++ [row])] ++ out2).
    split; [rewrite Ho2, Ho3, <- app_assoc; reflexivity|].
    unfold loop_inv. cbn [to_save processed].
    rewrite !batches_of_app, Hb2, app_nil_r. cbn [batches_of omap list_omap].
    rewrite concat_app. cbn [concat]. rewrite !app_nil_r.
    split.
    { apply Forall_app. split; [exact Htab|]. apply Forall_app. split; [|exact Ht2].
      repeat constructor. }
    split.
    { apply Forall_app. split; [exact Hfull|]. repeat constructor.
      rewrite length_app in Hflush |- *. cbn [length] in Hflush |- *.
      unfold full_batch. lia. }
    split; [cbn [length]; unfold full_batch; lia|].
    split; [symmetry; exact Hcount'|]. split; assumption.
  - injection H1 as <- <-.
    exists out2. split; [exact Ho2|].
    unfold loop_inv. cbn [to_save processed].
    rewrite !batches_of_app, Hb2, app_nil_r.
    split; [apply Forall_app; split; assumption|].
    split; [exact Hfull|]. split; [unfold full_batch; lia|].
    split; [symmetry; exact Hcount'|]. split; assumption.
Qed.

Lemma loop_inv_visit (Q : SaveRow -> Prop) (dim : Z)
    (visited more : list (string * string)) (out : list Out) (loc : Locals) :
  loop_inv Q dim visited out loc -> loop_inv Q dim (visited ++ more) out loc.
Proof.
  intros (H1 & H2 & H3 & H4 & H5 & H6). repeat split; try assumption.
  apply sublist_inserts_r, H5.
Qed.

Section Loop.

Variable Q : SaveRow -> Prop.
Variable dim : Z.
Hypothesis build_row_Q :
  forall desertion_no side split img s s' row,
    build_row dim desertion_no side split img s = (Ret row, s') -> Q row.

Lemma process_side_spec (total : Z) (desertion_no : string) (split : option string)
    (side : string) (url : option string)
    (visited : list (string * string)) (out : list Out) (loc loc' : Locals)
    (s s' : Run) :
  loop_inv Q dim visited out loc ->
  process_side dim (table_name dim) total desertion_no split loc side url s
    = (Ret loc', s') ->
  exists out',
    output s' = output s ++ out' /\
    loop_inv Q dim (visited ++ (if has_url url then [(desertion_no, side)] else []))
             (out ++ out') loc'.
Proof.
  intros Hinv. unfold process_side.
  destruct (has_url url); cbn [negb].
  - intros H. apply bind_ret_inv in H as (fetched & s1 & H1 & H).
    destruct (fetch_attempts_spec (default "" url) (MAX_RETRIES + 1) 0 s)
      as (r & s1' & naps & Hf & _ & Ho1 & _).
    unfold fetch_image in H1. rewrite Hf in H1. injection H1 as <- <-.
    destruct r as [img|].
    + apply bind_ret_inv in H as (row & s2 & H2 & H).
      pose proof (build_row_Q _ _ _ _ _ _ _ H2) as Hrow.
      apply build_row_spec in H2 as (Ho2 & Hkey & _).
      destruct (record_spec Q dim total visited out loc loc' row s2 s' (Ret loc')
                            Hinv Hrow H eq_refl) as (out' & Ho' & Hinv').
      exists out'. split; [congruence|]. rewrite <- Hkey. exact Hinv'.
    + injection H as <- <-. exists []. rewrite !app_nil_r.
      split; [exact Ho1|]. apply loop_inv_visit, Hinv.
  - intros [= <- <-]. exists []. rewrite !app_nil_r. split; [reflexivity|exact Hinv].
Qed.

Lemma process_animals_spec (total : Z) (animals : list Animal) :
  forall (visited : list (string * string)) (out : list Out) (loc loc' : Locals)
         (s s' : Run),
    loop_inv Q dim visited out loc ->
    process_animals dim (table_name dim) total loc animals s = (Ret loc', s') ->
    exists out',
      output s' = output s ++ out' /\
      loop_inv Q dim (visited ++ sides animals) (out ++ out') loc'.
Proof.
  induction animals as [|a animals IH]; intros visited out loc loc' s s' Hinv;
    cbn [process_animals].
  - intros [= <- <-]. exists []. cbn [sides map concat]. rewrite !app_nil_r.
    split; [reflexivity|exact Hinv].
  - intros H. apply bind_ret_inv in H as (loc2 & s2 & H2 & H).
    unfold process_animal in H2.
    apply bind_ret_inv in H2 as (loc1 & s1 & H1 & H2).
    destruct (process_side_spec _ _ _ _ _ _ _ _ _ _ _ Hinv H1) as (out1 & Ho1 & Hinv1).
    destruct (process_side_spec _ _ _ _ _ _ _ _ _ _ _ Hinv1 H2) as (out2 & Ho2 & Hinv2).
    destruct (IH _ _ _ _ _ _ Hinv2 H) as (out3 & Ho3 & Hinv3).
    exists (out1 ++ out2 ++ out3).
    split; [rewrite Ho3, Ho2, Ho1, <- !app_assoc; reflexivity|].
    cbn [sides map concat]. fold (sides animals).
    rewrite <- !app_assoc in Hinv3. rewrite <- !app_assoc. exact Hinv3.
Qed.

Lemma total_sides_length (animals : list Animal) :
  total_sides animals = Z.of_nat (length (sides animals)).
Proof.
  induction animals as [|a animals IH]; [reflexivity|].
  cbn [total_sides foldr sides map concat]. fold (total_sides animals).
  fold (sides animals). rewrite IH, !length_app.
  destruct (has_url (a_popfile1 a)), (has_url (a_popfile2 a)); cbn [length]; lia.
Qed.

Lemma process_dimension_inv (animals : list Animal) (s s' : Run) :
  process_dimension dim animals s = (Ret tt, s') ->
  exists out,
    output s' = output s ++ out /\
    Forall (to_table (table_name dim)) out /\
    Forall (fun b => b <> [] /\ Z.of_nat (length b) <= full_batch) (batches_of out) /\
    (forall i b, batches_of out !! i = Some b -> (S i < length (batches_of out))%nat ->
                 Z.of_nat (length b) = full_batch) /\
    map row_key (concat (batches_of out)) `sublist_of` sides animals /\
    Forall Q (concat (batches_of out)) /\
    last out = Some (if total_sides animals =? 0 then PrintNoImages dim
                     else PrintCompleted dim
                            (Z.of_nat (length (concat (batches_of out))))
                            (total_sides animals)).
Proof.
  unfold process_dimension. intros H.
  destruct (total_sides animals =? 0) eqn:Hzero.
  - injection H as <-. cbn [output]. exists [PrintNoImages dim].
    split; [reflexivity|].
    change (batches_of [PrintNoImages dim]) with (@nil (list SaveRow)).
    split; [repeat constructor|]. split; [constructor|].
    split; [intros i b Hb; destruct i; discriminate|].
    split; [apply sublist_nil_l|]. split; [constructor|reflexivity].
  - apply bind_ret_inv in H as ([] & s1 & H1 & H). injection H1 as <-.
    apply bind_ret_inv in H as (loc & s2 & H2 & H).
    assert (loop_inv Q dim [] [PrintStart dim (total_sides animals)]
                     {| to_save := []; processed := 0; last_log := 0 |}) as Hinit.
    { unfold loop_inv.
      change (batches_of [PrintStart dim (total_sides animals)])
        with (@nil (list SaveRow)).
      cbn [concat app to_save processed length map].
      split; [repeat constructor|]. split; [constructor|].
      split; [unfold full_batch; lia|]. split; [reflexivity|].
      split; [apply sublist_nil_l|constructor]. }
    destruct (process_animals_spec _ _ _ _ _ _ _ _ Hinit H2) as (out2 & Ho2 & Hinv).
    cbn [output app] in Ho2, Hinv.
    destruct Hinv as (Htab & Hfull & Hshort & Hcount & Hsub & HQ).
    apply bind_ret_inv in H as ([] & s3 & H3 & H). injection H as <-.
    cbn [output].
    set (start := PrintStart dim (total_sides animals)) in *.
    destruct (to_save loc) as [|r0 queue] eqn:Hq.
    + injection H3 as <-. rewrite app_nil_r in *.
      exists ((start :: out2) ++ [PrintCompleted dim (processed loc) (total_sides animals)]).
      split; [rewrite Ho2, <- !app_assoc; reflexivity|].
      rewrite batches_of_app. cbn [batches_of omap list_omap]. rewrite app_nil_r.
      fold (batches_of (start :: out2)).
      split; [apply Forall_app; split; [exact Htab|repeat constructor]|].
      split.
      { eapply Forall_impl; [exact Hfull|]. cbn. intros b Hb.
        split; [|lia]. intros ->. unfold full_batch in Hb. cbn in Hb. lia. }
      split; [intros i b Hb _; rewrite Forall_forall in Hfull; apply Hfull;
              eapply list_elem_of_lookup_2, Hb|].
      split; [exact Hsub|]. split; [exact HQ|].
      rewrite last_snoc, Hcount. reflexivity.
    + unfold upsert_rows in H3. injection H3 as <-. cbn [output].
      set (batch := r0 :: queue) in *.
      exists ((start :: out2) ++ [Upsert (table_name dim) batch;
                                  PrintCompleted dim (processed loc) (total_sides animals)]).
      split; [rewrite Ho2, <- !app_assoc; reflexivity|].
      rewrite batches_of_app.
      change (batches_of [Upsert (table_name dim) batch;
                          PrintCompleted dim (processed loc) (total_sides animals)])
        with [batch].
      rewrite concat_app. cbn [concat]. rewrite app_nil_r.
      split; [apply Forall_app; split; [exact Htab|repeat constructor]|].
      split.
      { apply Forall_app. split.
        - eapply Forall_impl; [exact Hfull|]. cbn. intros b Hb.
          split; [|lia]. intros ->. unfold full_batch in Hb. cbn in Hb. lia.
        - repeat constructor; [discriminate|lia]. }
      split.
      { intros i b Hb Hi. rewrite length_app in Hi. cbn [length] in Hi.
        rewrite lookup_app_l in Hb by lia.
        rewrite Forall_forall in Hfull. apply Hfull.
        eapply list_elem_of_lookup_2, Hb. }
      split; [exact Hsub|]. split; [exact HQ|].
      change ((start :: out2) ++ [Upsert (table_name dim) batch;
                                  PrintCompleted dim (processed loc) (total_sides animals)])
        with ((start :: out2) ++ [Upsert (table_name dim) batch]
                ++ [PrintCompleted dim (processed loc) (total_sides animals)]).
      rewrite app_assoc, last_snoc, Hcount. reflexivity.
Qed.

End Loop.

(** When [process_dimension] returns, no row it built is left unsent, and
    the rows went out in batches: every batch went to the table of the
    dimension and is not empty; all but the last have exactly [BATCH_SIZE]
    rows (one row, when [BATCH_SIZE] is not positive), the last has no more;
    the rows are for sides that have a URL, in the order of the animals,
    one row at most per side; and the last line printed reports as done
    the number of rows sent, out of the number of sides with a URL. *)
Theorem process_dimension_batches (dim : Z) (animals : list Animal) (s s' : Run) :
  process_dimension dim animals s = (Ret tt, s') ->
  exists out,
    output s' = output s ++ out /\
    Forall (to_table (table_name dim)) out /\
    Forall (fun b => b <> [] /\ Z.of_nat (length b) <= full_batch) (batches_of out) /\
    (forall i b, batches_of out !! i = Some b -> (S i < length (batches_of out))%nat ->
                 Z.of_nat (length b) = full_batch) /\
    map row_key (concat (batches_of out)) `sublist_of` sides animals /\
    Z.of_nat (length (concat (batches_of out))) <= total_sides animals /\
    last out = Some (if total_sides animals =? 0 then PrintNoImages dim
                     else PrintCompleted dim
                            (Z.of_nat (length (concat (batches_of out))))
                            (total_sides animals)).
Proof.
  intros H.
  destruct (process_dimension_inv (fun _ => True) dim (fun _ _ _ _ _ _ _ _ => I)
                                  animals s s' H)
    as (out & Ho & Htab & Hb & Hfull & Hsub & _ & Hlast).
  exists out. repeat (split; [assumption|]). split; [|exact Hlast].
  rewrite total_sides_length. apply sublist_length in Hsub.
  rewrite length_map in Hsub. lia.
Qed.

(** With an embedder that returns one vector per image, every row sent
    holds the vectors of its side and no more: [vector1] and [vector2] (the
    image and its mirror image) for popfile1, [vector1] alone for popfile2;
    [vector3] and [vector4] are always NULL. *)
Theorem process_dimension_row_shapes (dim : Z) (animals : list Animal) (s s' : Run) :
  (forall imgs, length (embed_batch imgs) = length imgs) ->
  process_dimension dim animals s = (Ret tt, s') ->
  exists out,
    output s' = output s ++ out /\
    Forall row_shape (concat (batches_of out)).
Proof.
  intros Hembed H.
  destruct (process_dimension_inv row_shape dim) with
    (animals := animals) (s := s) (s' := s')
    as (out & Ho & _ & _ & _ & _ & HQ & _); [|exact H|].
  - intros id side split img s1 s2 row Hrow.
    apply build_row_spec in Hrow as (_ & _ & _ & Hshape). apply Hshape, Hembed.
  - exists out. split; assumption.
Qed.

End Process.

Lemma process_dimension_batches_witness :
  exists out,
    output (process_dimension (pipe := ex_pipeline) 2 ex_animals ex_run).2
      = output ex_run ++ out /\
    Forall (to_table (table_name (pipe := ex_pipeline) 2)) out /\
    Forall (fun b => b <> [] /\ Z.of_nat (length b) <= full_batch (pipe := ex_pipeline))
           (batches_of out) /\
    (forall i b, batches_of out !! i = Some b -> (S i < length (batches_of out))%nat ->
                 Z.of_nat (length b) = full_batch (pipe := ex_pipeline)) /\
    map row_key (concat (batches_of out)) `sublist_of` sides ex_animals /\
    Z.of_nat (length (concat (batches_of out))) <= total_sides ex_animals /\
    last out = Some (if total_sides ex_animals =? 0 then PrintNoImages 2
                     else PrintCompleted 2
                            (Z.of_nat (length (concat (batches_of out))))
                            (total_sides ex_animals)).
Proof.
  apply (process_dimension_batches (pipe := ex_pipeline) 2 ex_animals ex_run
           (process_dimension (pipe := ex_pipeline) 2 ex_animals ex_run).2).
  vm_compute. reflexivity.
Defined.

Lemma process_dimension_row_shapes_witness :
  exists out,
    output (process_dimension (pipe := ex_pipeline) 2 ex_animals ex_run).2
      = output ex_run ++ out /\
    Forall row_shape (concat (batches_of out)).
Proof.
  apply (process_dimension_row_shapes (pipe := ex_pipeline) 2 ex_animals ex_run
           (process_dimension (pipe := ex_pipeline) 2 ex_animals ex_run).2).
  - intros imgs. apply length_map.
  - vm_compute. reflexivity.
Defined.

End PrepareFacts.

(** ** More on the retriever *)

Module SearchFacts.
Import Numeric NumericFacts Py PyFacts Head Retriever RetrieverFacts.
Local Open Scope Z_scope.


(** *** Descending order *)

Lemma insert_desc_sorted {A} (key : A -> R) (x : A) (l : list A) :
  StronglySorted (fun a b => (key b <= key a)%R) l ->
  StronglySorted (fun a b => (key b <= key a)%R) (insert_desc key x l).
Proof.
  induction 1 as [|y l Hs IH Hy]; cbn [insert_desc].
  - repeat constructor.
  - destruct (Rlt_dec (key x) (key y)) as [Hlt|Hge].
    + constructor; [exact IH|].
      apply Forall_forall. intros z Hz.
      rewrite (insert_desc_perm key x l) in Hz.
      apply elem_of_cons in Hz as [->|Hz]; [lra|].
      rewrite Forall_forall in Hy. apply Hy, Hz.
    + constructor; [constructor; assumption|].
      constructor; [lra|].
      eapply Forall_impl; [exact Hy|]. cbn. intros z Hz. lra.
Qed.

Lemma sort_desc_sorted {A} (key : A -> R) (l : list A) :
  StronglySorted (fun a b => (key b <= key a)%R) (sort_desc key l).
Proof.
  induction l as [|x l IH]; cbn [sort_desc foldr]; [constructor|].
  apply insert_desc_sorted, IH.
Qed.

Lemma take_sorted {A} (R : relation A) (n : nat) (l : list A) :
  StronglySorted R l -> StronglySorted R (take n l).
Proof.
  intros H. rewrite <- (take_drop n l) in H.
  apply StronglySorted_app in H. tauto.
Qed.

Lemma py_slice_to_sorted {A} (R : relation A) (l : list A) (k : Z) :
  StronglySorted R l -> StronglySorted R (py_slice_to l k).
Proof. unfold py_slice_to. destruct (0 <=? k); apply take_sorted. Qed.

Lemma py_slice_to_length {A} (l : list A) (k : Z) :
  Z.of_nat (length (py_slice_to l k)) =
  if 0 <=? k then Z.min k (Z.of_nat (length l))
  else Z.max 0 (Z.of_nat (length l) + k).
Proof.
  unfold py_slice_to. destruct (Z.leb_spec 0 k); rewrite length_take; lia.
Qed.

Section Search.
Context {cfg : Config}.

(** *** What a run of [main] has computed when it returns *)

Lemma coarse_stage_subset (dataset : list DbEmbedding) (q : list R) (topk : Z)
    (shortlist : list DbEmbedding) :
  coarse_stage dataset q topk = Ret shortlist -> shortlist ⊆ dataset.
Proof.
  unfold coarse_stage. destruct (torch_topk _ _) as [idxs| |]; cbn [obind];
    [|discriminate..].
  intros [= <-] e He.
  apply list_elem_of_omap in He as (i & _ & Hi).
  eapply list_elem_of_lookup_2, Hi.
Qed.

Lemma main_trace_inv (env : Env) (topk : Z) (tr : SearchTrace) :
  main_trace env topk = Ret tr ->
  exists head query_vec,
    tr_shortlist tr ⊆ apply_filters env (load_embeddings (db_rows env)) /\
    tr_scores tr =
      map (rerank_one head (forward head (F_normalize query_vec))) (tr_shortlist tr) /\
    tr_payload tr =
      {| query_bbox := bbox_of (detection env);
         results := map to_result (dedup_topk (tr_scores tr) topk) |}.
Proof.
  unfold main_trace. destruct (image_is_file env); cbn [negb]; [|discriminate].
  destruct (load_head env) as [head| |]; cbn [obind]; [|discriminate..].
  destruct (fit_query (query_embedding env)) as [qv| |]; cbn [obind];
    [|discriminate..].
  intros H. exists head, qv.
  destruct (apply_filters env (load_embeddings (db_rows env))) as [|e ds] eqn:Hds.
  - injection H as <-. cbn [tr_shortlist tr_scores tr_payload].
    split; [apply list_subseteq_nil|]. split; [reflexivity|].
    unfold dedup_topk, py_slice_to. cbn [sort_desc foldr best_per_id foldl dict_values map].
    destruct (0 <=? topk); rewrite take_nil; reflexivity.
  - unfold search in H.
    destruct (coarse_stage (e :: ds) (F_normalize qv) topk) as [sl| |] eqn:Hc;
      cbn [obind] in H; [|discriminate..].
    injection H as <-. cbn [tr_shortlist tr_scores tr_payload].
    split; [eapply coarse_stage_subset, Hc|].
    split; [apply rerank_map|reflexivity].
Qed.

Lemma main_inv (env : Env) (topk : Z) (payload : Payload) :
  main env topk = Ret payload ->
  exists tr, main_trace env topk = Ret tr /\ payload = tr_payload tr.
Proof.
  unfold main. destruct (main_trace env topk) as [tr| |]; cbn [obind];
    [|discriminate..].
  intros [= <-]. exists tr. split; reflexivity.
Qed.

(** The results are listed from the most to the least similar. *)
Theorem results_sorted (env : Env) (topk : Z) (payload : Payload) :
  main env topk = Ret payload ->
  StronglySorted (fun a b => (r_similarity b <= r_similarity a)%R) (results payload).
Proof.
  intros H. apply main_inv in H as (tr & Htr & ->).
  apply main_trace_inv in Htr as (head & qv & _ & _ & ->).
  cbn [results].
  apply (StronglySorted_fmap to_result
           (fun a b : R * DbEmbedding => (b.1 <= a.1)%R)).
  - intros [s1 e1] [s2 e2] Hle. exact Hle.
  - apply py_slice_to_sorted, (sort_desc_sorted fst).
Qed.


(** *** How many results *)

Lemma best_per_id_keys (scores : list (R * DbEmbedding)) :
  dict_keys (best_per_id scores) ≡ₚ
  remove_dups (map (fun x => desertion_no x.2) scores).
Proof.
  destruct (best_per_id_inv scores) as (Hwf & Hstored & Hseen).
  apply NoDup_Permutation; [exact Hwf|apply NoDup_remove_dups|].
  intros k. rewrite elem_of_remove_dups. split.
  - intros Hk. apply list_elem_of_fmap in Hk as ([k' x] & -> & Hin). cbn.
    destruct (Hstored _ _ Hin) as [<- Hx].
    apply list_elem_of_fmap. exists x. split; [reflexivity|exact Hx].
  - intros Hk. apply list_elem_of_fmap in Hk as (x & -> & Hx).
    destruct (Hseen _ Hx) as (y & Hy & _).
    apply dict_get_Some_elem in Hy.
    apply list_elem_of_fmap. exists (desertion_no x.2, y). split; [reflexivity|exact Hy].
Qed.

Lemma remove_dups_length_perm (l k : list string) :
  l ≡ₚ k -> length (remove_dups l) = length (remove_dups k).
Proof.
  intros H. apply Permutation_length.
  apply NoDup_Permutation; [apply NoDup_remove_dups..|].
  intros x. rewrite !elem_of_remove_dups, H. reflexivity.
Qed.

Lemma dedup_topk_length (scores : list (R * DbEmbedding)) (topk : Z) :
  Z.of_nat (length (dedup_topk scores topk)) =
  let D := Z.of_nat (length (remove_dups (map (fun x => desertion_no x.2) scores))) in
  if 0 <=? topk then Z.min topk D else Z.max 0 (D + topk).
Proof.
  unfold dedup_topk. rewrite py_slice_to_length, sort_desc_length.
  unfold dict_values. rewrite length_map.
  rewrite <- (length_map fst (best_per_id _)). fold (dict_keys (best_per_id (sort_desc fst scores))).
  rewrite (Permutation_length (best_per_id_keys _)).
  rewrite (remove_dups_length_perm _ (map (fun x => desertion_no x.2) scores)).
  - reflexivity.
  - apply fmap_Permutation, sort_desc_perm.
Qed.

(** The number of results: with [D] the number of different animals on the
    shortlist, [--topk K] prints [min(K, D)] results for [K >= 0]; a negative
    [K] is read by the slice [deduped[:K]] as "all but the last [-K]". *)
Theorem results_count (env : Env) (topk : Z) (payload : Payload) :
  main env topk = Ret payload ->
  exists tr,
    main_trace env topk = Ret tr /\
    let D := Z.of_nat (length (remove_dups (map desertion_no (tr_shortlist tr)))) in
    Z.of_nat (length (results payload)) =
      if 0 <=? topk then Z.min topk D else Z.max 0 (D + topk).
Proof.
  intros H. apply main_inv in H as (tr & Htr & ->). exists tr.
  split; [exact Htr|].
  apply main_trace_inv in Htr as (head & qv & _ & Hsc & ->).
  cbn [results]. rewrite length_map, dedup_topk_length.
  rewrite Hsc, map_map. reflexivity.
Qed.

(** *** The filters *)

Lemma keep_sound (env : Env) (e : DbEmbedding) :
  keep env e = true ->
  (animal_code env <> "" -> up_kind_cd e = animal_code env) /\
  (gender_filter env <> "" -> str_upper (sex_cd e) = gender_filter env) /\
  (forall lost, lost_date env = Some lost ->
     exists n, fromisoformat (notice_sdt e) = Some n /\ lost <= n).
Proof.
  unfold keep, nonempty. intros H.
  assert (forall lost, lost_date env = Some lost ->
            match lost_date env with
            | Some lost =>
                if negb (negb (bool_decide (notice_sdt e = ""))) then false
                else match fromisoformat (notice_sdt e) with
                     | Some notice_dt => negb (notice_dt <? lost)
                     | None => false
                     end
            | None => true
            end = true ->
            exists n, fromisoformat (notice_sdt e) = Some n /\ lost <= n) as Hdate.
  { intros lost -> Hd.
    destruct (bool_decide (notice_sdt e = "")); cbn [negb] in Hd; [discriminate|].
    destruct (fromisoformat (notice_sdt e)) as [n|]; [|discriminate].
    exists n. split; [reflexivity|].
    destruct (Z.ltb_spec n lost); [discriminate|lia]. }
  repeat case_bool_decide; cbn [negb andb] in H; try discriminate;
    (split; [intros; congruence|]); (split; [intros; congruence|]);
    intros lost Hl; exact (Hdate lost Hl H).
Qed.

Lemma apply_filters_sound (env : Env) (dataset : list DbEmbedding) (e : DbEmbedding) :
  e ∈ apply_filters env dataset ->
  e ∈ dataset /\
  (animal_code env <> "" -> up_kind_cd e = animal_code env) /\
  (gender_filter env <> "" -> str_upper (sex_cd e) = gender_filter env) /\
  (forall lost, lost_date env = Some lost ->
     exists n, fromisoformat (notice_sdt e) = Some n /\ lost <= n).
Proof.
  unfold apply_filters, nonempty.
  destruct (decide (animal_code env = "")) as [Ha|Ha];
    [rewrite (bool_decide_true _ Ha)|rewrite (bool_decide_false _ Ha)];
  (destruct (decide (gender_filter env = "")) as [Hg|Hg];
    [rewrite (bool_decide_true _ Hg)|rewrite (bool_decide_false _ Hg)]);
  (destruct (lost_date env) as [lost|] eqn:Hl;
    [rewrite bool_decide_true by (eexists; reflexivity)
    |rewrite bool_decide_false by (intros [? ?]; discriminate)]);
  cbn [negb orb]; intros He;
  try (apply list_elem_of_In, filter_In in He as [Hin Hk];
       apply list_elem_of_In in Hin; split; [exact Hin|];
       apply keep_sound in Hk; rewrite Hl in Hk; exact Hk).
  split; [exact He|]. split; [contradiction|]. split; [contradiction|discriminate].
Qed.

(** Every result is a row of the store that went through the filters in
    force: with an animal type given its kind code is the requested one,
    with a gender given its sex code is, in upper case, the requested one,
    and with a loss date given its notice date parses and is not earlier. *)
Theorem results_pass_filters (env : Env) (topk : Z) (payload : Payload) :
  main env topk = Ret payload ->
  forall r, r ∈ results payload ->
    (exists row e, row ∈ db_rows env /\ load_row row = Some e /\
                   r = to_result (r_similarity r, e)) /\
    (animal_code env <> "" -> r_up_kind_cd r = animal_code env) /\
    (gender_filter env <> "" -> str_upper (r_sex_cd r) = gender_filter env) /\
    (forall lost, lost_date env = Some lost ->
       exists n, fromisoformat (r_notice_sdt r) = Some n /\ lost <= n).
Proof.
  intros H r Hr. apply main_inv in H as (tr & Htr & ->).
  apply main_trace_inv in Htr as (head & qv & Hsub & Hsc & Hp).
  rewrite Hp in Hr. cbn [results] in Hr.
  apply list_elem_of_fmap in Hr as ([s e] & -> & Hx).
  destruct (dedup_topk_spec (tr_scores tr) topk) as [_ Hd].
  apply Hd in Hx as [Hin _]. rewrite Hsc in Hin.
  apply list_elem_of_fmap in Hin as (e' & Heq & He').
  unfold rerank_one in Heq. injection Heq as _ ->.
  apply Hsub, apply_filters_sound in He' as (Hload & Hk).
  apply list_elem_of_omap in Hload as (row & Hrow & Hl).
  split; [|exact Hk].
  exists row, e'. split; [exact Hrow|]. split; [exact Hl|reflexivity].
Qed.

(** Whenever [main] prints a payload, with or without results, its
    [query_bbox] is the box and the confidence of the detection. *)
Theorem payload_query_bbox (env : Env) (topk : Z) (payload : Payload) :
  main env topk = Ret payload ->
  query_bbox payload =
    {| x1 := (bbox (detection env)).1.1.1; y1 := (bbox (detection env)).1.1.2;
       x2 := (bbox (detection env)).1.2; y2 := (bbox (detection env)).2;
       qb_conf := conf (detection env) |}.
Proof.
  intros H. apply main_inv in H as (tr & Htr & ->).
  apply main_trace_inv in Htr as (head & qv & _ & _ & ->).
  cbn [query_bbox]. unfold bbox_of.
  destruct (bbox (detection env)) as [[[a b] c] d]. reflexivity.
Qed.

(** *** [load_embeddings] *)

Lemma vec_sum_length (n : nat) (vs : list (list R)) :
  vs <> [] -> Forall (fun v => length v = n) vs -> length (vec_sum vs) = n.
Proof.
  induction vs as [|v vs IH]; [contradiction|]. intros _ Hall.
  apply Forall_cons in Hall as [Hv Hvs].
  destruct vs as [|v' vs']; [exact Hv|].
  change (vec_sum (v :: v' :: vs')) with (zip_with Rplus v (vec_sum (v' :: vs'))).
  rewrite length_zip_with, IH by (discriminate || exact Hvs). lia.
Qed.

Lemma mean_valid_vectors_length (vectors : list (list R)) (dim : Z) :
  0 < dim ->
  Z.of_nat (length (mean_valid_vectors vectors dim)) = dim <->
  exists v, v ∈ vectors /\ Z.of_nat (length v) = dim.
Proof.
  intros Hdim. unfold mean_valid_vectors.
  destruct (List.filter _ vectors) as [|v valid] eqn:Hf.
  - cbn [length]. split; [lia|]. intros (v & Hv & Hlen). exfalso.
    assert (In v (List.filter (fun v => Z.of_nat (length v) =? dim) vectors)) as Hin.
    { apply filter_In. split; [apply list_elem_of_In, Hv|]. apply Z.eqb_eq, Hlen. }
    rewrite Hf in Hin. destruct Hin.
  - assert (Forall (fun u => length u = Z.to_nat dim) (v :: valid)) as Hall.
    { rewrite <- Hf. apply Forall_forall. intros u Hu.
      apply list_elem_of_In, filter_In in Hu as [_ Hu]. apply Z.eqb_eq in Hu. lia. }
    split.
    + intros _. exists v. split.
      * assert (In v (List.filter (fun v => Z.of_nat (length v) =? dim) vectors)) as Hin
          by (rewrite Hf; left; reflexivity).
        apply filter_In in Hin as [Hin _]. apply list_elem_of_In, Hin.
      * apply Forall_cons in Hall as [Hv _]. lia.
    + intros _. unfold np_mean. rewrite length_map.
      rewrite (vec_sum_length (Z.to_nat dim)) by (discriminate || exact Hall). lia.
Qed.

(** A row is loaded exactly when one of its four vectors has the configured
    dimension; the embedding kept for it then has that dimension, and the
    id and side of the row. *)
Theorem load_row_kept (row : DbRow) :
  0 < EMBED_DIM ->
  (is_Some (load_row row) <->
   exists v, v ∈ [v1 row; v2 row; v3 row; v4 row] /\ Z.of_nat (length v) = EMBED_DIM) /\
  (forall e, load_row row = Some e ->
     Z.of_nat (length (vec e)) = EMBED_DIM /\
     desertion_no e = row_desertion_no row /\ side e = row_embedding_side row).
Proof.
  intros Hdim. unfold load_row.
  pose proof (mean_valid_vectors_length [v1 row; v2 row; v3 row; v4 row] EMBED_DIM Hdim)
    as Hiff.
  destruct (Z.eqb_spec
              (Z.of_nat (length (mean_valid_vectors [v1 row; v2 row; v3 row; v4 row]
                                                    EMBED_DIM))) EMBED_DIM) as [Heq|Hne].
  - split.
    + split; [intros _; apply Hiff, Heq|intros _; eexists; reflexivity].
    + intros e [= <-]. cbn. split; [exact Heq|]. split; reflexivity.
  - split.
    + split; [intros [? ?]; discriminate|]. intros Hex. apply Hiff in Hex. contradiction.
    + intros e ?. discriminate.
Qed.

End Search.

Lemma results_pass_filters_witness :
  (exists row e,
     row ∈ db_rows (ex_env [1%R; 0%R] [ex_row "popfile1"; ex_row "popfile2"]) /\
     load_row (cfg := ex_config 500) row = Some e /\
     to_result (ex_sim, ex_emb "popfile1") =
       to_result (r_similarity (to_result (ex_sim, ex_emb "popfile1")), e)) /\
  (animal_code (cfg := ex_config 500)
     (ex_env [1%R; 0%R] [ex_row "popfile1"; ex_row "popfile2"]) <> "" ->
   r_up_kind_cd (to_result (ex_sim, ex_emb "popfile1")) =
     animal_code (cfg := ex_config 500)
       (ex_env [1%R; 0%R] [ex_row "popfile1"; ex_row "popfile2"])) /\
  (gender_filter (cfg := ex_config 500)
     (ex_env [1%R; 0%R] [ex_row "popfile1"; ex_row "popfile2"]) <> "" ->
   str_upper (Config := ex_config 500)
             (r_sex_cd (to_result (ex_sim, ex_emb "popfile1"))) =
     gender_filter (cfg := ex_config 500)
       (ex_env [1%R; 0%R] [ex_row "popfile1"; ex_row "popfile2"])) /\
  (forall lost,
     lost_date (cfg := ex_config 500)
       (ex_env [1%R; 0%R] [ex_row "popfile1"; ex_row "popfile2"]) = Some lost ->
     exists n,
       fromisoformat (Config := ex_config 500)
                     (r_notice_sdt (to_result (ex_sim, ex_emb "popfile1"))) = Some n /\
       lost <= n).
Proof.
  apply (results_pass_filters (cfg := ex_config 500)
           (ex_env [1%R; 0%R] [ex_row "popfile1"; ex_row "popfile2"]) 20 ex_payload
           ex_main_run).
  apply list_elem_of_here.
Defined.

Lemma payload_query_bbox_witness :
  query_bbox ex_payload =
    {| x1 := 1; y1 := 2; x2 := 3; y2 := 4; qb_conf := 1%R |}.
Proof.
  apply (payload_query_bbox (cfg := ex_config 500)
           (ex_env [1%R; 0%R] [ex_row "popfile1"; ex_row "popfile2"]) 20 ex_payload).
  exact ex_main_run.
Defined.

Lemma load_row_kept_witness :
  (is_Some (load_row (cfg := ex_config 500) (ex_row "popfile1")) <->
   exists v, v ∈ [v1 (ex_row "popfile1"); v2 (ex_row "popfile1");
                  v3 (ex_row "popfile1"); v4 (ex_row "popfile1")] /\
             Z.of_nat (length v) = 2) /\
  (forall e, load_row (cfg := ex_config 500) (ex_row "popfile1") = Some e ->
     Z.of_nat (length (vec e)) = 2 /\
     desertion_no e = "A" /\ side e = "popfile1").
Proof.
  apply (load_row_kept (cfg := ex_config 500) (ex_row "popfile1")).
  reflexivity.
Defined.

Lemma results_sorted_witness :
  StronglySorted (fun a b => (r_similarity b <= r_similarity a)%R) (results ex_payload).
Proof.
  apply (results_sorted (cfg := ex_config 500)
           (ex_env [1%R; 0%R] [ex_row "popfile1"; ex_row "popfile2"]) 20 ex_payload).
  exact ex_main_run.
Defined.

Lemma results_count_witness :
  exists tr,
    main_trace (cfg := ex_config 500)
               (ex_env [1%R; 0%R] [ex_row "popfile1"; ex_row "popfile2"]) 20 = Ret tr /\
    let D := Z.of_nat (length (remove_dups (map desertion_no (tr_shortlist tr)))) in
    Z.of_nat (length (results ex_payload)) =
      if 0 <=? 20 then Z.min 20 D else Z.max 0 (D + 20).
Proof.
  apply (results_count (cfg := ex_config 500)
           (ex_env [1%R; 0%R] [ex_row "popfile1"; ex_row "popfile2"]) 20 ex_payload).
  exact ex_main_run.
Defined.

End SearchFacts.
